(** * A file-backed personal finance ledger

    Shallow embedding of [main.py]: a command-line ledger that keeps its
    records in [finances.csv] and the last identifier it handed out in
    [last_id.txt].

    The program is only a few calls into Python's run time, so the run time
    it relies on is embedded too, as far as the program uses it:

    - [builtins]: [str] and [int] on integers, exceptions;
    - [io]: text files opened with and without [newline=''];
    - [csv]: the [excel] dialect, [writer], [reader], [DictWriter],
      [DictReader];
    - [main]: the functions of [main.py], in a state-and-exception monad
      over the two files and the console.

    Conventions.  A Python [str] is a Rocq [string] holding its UTF-8
    bytes; every character the code looks at (comma, quote, CR, LF, ASCII
    digits, sign, underscore, ASCII white space) is ASCII, so the byte view
    and the code-point view agree on them.  Outside the model: digits and
    white space beyond ASCII in [int], the length limits of CPython
    ([sys.set_int_max_str_digits], [csv.field_size_limit]), NUL
    characters in the store and I/O failures other than a missing
    file. *)

From Stdlib Require Import String Ascii List ZArith Lia Bool.
From Stdlib Require Import DecimalString DecimalPos DecimalZ DecimalFacts.
Import ListNotations.
Local Open Scope string_scope.

(** The four characters the CSV code distinguishes. *)
Definition LF : ascii := "010"%char.
Definition CR : ascii := "013"%char.
Definition quotechar : ascii := "034"%char.
Definition delimiter : ascii := ","%char.

Definition is_empty (s : string) : bool :=
  match s with EmptyString => true | String _ _ => false end.

(** ** builtins *)
Module builtins.

Inductive exn :=
| FileNotFoundError
| ValueError
| IndexError
| KeyError
| csv_Error.

Inductive result (A : Type) :=
| Ok (a : A)
| Raise (e : exn).
Arguments Ok {A} a.
Arguments Raise {A} e.

(** [str(n)] for an [int]: decimal digits, a minus sign when negative. *)
Definition str (n : Z) : string := NilZero.string_of_int (Z.to_int n).

(** White space as [int] strips it from an ASCII string (C [isspace]). *)
Definition isspace (c : ascii) : bool :=
  let n := nat_of_ascii c in
  ((9 <=? n) && (n <=? 13) || (n =? 32))%nat.

Definition digit_of (c : ascii) : option Z :=
  let n := Z.of_nat (nat_of_ascii c) in
  if ((48 <=? n) && (n <=? 57))%Z then Some (n - 48)%Z else None.

Fixpoint lstrip (s : string) : string :=
  match s with
  | EmptyString => EmptyString
  | String c s' => if isspace c then lstrip s' else s
  end.

Fixpoint rstrip (s : string) : string :=
  match s with
  | EmptyString => EmptyString
  | String c s' =>
      let r := rstrip s' in
      if isspace c && is_empty r then EmptyString else String c r
  end.

(** Digits of a base-10 literal; one underscore is accepted between two
    digits.  [after_digit] says that the previous character was a digit. *)
Fixpoint digits (acc : Z) (after_digit : bool) (s : string) : option Z :=
  match s with
  | EmptyString => if after_digit then Some acc else None
  | String c s' =>
      match digit_of c with
      | Some d => digits (10 * acc + d) true s'
      | None =>
          if (c =? "_")%char && after_digit then digits acc false s'
          else None
      end
  end.

(** [int(s)]; [None] stands for [ValueError]. *)
Definition int (s : string) : option Z :=
  match rstrip (lstrip s) with
  | EmptyString => None
  | String c s' =>
      if (c =? "+")%char then digits 0 false s'
      else if (c =? "-")%char then option_map Z.opp (digits 0 false s')
      else digits 0 false (String c s')
  end.

End builtins.
Import builtins.

(** ** io *)
Module io.

(** Text read from a file opened without [newline='']: universal
    newlines, CR LF and a lone CR both arrive as LF.
    [pendingcr] says that the previous character was a CR. *)
Fixpoint translate (pendingcr : bool) (s : string) : string :=
  match s with
  | EmptyString => EmptyString
  | String c s' =>
      if (c =? CR)%char then String LF (translate true s')
      else if (c =? LF)%char then
        if pendingcr then translate false s'
        else String LF (translate false s')
      else String c (translate false s')
  end.

Definition universal_newlines (s : string) : string := translate false s.

(** Iterating over a text file: the lines, each with its LF, the last
    one possibly without. *)
Fixpoint readlines (s : string) : list string :=
  match s with
  | EmptyString => []
  | String c s' =>
      if (c =? LF)%char then String c EmptyString :: readlines s'
      else match readlines s' with
           | [] => [String c EmptyString]
           | l :: ls => String c l :: ls
           end
  end.

End io.

(** ** csv *)
Module csv.

Definition row := list string.

(** *** writer, [excel] dialect: comma as delimiter, the double quote as
    quotechar, doubled inside a field, [QUOTE_MINIMAL], CR LF as line
    terminator. *)
Definition lineterminator : string := String CR (String LF EmptyString).

Definition special (c : ascii) : bool :=
  ((c =? delimiter) || (c =? quotechar) || (c =? CR) || (c =? LF))%char.

(** First pass of [join_append_data]: does the field need quotes? *)
Fixpoint want_quote (field : string) : bool :=
  match field with
  | EmptyString => false
  | String c f => special c || want_quote f
  end.

(** Second pass: the characters, each quotechar doubled. *)
Fixpoint copy_data (field : string) : string :=
  match field with
  | EmptyString => EmptyString
  | String c f =>
      if (c =? quotechar)%char then String quotechar (String c (copy_data f))
      else String c (copy_data f)
  end.

Definition join_append (field : string) (quoted : bool) : string :=
  if quoted || want_quote field
  then String quotechar (copy_data field ++ String quotechar EmptyString)
  else copy_data field.

(** The fields of a record, a delimiter before each but the first. *)
Fixpoint join (first : bool) (fields : list string) : string :=
  match fields with
  | [] => EmptyString
  | f :: fs =>
      (if first then EmptyString else String delimiter EmptyString)
      ++ join_append f false ++ join false fs
  end.

(** [writer.writerow]: a record that came out empty although it has a
    field (one empty field) is written as a pair of quotes. *)
Definition writerow (fields : list string) : string :=
  let rec := join true fields in
  (match fields with
   | [] => rec
   | f :: _ => if is_empty rec then join_append EmptyString true else rec
   end) ++ lineterminator.

(** *** reader, [excel] dialect (no escapechar, not strict). *)
Inductive ParserState :=
| START_RECORD
| START_FIELD
| IN_FIELD
| IN_QUOTED_FIELD
| QUOTE_IN_QUOTED_FIELD
| EAT_CRNL.

Definition ParserState_eqb (a b : ParserState) : bool :=
  match a, b with
  | START_RECORD, START_RECORD | START_FIELD, START_FIELD
  | IN_FIELD, IN_FIELD | IN_QUOTED_FIELD, IN_QUOTED_FIELD
  | QUOTE_IN_QUOTED_FIELD, QUOTE_IN_QUOTED_FIELD | EAT_CRNL, EAT_CRNL => true
  | _, _ => false
  end.

(** What the state machine is fed: a character of the line, or the [EOL]
    marker sent after the last character of every line. *)
Inductive input := Char (c : ascii) | EOL.

Record ReaderObj := {
  state : ParserState;
  fields : list string;   (* fields of the record read so far *)
  field : string          (* characters of the current field *)
}.

Definition parse_reset : ReaderObj :=
  {| state := START_RECORD; fields := []; field := EmptyString |}.

Definition parse_add_char (self : ReaderObj) (c : ascii) (st : ParserState)
  : ReaderObj :=
  {| state := st; fields := fields self;
     field := field self ++ String c EmptyString |}.

Definition parse_save_field (self : ReaderObj) (st : ParserState)
  : ReaderObj :=
  {| state := st; fields := (fields self ++ [field self])%list;
     field := EmptyString |}.

Definition set_state (self : ReaderObj) (st : ParserState) : ReaderObj :=
  {| state := st; fields := fields self; field := field self |}.

Definition is_newline (c : ascii) : bool := ((c =? LF) || (c =? CR))%char.

(** After a line break: [START_RECORD] on [EOL], [EAT_CRNL] on a newline
    character. *)
Definition after_break (i : input) : ParserState :=
  match i with EOL => START_RECORD | Char _ => EAT_CRNL end.

Definition start_field (self : ReaderObj) (i : input) : ReaderObj :=
  match i with
  | EOL => parse_save_field self START_RECORD
  | Char c =>
      if is_newline c then parse_save_field self EAT_CRNL
      else if (c =? quotechar)%char then set_state self IN_QUOTED_FIELD
      else if (c =? delimiter)%char then parse_save_field self START_FIELD
      else parse_add_char self c IN_FIELD
  end.

(** [parse_process_char]; [Raise csv_Error] is the module's [Error]. *)
Definition parse_process_char (self : ReaderObj) (i : input)
  : result ReaderObj :=
  match state self with
  | START_RECORD =>
      match i with
      | EOL => Ok self
      | Char c =>
          if is_newline c then Ok (set_state self EAT_CRNL)
          else Ok (start_field self i)
      end
  | START_FIELD => Ok (start_field self i)
  | IN_FIELD =>
      match i with
      | EOL => Ok (parse_save_field self START_RECORD)
      | Char c =>
          if is_newline c then Ok (parse_save_field self EAT_CRNL)
          else if (c =? delimiter)%char
               then Ok (parse_save_field self START_FIELD)
          else Ok (parse_add_char self c IN_FIELD)
      end
  | IN_QUOTED_FIELD =>
      match i with
      | EOL => Ok self
      | Char c =>
          if (c =? quotechar)%char
          then Ok (set_state self QUOTE_IN_QUOTED_FIELD)
          else Ok (parse_add_char self c IN_QUOTED_FIELD)
      end
  | QUOTE_IN_QUOTED_FIELD =>
      match i with
      | EOL => Ok (parse_save_field self START_RECORD)
      | Char c =>
          if (c =? quotechar)%char
          then Ok (parse_add_char self c IN_QUOTED_FIELD)
          else if (c =? delimiter)%char
               then Ok (parse_save_field self START_FIELD)
          else if is_newline c then Ok (parse_save_field self EAT_CRNL)
          else Ok (parse_add_char self c IN_FIELD)
      end
  | EAT_CRNL =>
      match i with
      | EOL => Ok (set_state self START_RECORD)
      | Char c => if is_newline c then Ok self else Raise csv_Error
      end
  end.

(** One line: its characters, then [EOL]. *)
Fixpoint parse_line (self : ReaderObj) (line : string) : result ReaderObj :=
  match line with
  | EmptyString => parse_process_char self EOL
  | String c l =>
      match parse_process_char self (Char c) with
      | Ok self' => parse_line self' l
      | Raise e => Raise e
      end
  end.

(** [list(reader(lines))].  A record is complete when a line leaves the
    machine in [START_RECORD]; at the end of the input a record that is
    under way (characters pending, or inside quotes) is returned too. *)
Fixpoint reader_from (self : ReaderObj) (lines : list string)
  : result (list row) :=
  match lines with
  | [] =>
      if negb (is_empty (field self))
         || ParserState_eqb (state self) IN_QUOTED_FIELD
      then Ok [(fields self ++ [field self])%list]
      else Ok []
  | line :: rest =>
      match parse_line self line with
      | Raise e => Raise e
      | Ok self' =>
          if ParserState_eqb (state self') START_RECORD then
            match reader_from parse_reset rest with
            | Ok rows => Ok (fields self' :: rows)
            | Raise e => Raise e
            end
          else reader_from self' rest
      end
  end.

Definition reader (lines : list string) : result (list row) :=
  reader_from parse_reset lines.


(** *** Dictionaries, as [DictReader] builds them and [DictWriter] takes
    them.  A key is a column name or [None] (the [restkey] of the reader);
    a value is a [str], [None] (the [restval] of the reader, for a short
    row) or the list of the surplus fields of a long row.  A dictionary is
    kept as an association list in insertion order, which is the order
    [keys()] gives. *)
Inductive value :=
| VStr (s : string)
| VNone
| VList (l : list string).

Definition key := option string.
Definition dict := list (key * value).

Definition key_eqb (a b : key) : bool :=
  match a, b with
  | Some x, Some y => String.eqb x y
  | None, None => true
  | _, _ => false
  end.

Fixpoint dict_get (d : dict) (k : key) : option value :=
  match d with
  | [] => None
  | (k', v) :: d' => if key_eqb k' k then Some v else dict_get d' k
  end.

(** [d[k] = v]: a key already there keeps its place. *)
Fixpoint dict_set (d : dict) (k : key) (v : value) : dict :=
  match d with
  | [] => [(k, v)]
  | (k', v') :: d' =>
      if key_eqb k' k then (k, v) :: d' else (k', v') :: dict_set d' k v
  end.

Definition keys (d : dict) : list key := map fst d.

(** [v == s] for a [str] [s]. *)
Definition eq_str (v : value) (s : string) : bool :=
  match v with
  | VStr a => String.eqb a s
  | _ => false
  end.

(** [DictReader.__next__] on a row that is not blank. *)
Definition DictReader_next (fieldnames : list string) (r : row) : dict :=
  let d := fold_left (fun d kv => dict_set d (Some (fst kv)) (VStr (snd kv)))
                     (combine fieldnames r) [] in
  let lf := length fieldnames in
  let lr := length r in
  if (lf <? lr)%nat then dict_set d None (VList (skipn lf r))
  else fold_left (fun d k => dict_set d (Some k) VNone) (skipn lr fieldnames) d.

Definition is_blank (r : row) : bool :=
  match r with [] => true | _ :: _ => false end.

(** [list(DictReader(f))] from the rows of the underlying reader: the
    first row gives the field names, blank rows after it are skipped. *)
Definition DictReader (rows : list row) : list dict :=
  match rows with
  | [] => []
  | fieldnames :: rest =>
      map (DictReader_next fieldnames)
          (filter (fun r => negb (is_blank r)) rest)
  end.

Section Writer.

(** [str(l)] for a list [l] of [str], the one value that is neither a
    [str] nor [None]; the writer sends it through [str()].  Its text (the
    [repr] of every element) is left open. *)
Variable str_list : list string -> string.

Definition text_of (v : value) : string :=
  match v with
  | VStr s => s
  | VNone => EmptyString
  | VList l => str_list l
  end.

Definition key_value (k : key) : value :=
  match k with Some s => VStr s | None => VNone end.

(** [DictWriter._dict_to_list], [extrasaction='raise'], [restval='']. *)
Definition _dict_to_list (fieldnames : list key) (rowdict : dict)
  : result (list value) :=
  if forallb (fun k => existsb (key_eqb k) fieldnames) (keys rowdict)
  then Ok (map (fun k => match dict_get rowdict k with
                         | Some v => v
                         | None => VStr EmptyString
                         end) fieldnames)
  else Raise ValueError.

(** [DictWriter.writeheader]: the row of the field names. *)
Definition header (fieldnames : list key) : string :=
  writerow (map (fun k => text_of (key_value k)) fieldnames).

End Writer.

End csv.
Import io csv.

(** ** main.py *)
Module main.

(** What the program prints, one constructor per [print] of the source
    (prompts of [input] are not recorded). *)
Inductive line :=
| FileCreated
| FileExists
| EntryAdded
| CurrentData (entry : dict)
| EntryUpdated
| EntryNotFound
| AllIds
| IdLine (v : value).

(** The two files ([None]: the file does not exist) and the console. *)
Record World := {
  finances_csv : option string;
  last_id_txt : option string;
  stdout : list line
}.

(** State and exceptions. *)
Definition M (A : Type) := World -> result A * World.

Definition ret {A} (a : A) : M A := fun w => (Ok a, w).

Definition raise {A} (e : exn) : M A := fun w => (Raise e, w).

Definition bind {A B} (m : M A) (f : A -> M B) : M B :=
  fun w =>
    match m w with
    | (Ok a, w') => f a w'
    | (Raise e, w') => (Raise e, w')
    end.

Notation "x <- m ;; k" := (bind m (fun x => k))
  (at level 61, m at next level, right associativity).
Notation "m ;; k" := (bind m (fun _ => k))
  (at level 61, right associativity).

Definition lift {A} (r : result A) : M A := fun w => (r, w).

Definition exn_eqb (a b : exn) : bool :=
  match a, b with
  | FileNotFoundError, FileNotFoundError | ValueError, ValueError
  | IndexError, IndexError | KeyError, KeyError | csv_Error, csv_Error => true
  | _, _ => false
  end.

(** [try: m except e: h] *)
Definition try_except {A} (m : M A) (e : exn) (h : M A) : M A :=
  fun w =>
    match m w with
    | (Raise e', w') => if exn_eqb e e' then h w' else (Raise e', w')
    | r => r
    end.

Definition print (l : line) : M unit :=
  fun w => (Ok tt, {| finances_csv := finances_csv w;
                      last_id_txt := last_id_txt w;
                      stdout := (stdout w ++ [l])%list |}).

(** Files.  [open(.., 'r')] on a missing file raises; the text comes
    through universal newlines since no reader passes [newline=''].
    [open(.., 'w')] creates or truncates; [write] appends to what the
    handle wrote so far.  Both writers of the store pass [newline='']
    and the counter never holds a newline, so written text is stored as
    it is. *)
Inductive path := data_file | last_id_file.

Definition content (p : path) (w : World) : option string :=
  match p with
  | data_file => finances_csv w
  | last_id_file => last_id_txt w
  end.

Definition set_content (p : path) (s : string) (w : World) : World :=
  match p with
  | data_file =>
      {| finances_csv := Some s; last_id_txt := last_id_txt w;
         stdout := stdout w |}
  | last_id_file =>
      {| finances_csv := finances_csv w; last_id_txt := Some s;
         stdout := stdout w |}
  end.

Definition read_text (p : path) : M string :=
  fun w =>
    match content p w with
    | Some s => (Ok (universal_newlines s), w)
    | None => (Raise FileNotFoundError, w)
    end.

Definition open_w (p : path) : M unit :=
  fun w => (Ok tt, set_content p EmptyString w).

Definition write (p : path) (s : string) : M unit :=
  fun w =>
    match content p w with
    | Some old => (Ok tt, set_content p (old ++ s) w)
    | None => (Ok tt, set_content p s w)
    end.

Definition isfile (p : path) : M bool :=
  fun w => (Ok (match content p w with Some _ => true | None => false end), w).

Section Program.

Variable str_list : list string -> string.

Definition headers : list string :=
  ["id"; "date"; "type"; "amount"; "category"; "description"].

Definition check_and_create_file : M unit :=
  present <- isfile data_file ;;
  if negb present then
    print FileCreated ;;
    open_w data_file ;;
    write data_file (writerow headers)
  else print FileExists.

Definition read_data : M (list dict) :=
  text <- read_text data_file ;;
  rows <- lift (reader (readlines text)) ;;
  ret (DictReader rows).

(** [writer.writerows(map(self._dict_to_list, rowdicts))]: a row is
    written as soon as it is converted. *)
Fixpoint writerows (fieldnames : list key) (rowdicts : list dict) : M unit :=
  match rowdicts with
  | [] => ret tt
  | d :: rest =>
      vs <- lift (_dict_to_list fieldnames d) ;;
      write data_file (writerow (map (text_of str_list) vs)) ;;
      writerows fieldnames rest
  end.

Definition write_data (finances : list dict) : M unit :=
  open_w data_file ;;
  first <- lift (match finances with
                 | [] => Raise IndexError
                 | d :: _ => Ok d
                 end) ;;
  let fieldnames := keys first in
  write data_file (header str_list fieldnames) ;;
  writerows fieldnames finances.

Definition save_last_id (last_id : Z) : M unit :=
  open_w last_id_file ;;
  write last_id_file (str last_id).

Definition load_last_id : M Z :=
  try_except
    (text <- read_text last_id_file ;;
     match int text with
     | Some n => ret n
     | None => raise ValueError
     end)
    FileNotFoundError
    (ret 1%Z).

Definition get_next_id : M Z :=
  n <- load_last_id ;;
  ret (n + 1)%Z.

(** The five arguments are what the five calls of [input] return. *)
Definition add_entry (date entry_type amount category description : string)
  : M unit :=
  entry_id <- get_next_id ;;
  let new_entry : dict :=
    [ (Some "id", VStr (str entry_id));
      (Some "date", VStr date);
      (Some "type", VStr entry_type);
      (Some "amount", VStr amount);
      (Some "category", VStr category);
      (Some "description", VStr description) ] in
  finances <- read_data ;;
  write_data (finances ++ [new_entry])%list ;;
  save_last_id entry_id ;;
  print EntryAdded.

(** [d[k]] *)
Definition getitem (d : dict) (k : string) : result value :=
  match dict_get d (Some k) with
  | Some v => Ok v
  | None => Raise KeyError
  end.

(** The loop of [search_by_id]. *)
Fixpoint search_loop (finances : list dict) (entry_id : string)
  : result (option dict) :=
  match finances with
  | [] => Ok None
  | entry :: rest =>
      match getitem entry "id" with
      | Raise e => Raise e
      | Ok v =>
          if eq_str v entry_id then Ok (Some entry)
          else search_loop rest entry_id
      end
  end.

Definition search_by_id (entry_id : string) : M (option dict) :=
  finances <- read_data ;;
  lift (search_loop finances entry_id).

Fixpoint print_ids (finances : list dict) : M unit :=
  match finances with
  | [] => ret tt
  | entry :: rest =>
      v <- lift (getitem entry "id") ;;
      print (IdLine v) ;;
      print_ids rest
  end.

Definition show_all_ids : M unit :=
  finances <- read_data ;;
  print AllIds ;;
  print_ids finances.

(** [entry[k] = new if new else entry[k]] *)
Definition assign (entry : dict) (k : string) (new : string) : M dict :=
  if negb (is_empty new) then ret (dict_set entry (Some k) (VStr new))
  else v <- lift (getitem entry k) ;; ret (dict_set entry (Some k) v).

(** The loop of [edit_entry]: the first position whose id is [entry_id]
    receives [entry], then [break]. *)
Fixpoint replace_loop (finances : list dict) (entry_id : string)
  (entry : dict) : result (list dict) :=
  match finances with
  | [] => Ok []
  | e :: rest =>
      match getitem e "id" with
      | Raise x => Raise x
      | Ok v =>
          if eq_str v entry_id then Ok (entry :: rest)
          else match replace_loop rest entry_id entry with
               | Ok rest' => Ok (e :: rest')
               | Raise x => Raise x
               end
      end
  end.

(** [if entry:] on the result of [search_by_id]. *)
Definition truthy (entry : option dict) : bool :=
  match entry with
  | Some (_ :: _) => true
  | _ => false
  end.

(** [search_by_id] reads the file again, so its result is a dictionary
    of its own: assigning to it leaves [finances] alone until the loop
    stores it.  The five [new_] arguments are what [input] returns. *)
Definition edit_entry (entry_id : string)
  (new_date new_type new_amount new_category new_description : string)
  : M unit :=
  finances <- read_data ;;
  found <- search_by_id entry_id ;;
  match found with
  | Some entry =>
      if truthy found then
        print (CurrentData entry) ;;
        entry <- assign entry "date" new_date ;;
        entry <- assign entry "type" new_type ;;
        entry <- assign entry "amount" new_amount ;;
        entry <- assign entry "category" new_category ;;
        entry <- assign entry "description" new_description ;;
        finances <- lift (replace_loop finances entry_id entry) ;;
        write_data finances ;;
        print EntryUpdated
      else
        print EntryNotFound ;;
        show_all_ids
  | None =>
      print EntryNotFound ;;
      show_all_ids
  end.

End Program.

End main.
Import main.

(** ** main.py at the keyboard

    [main] and the two functions that ask the user, with [input] as an
    effect: the lines still to be read are part of the state, and [input]
    on none left raises [EOFError].  The functions of [Module main] that
    take the answers as arguments are these with the answers already read
    (see [session_facts]).  [while True] is a loop on fuel; [main] gives
    it more fuel than there are lines to read. *)
Module session.

Inductive s_exn :=
| Py (e : exn)
| EOFError.

Inductive s_result (A : Type) :=
| SOk (a : A)
| SRaise (e : s_exn).
Arguments SOk {A} a.
Arguments SRaise {A} e.

(** The prints of [main] itself, one constructor per [print]. *)
Inductive main_line :=
| MenuTitle
| MenuAdd
| MenuFind
| MenuEdit
| MenuExit
| FoundEntry (entry : dict)
| NotFound
| InvalidChoice.

(** [main_out] holds the prints of [main], each with the number of lines
    the functions had printed before it, which places it among them. *)
Record Session := {
  world : World;
  stdin : list string;
  main_out : list (nat * main_line)
}.

(** [None]: out of fuel. *)
Definition S (A : Type) := Session -> option (s_result A * Session).

Definition sret {A} (a : A) : S A := fun st => Some (SOk a, st).

Definition sbind {A B} (m : S A) (f : A -> S B) : S B :=
  fun st =>
    match m st with
    | Some (SOk a, st') => f a st'
    | Some (SRaise e, st') => Some (SRaise e, st')
    | None => None
    end.

Notation "x <~ m ;; k" := (sbind m (fun x => k))
  (at level 61, m at next level, right associativity).
Notation "m ;;; k" := (sbind m (fun _ => k))
  (at level 61, right associativity).

(** A function of [Module main], run on the files and the console. *)
Definition call {A} (m : M A) : S A :=
  fun st =>
    let (r, w') := m (world st) in
    Some (match r with
          | Ok a => SOk a
          | Raise e => SRaise (Py e)
          end,
          {| world := w'; stdin := stdin st; main_out := main_out st |}).

(** [input(prompt)]: the next line, without its line break. *)
Definition input : S string :=
  fun st =>
    match stdin st with
    | [] => Some (SRaise EOFError, st)
    | l :: rest =>
        Some (SOk l, {| world := world st; stdin := rest;
                        main_out := main_out st |})
    end.

Definition say (l : main_line) : S unit :=
  fun st =>
    Some (SOk tt,
          {| world := world st; stdin := stdin st;
             main_out :=
               (main_out st ++ [(length (stdout (world st)), l)])%list |}).

Section Program.

Variable str_list : list string -> string.

Definition add_entry : S unit :=
  entry_id <~ call get_next_id ;;
  date <~ input ;;
  entry_type <~ input ;;
  amount <~ input ;;
  category <~ input ;;
  description <~ input ;;
  let new_entry : dict :=
    [ (Some "id", VStr (str entry_id));
      (Some "date", VStr date);
      (Some "type", VStr entry_type);
      (Some "amount", VStr amount);
      (Some "category", VStr category);
      (Some "description", VStr description) ] in
  finances <~ call read_data ;;
  call (write_data str_list (finances ++ [new_entry])%list) ;;;
  call (save_last_id entry_id) ;;;
  call (print EntryAdded).

Definition edit_entry (entry_id : string) : S unit :=
  finances <~ call read_data ;;
  found <~ call (search_by_id entry_id) ;;
  match found with
  | Some entry =>
      if truthy found then
        call (print (CurrentData entry)) ;;;
        new_date <~ input ;;
        entry <~ call (assign entry "date" new_date) ;;
        new_type <~ input ;;
        entry <~ call (assign entry "type" new_type) ;;
        new_amount <~ input ;;
        entry <~ call (assign entry "amount" new_amount) ;;
        new_category <~ input ;;
        entry <~ call (assign entry "category" new_category) ;;
        new_description <~ input ;;
        entry <~ call (assign entry "description" new_description) ;;
        finances <~ call (lift (replace_loop finances entry_id entry)) ;;
        call (write_data str_list finances) ;;;
        call (print EntryUpdated)
      else
        call (print EntryNotFound) ;;;
        call show_all_ids
  | None =>
      call (print EntryNotFound) ;;;
      call show_all_ids
  end.

(** The [while True] of [main]. *)
Fixpoint loop (fuel : nat) : S unit :=
  match fuel with
  | O => fun _ => None
  | Datatypes.S fuel' =>
      say MenuTitle ;;;
      say MenuAdd ;;;
      say MenuFind ;;;
      say MenuEdit ;;;
      say MenuExit ;;;
      choice <~ input ;;
      if (choice =? "1")%string then
        add_entry ;;;
        loop fuel'
      else if (choice =? "2")%string then
        entry_id <~ input ;;
        entry <~ call (search_by_id entry_id) ;;
        match entry with
        | Some e =>
            if truthy entry then say (FoundEntry e)
            else say NotFound ;;; call show_all_ids
        | None => say NotFound ;;; call show_all_ids
        end ;;;
        loop fuel'
      else if (choice =? "3")%string then
        entry_id <~ input ;;
        edit_entry entry_id ;;;
        loop fuel'
      else if (choice =? "4")%string then sret tt
      else
        say InvalidChoice ;;;
        loop fuel'
  end.

Definition main : S unit :=
  fun st =>
    (call check_and_create_file ;;;
     loop (Datatypes.S (length (stdin st)))) st.

End Program.

End session.

(** * Notions used in the statements *)

(** ** Strings *)

Fixpoint forall_chars (p : ascii -> bool) (s : string) : bool :=
  match s with
  | EmptyString => true
  | String c s' => p c && forall_chars p s'
  end.

Definition no_newline (s : string) : bool :=
  forall_chars (fun c => negb (is_newline c)) s.

Definition no_CR (s : string) : bool :=
  forall_chars (fun c => negb (c =? CR)%char) s.

(** A field as it comes back from a file read with universal newlines. *)
Definition nl (f : string) : string := universal_newlines f.

(** ** The counter file *)

(** A base-10 integer as the counter file is meant to hold it: decimal
    digits, a minus sign before them for a negative number. *)
Fixpoint decimal_value (acc : Z) (s : string) : option Z :=
  match s with
  | EmptyString => Some acc
  | String c s' =>
      match digit_of c with
      | Some d => decimal_value (10 * acc + d) s'
      | None => None
      end
  end.

Definition base10 (s : string) : option Z :=
  match s with
  | EmptyString => None
  | String c s' =>
      if (c =? "-")%char
      then if is_empty s' then None
           else option_map Z.opp (decimal_value 0 s')
      else decimal_value 0 s
  end.

(** ** Records and the store *)

(** A record of the ledger: the six columns of the store. *)
Record Entry := {
  e_id : string;
  e_date : string;
  e_type : string;
  e_amount : string;
  e_category : string;
  e_description : string
}.

(** The dictionary [add_entry] builds and [DictReader] returns for it. *)
Definition entry_of (e : Entry) : dict :=
  [ (Some "id", VStr (e_id e));
    (Some "date", VStr (e_date e));
    (Some "type", VStr (e_type e));
    (Some "amount", VStr (e_amount e));
    (Some "category", VStr (e_category e));
    (Some "description", VStr (e_description e)) ].

Definition values (e : Entry) : row :=
  [e_id e; e_date e; e_type e; e_amount e; e_category e; e_description e].

(** Text of a sequence of rows, as the writer lays them out. *)
Definition writerows_text (rows : list row) : string :=
  fold_right (fun r t => writerow r ++ t) EmptyString rows.

(** The store file of a sequence of records: the header, then a row for
    each record, in order. *)
Definition store_text (es : list Entry) : string :=
  writerows_text (headers :: map values es).

(** The store of [w] loads as the records [es]. *)
Definition loads (w : World) (es : list Entry) : Prop :=
  read_data w = (Ok (map entry_of es), w).

(** A record with every field as it comes back through universal
    newlines. *)
Definition nl_entry (e : Entry) : Entry :=
  {| e_id := nl (e_id e);
     e_date := nl (e_date e);
     e_type := nl (e_type e);
     e_amount := nl (e_amount e);
     e_category := nl (e_category e);
     e_description := nl (e_description e) |}.

Definition entry_no_CR (e : Entry) : Prop :=
  Forall (fun f => no_CR f = true) (values e).

Definition has_id (q : string) (e : Entry) : bool := (e_id e =? q)%string.

(** ** Adding *)

(** What the user types for one record: the results of the five calls of
    [input]. *)
Record Answers := {
  a_date : string;
  a_type : string;
  a_amount : string;
  a_category : string;
  a_description : string
}.

(** The record [add_entry] appends for the identifier [n] and the five
    answers. *)
Definition added (n : Z)
  (date entry_type amount category description : string) : Entry :=
  {| e_id := str n;
     e_date := date;
     e_type := entry_type;
     e_amount := amount;
     e_category := category;
     e_description := description |}.

(** A run of [add_entry], once for every element of [inputs]. *)
Fixpoint add_entries (str_list : list string -> string)
  (inputs : list Answers) : M unit :=
  match inputs with
  | [] => ret tt
  | i :: rest =>
      bind (add_entry str_list (a_date i) (a_type i) (a_amount i)
                      (a_category i) (a_description i))
           (fun _ => add_entries str_list rest)
  end.

(** The records such a run leaves in the store when the first identifier
    handed out is [n]. *)
Fixpoint numbered (n : Z) (inputs : list Answers) : list Entry :=
  match inputs with
  | [] => []
  | i :: rest =>
      {| e_id := str n;
         e_date := nl (a_date i);
         e_type := nl (a_type i);
         e_amount := nl (a_amount i);
         e_category := nl (a_category i);
         e_description := nl (a_description i) |}
      :: numbered (n + 1) rest
  end.

(** ** Editing *)

(** [new if new else old] *)
Definition choose (new old : string) : string :=
  if is_empty new then old else new.

(** The record [edit_entry] stores for [e] and the five answers. *)
Definition edited (e : Entry)
  (new_date new_type new_amount new_category new_description : string)
  : Entry :=
  {| e_id := e_id e;
     e_date := choose new_date (e_date e);
     e_type := choose new_type (e_type e);
     e_amount := choose new_amount (e_amount e);
     e_category := choose new_category (e_category e);
     e_description := choose new_description (e_description e) |}.

(** One field of an edit: an empty answer keeps the old value, any
    other answer replaces it. *)
Definition kept_or_replaced (new old result : string) : Prop :=
  (new = EmptyString -> result = old) /\ (new <> EmptyString -> result = new).

(** * Notions used in the proofs *)

Definition decimal_digits : list ascii :=
  ["0"; "1"; "2"; "3"; "4"; "5"; "6"; "7"; "8"; "9"]%char.

Definition isdigit (c : ascii) : bool :=
  match digit_of c with Some _ => true | None => false end.

(** Value of a numeral read from the left, starting from [acc]. *)
Fixpoint uint_val (acc : Z) (d : Decimal.uint) : Z :=
  match d with
  | Decimal.Nil => acc
  | Decimal.D0 d => uint_val (10 * acc + 0) d
  | Decimal.D1 d => uint_val (10 * acc + 1) d
  | Decimal.D2 d => uint_val (10 * acc + 2) d
  | Decimal.D3 d => uint_val (10 * acc + 3) d
  | Decimal.D4 d => uint_val (10 * acc + 4) d
  | Decimal.D5 d => uint_val (10 * acc + 5) d
  | Decimal.D6 d => uint_val (10 * acc + 6) d
  | Decimal.D7 d => uint_val (10 * acc + 7) d
  | Decimal.D8 d => uint_val (10 * acc + 8) d
  | Decimal.D9 d => uint_val (10 * acc + 9) d
  end%Z.

(** A record put in front of the records still to come. *)
Definition emit (r : row) (k : result (list row)) : result (list row) :=
  match k with
  | Ok rows => Ok (r :: rows)
  | Raise e => Raise e
  end.

(** The reader over the lines of a text. *)
Definition run (self : ReaderObj) (t : string) : result (list row) :=
  reader_from self (readlines t).

(** The reader has taken in a whole field of value [v] and has not yet
    stored it. *)
Definition pending (self : ReaderObj) (v : string) : Prop :=
  match state self with
  | IN_FIELD | QUOTE_IN_QUOTED_FIELD => field self = v
  | START_FIELD | START_RECORD =>
      field self = EmptyString /\ v = EmptyString
  | _ => False
  end.

(** No field of the reader holds a CR. *)
Definition clean (self : ReaderObj) : Prop :=
  Forall (fun f => no_CR f = true) (fields self)
  /\ no_CR (field self) = true.

Definition input_no_CR (i : input) : Prop :=
  match i with
  | Char c => (c =? CR)%char = false
  | EOL => True
  end.

(** Every [str] value of the dictionary is a field of the row. *)
Definition str_values_in (r : row) (d : dict) : Prop :=
  forall k s, In (k, VStr s) d -> In s r.

(** * Notions of the further properties *)

(** [d] has no key outside [fieldnames]: the test of
    [DictWriter._dict_to_list]. *)
Definition fits (fieldnames : list key) (d : dict) : bool :=
  forallb (fun k => existsb (key_eqb k) fieldnames) (keys d).

(** The row [DictWriter] writes for [d]: the value of every field name,
    the empty string where [d] has none. *)
Definition row_of (str_list : list string -> string)
  (fieldnames : list key) (d : dict) : row :=
  map (fun k => text_of str_list
                  match dict_get d k with
                  | Some v => v
                  | None => VStr EmptyString
                  end) fieldnames.

(** The ids are pairwise distinct and each is a number the counter [n]
    has reached. *)
Definition consistent (es : list Entry) (n : Z) : Prop :=
  NoDup (map e_id es)
  /\ Forall (fun e => exists k, e_id e = str k /\ (k <= n)%Z) es.

Definition same_files (w w' : World) : Prop :=
  finances_csv w' = finances_csv w /\ last_id_txt w' = last_id_txt w.

(** No [str] of the dictionary, as a value or inside a list value, holds
    a CR. *)
Definition dict_no_CR (d : dict) : Prop :=
  forall k v, In (k, v) d ->
    match v with
    | VStr s => no_CR s = true
    | VNone => True
    | VList l => Forall (fun s => no_CR s = true) l
    end.

(** Every [str] of the value is a field of the row. *)
Definition value_in (r : row) (v : value) : Prop :=
  match v with
  | VStr s => In s r
  | VNone => True
  | VList l => incl l r
  end.

Definition store_exists (w : World) : Prop := finances_csv w <> None.

(** On a world with a store, [m] leaves a store and does not raise
    [FileNotFoundError]. *)
Definition keeps_store {A} (m : M A) : Prop :=
  forall w, store_exists w ->
    store_exists (snd (m w)) /\ fst (m w) <> Raise FileNotFoundError.

(** [s] ends whatever the state, reads lines from the front of the input
    only, and keeps the store like [keeps_store]. *)
Definition runs {A} (s : session.S A) : Prop :=
  forall st, exists r st',
    s st = Some (r, st')
    /\ (length (session.stdin st') <= length (session.stdin st))%nat
    /\ (store_exists (session.world st) ->
        store_exists (session.world st')
        /\ r <> session.SRaise (session.Py FileNotFoundError)).

(** [s] ends on [st], and not with [FileNotFoundError] when [st] has a
    store. *)
Definition ends {A} (s : session.S A) (st : session.Session) : Prop :=
  exists r st',
    s st = Some (r, st')
    /\ (store_exists (session.world st) ->
        r <> session.SRaise (session.Py FileNotFoundError)).

(** [s] ends on every state with at most [b] lines to read. *)
Definition ends_within {A} (b : nat) (s : session.S A) : Prop :=
  forall st, (length (session.stdin st) <= b)%nat -> ends s st.

(** What the user types to look up the ids of [qs]: the choice 2 and
    the id, for each. *)
Definition find_script (qs : list string) : list string :=
  flat_map (fun q => ["2"; q]) qs.

(** A line that is none of the four choices of the menu. *)
Definition unknown_choice (c : string) : bool :=
  negb (existsb (String.eqb c) ["1"; "2"; "3"; "4"]).

(** One display of the menu, printed when the functions had printed [k]
    lines. *)
Definition menu (k : nat) : list (nat * session.main_line) :=
  [(k, session.MenuTitle); (k, session.MenuAdd); (k, session.MenuFind);
   (k, session.MenuEdit); (k, session.MenuExit)].

(** What the user types to add the records of [inputs]: the choice 1 and
    the five answers, for each. *)
Definition add_script (inputs : list Answers) : list string :=
  flat_map (fun i => ["1"; a_date i; a_type i; a_amount i; a_category i;
                      a_description i]) inputs.

(** * Example data *)

(** No list value occurs in the examples, so any rendering of lists will
    do for them. *)
Definition plain_str_list (l : list string) : string := EmptyString.

Definition eol : string := String LF EmptyString.
Definition cr : string := String CR EmptyString.
Definition dq : string := String quotechar EmptyString.

Definition jan : Entry :=
  {| e_id := "2"; e_date := "2024-01-01"; e_type := "income";
     e_amount := "100"; e_category := "salary"; e_description := "Jan" |}.

Definition feb : Entry :=
  {| e_id := "3"; e_date := "2024-02-01"; e_type := "expense";
     e_amount := "40"; e_category := "food"; e_description := "Feb" |}.

(** A second record with the id of [jan]. *)
Definition mar : Entry :=
  {| e_id := "2"; e_date := "2024-03-01"; e_type := "income";
     e_amount := "7"; e_category := "gift"; e_description := "Mar" |}.

(** A record with a CR in its description. *)
Definition cr_entry : Entry :=
  {| e_id := "2"; e_date := "2024-01-01"; e_type := "income";
     e_amount := "100"; e_category := "salary";
     e_description := String "J" (String CR "an") |}.

Definition no_files : World :=
  {| finances_csv := None; last_id_txt := None; stdout := [] |}.

(** The world after [check_and_create_file] on [no_files]. *)
Definition fresh_world : World :=
  {| finances_csv := Some (writerow headers); last_id_txt := None;
     stdout := [FileCreated] |}.

Definition example_world : World :=
  {| finances_csv := Some (store_text [jan; feb; mar]);
     last_id_txt := Some "3"; stdout := [] |}.


Definition example_inputs : list Answers :=
  [ {| a_date := "2024-01-01"; a_type := "income"; a_amount := "100";
       a_category := "salary"; a_description := "Jan" |};
    {| a_date := "2024-02-01"; a_type := "expense"; a_amount := "1,5";
       a_category := "food"; a_description := String "F" (String CR "eb") |} ].

(** A store with pairwise distinct ids and the counter at the highest. *)
Definition sound_world : World :=
  {| finances_csv := Some (store_text [jan; feb]);
     last_id_txt := Some "3"; stdout := [] |}.

(** The same store with a counter that has fallen behind. *)
Definition drifted_world : World :=
  {| finances_csv := Some (store_text [jan; feb]);
     last_id_txt := Some "1"; stdout := [] |}.

(** A store with a CR inside a field. *)
Definition cr_world : World :=
  {| finances_csv := Some (store_text [cr_entry]); last_id_txt := None;
     stdout := [] |}.

(** A store without an id column. *)
Definition no_id_world : World :=
  {| finances_csv := Some ("date,amount" ++ eol ++ "1,2" ++ eol);
     last_id_txt := None; stdout := [] |}.

Definition no_id_dict : dict :=
  [(Some "date", VStr "1"); (Some "amount", VStr "2")].

(** A dictionary with fewer keys than a record, and one with a key that
    no record has. *)
Definition short_dict : dict := [(Some "id", VStr "3")].

Definition wide_dict : dict := [(Some "id", VStr "4"); (Some "note", VStr "x")].

(** The user at the keyboard: five answers and the choice 4 typed ahead,
    and an input that ends after two answers. *)
Definition example_session : session.Session :=
  {| session.world := example_world;
     session.stdin := ["2024-04-01"; "expense"; "12"; "food"; "Apr"; "4"];
     session.main_out := [] |}.

Definition short_session : session.Session :=
  {| session.world := example_world;
     session.stdin := ["2024-04-01"; "expense"];
     session.main_out := [] |}.

(** A first run, in a directory without the two files, on the lines
    typed. *)
Definition first_run (lines : list string) : session.Session :=
  {| session.world := no_files; session.stdin := lines;
     session.main_out := [] |}.

Definition later_run (lines : list string) : session.Session :=
  {| session.world := example_world; session.stdin := lines;
     session.main_out := [] |}.

(** A file with a blank line, a long row, a short row and a quoted field
    that runs over two lines. *)
Definition ragged_text : string :=
  "id,date" ++ eol ++ eol ++ "1,2,3" ++ eol ++ "4" ++ eol
  ++ dq ++ "a" ++ eol ++ "b" ++ dq ++ ",c" ++ eol.

(** * The run time on small inputs *)

Example reader_ragged :
  reader (readlines (universal_newlines ragged_text)) =
  Ok [["id"; "date"]; []; ["1"; "2"; "3"]; ["4"];
      [String "a" (String LF "b"); "c"]].
Proof. reflexivity. Qed.

Example DictReader_ragged :
  DictReader [["id"; "date"]; []; ["1"; "2"; "3"]; ["4"]] =
  [ [(Some "id", VStr "1"); (Some "date", VStr "2"); (None, VList ["3"])];
    [(Some "id", VStr "4"); (Some "date", VNone)] ].
Proof. reflexivity. Qed.

(** Line breaks of every kind end a record; a quote inside an unquoted
    field is an ordinary character; a record cut short by the end of the
    file is returned. *)
Example reader_line_breaks :
  reader (readlines (universal_newlines
            ("a" ++ cr ++ eol ++ "b" ++ cr ++ "x" ++ dq ++ "y,z" ++ eol
             ++ dq ++ "abc"))) =
  Ok [["a"]; ["b"]; [String "x" (String quotechar "y"); "z"]; ["abc"]].
Proof. reflexivity. Qed.

Example writerow_quoting :
  writerow ["2"; String "a" (String CR "b"); EmptyString; "x,y";
            String "q" (String quotechar "q"); "z"] =
  "2," ++ dq ++ "a" ++ cr ++ "b" ++ dq ++ ",," ++ dq ++ "x,y" ++ dq ++ ","
  ++ dq ++ "q" ++ dq ++ dq ++ "q" ++ dq ++ ",z" ++ cr ++ eol.
Proof. reflexivity. Qed.

Example writerow_one_empty_field :
  writerow [EmptyString] = dq ++ dq ++ cr ++ eol.
Proof. reflexivity. Qed.

Example int_accepts :
  map int ["12"; " 12" ++ eol; "+12"; "-12"; "1_000"; "007"; "-0"] =
  [Some 12; Some 12; Some 12; Some (-12); Some 1000; Some 7; Some 0]%Z.
Proof. reflexivity. Qed.

Example int_rejects :
  map int [EmptyString; "+"; " "; "_1"; "1_"; "1__0"; "1 2"; "0x10";
           "1.0"; "- 1"; "--1"; "abc"] =
  [None; None; None; None; None; None; None; None; None; None; None; None].
Proof. reflexivity. Qed.

Example str_prints :
  map str [0; -5; 1000]%Z = ["0"; "-5"; "1000"].
Proof. reflexivity. Qed.

(** The session of the specification: two records are added to a fresh
    store, the first is found, its amount is edited, and an id that
    is not there is looked up. *)
Example session :
  let add1 := add_entry plain_str_list "2024-01-01" "income" "100"
                        "salary" "Jan" in
  let add2 := add_entry plain_str_list "2024-02-01" "expense" "40"
                        "food" "Feb" in
  let edit := edit_entry plain_str_list "2" EmptyString EmptyString "150"
                         EmptyString EmptyString in
  let w1 := snd (add1 fresh_world) in
  let w2 := snd (add2 w1) in
  let w3 := snd (edit w2) in
  fst (read_data w1) = Ok [entry_of jan]
  /\ fst (read_data w2) = Ok [entry_of jan; entry_of feb]
  /\ last_id_txt w2 = Some "3"
  /\ fst (search_by_id "2" w2) = Ok (Some (entry_of jan))
  /\ fst (read_data w3) =
     Ok [entry_of (edited jan EmptyString EmptyString "150" EmptyString
                     EmptyString); entry_of feb]
  /\ fst (search_by_id "99" w3) = Ok None.
Proof. vm_compute. repeat split. Qed.

(** * Facts about the run time *)

Lemma forall_chars_app p a b :
  forall_chars p (a ++ b) = forall_chars p a && forall_chars p b.
Proof.
  induction a as [|c a IH]; simpl; [reflexivity|].
  now rewrite IH, andb_assoc.
Qed.

Lemma forall_chars_impl (p q : ascii -> bool) s :
  (forall c, p c = true -> q c = true) ->
  forall_chars p s = true -> forall_chars q s = true.
Proof.
  intros Hpq; induction s as [|c s IH]; simpl; [reflexivity|].
  rewrite !andb_true_iff; intros [Hc Hs]; auto.
Qed.

Module builtins_facts.

(** Every character of a printed numeral is one of the ten digits. *)
Lemma string_of_uint_chars (p : ascii -> bool) (d : Decimal.uint) :
  forallb p decimal_digits = true ->
  forall_chars p (NilEmpty.string_of_uint d) = true.
Proof.
  intros H; unfold decimal_digits in H; simpl in H.
  repeat (apply andb_true_iff in H; destruct H as [? H]).
  induction d; simpl; try reflexivity; apply andb_true_iff; split; assumption.
Qed.

Lemma str_pos (q : positive) :
  str (Z.pos q) = NilEmpty.string_of_uint (Pos.to_uint q).
Proof.
  unfold str, NilZero.string_of_int, NilZero.string_of_uint; simpl Z.to_int.
  cbv iota. destruct (Pos.to_uint q) eqn:E; try reflexivity.
  exfalso; revert E; apply DecimalPos.Unsigned.to_uint_nonnil.
Qed.

Lemma str_neg (q : positive) :
  str (Z.neg q) = String "-" (NilEmpty.string_of_uint (Pos.to_uint q)).
Proof.
  unfold str, NilZero.string_of_int, NilZero.string_of_uint; simpl Z.to_int.
  cbv iota. destruct (Pos.to_uint q) eqn:E; try reflexivity.
  exfalso; revert E; apply DecimalPos.Unsigned.to_uint_nonnil.
Qed.

Lemma str_chars (p : ascii -> bool) (n : Z) :
  forallb p decimal_digits = true -> p "-"%char = true ->
  forall_chars p (str n) = true.
Proof.
  intros Hd Hm. destruct n as [|q|q].
  - apply (string_of_uint_chars p (Decimal.D0 Decimal.Nil) Hd).
  - rewrite str_pos. now apply string_of_uint_chars.
  - rewrite str_neg. simpl. rewrite Hm. now apply string_of_uint_chars.
Qed.

Lemma lstrip_id s :
  forall_chars (fun c => negb (isspace c)) s = true -> lstrip s = s.
Proof.
  destruct s as [|c s]; simpl; [reflexivity|].
  intros H; apply andb_true_iff in H; destruct H as [H _].
  apply negb_true_iff in H; now rewrite H.
Qed.

Lemma rstrip_id s :
  forall_chars (fun c => negb (isspace c)) s = true -> rstrip s = s.
Proof.
  induction s as [|c s IH]; simpl; [reflexivity|].
  intros H; apply andb_true_iff in H; destruct H as [Hc Hs].
  apply negb_true_iff in Hc; rewrite Hc, IH by assumption; reflexivity.
Qed.

Lemma digits_cons acc b c s :
  digits acc b (String c s) =
  match digit_of c with
  | Some d => digits (10 * acc + d) true s
  | None => if (c =? "_")%char && b then digits acc false s else None
  end.
Proof. reflexivity. Qed.

Lemma digits_uint (d : Decimal.uint) : forall acc b,
  digits acc b (NilEmpty.string_of_uint d) =
  match d with
  | Decimal.Nil => if b then Some acc else None
  | _ => Some (uint_val acc d)
  end.
Proof.
  induction d; intros acc b;
    [ reflexivity
    | cbn [NilEmpty.string_of_uint uint_val]; rewrite digits_cons;
      match goal with
      | |- context [digit_of ?c] =>
          let v := eval vm_compute in (digit_of c) in
          change (digit_of c) with v
      end;
      cbv iota; rewrite IHd; destruct d; reflexivity .. ].
Qed.

Lemma uint_val_pos (d : Decimal.uint) : forall acc : positive,
  uint_val (Z.pos acc) d = Z.pos (Pos.of_uint_acc d acc).
Proof.
  induction d; intros acc; cbn [uint_val Pos.of_uint_acc];
    [ reflexivity
    | rewrite <- IHd; f_equal; lia .. ].
Qed.

Lemma uint_val_zero (d : Decimal.uint) :
  uint_val 0 d = Z.of_N (Pos.of_uint d).
Proof.
  induction d; cbn [uint_val Pos.of_uint];
    [ reflexivity
    | change (10 * 0 + 0)%Z with 0%Z; assumption
    | match goal with
      | |- uint_val ?a _ = _ =>
          let v := eval vm_compute in a in change a with v
      end;
      rewrite uint_val_pos; reflexivity .. ].
Qed.

Lemma digits_to_uint (q : positive) :
  digits 0 false (NilEmpty.string_of_uint (Pos.to_uint q)) = Some (Z.pos q).
Proof.
  rewrite digits_uint.
  destruct (Pos.to_uint q) eqn:E;
    [ exfalso; revert E; apply DecimalPos.Unsigned.to_uint_nonnil
    | rewrite <- E, uint_val_zero, DecimalPos.Unsigned.of_to; reflexivity .. ].
Qed.

(** What [str] prints, [int] reads back. *)
Lemma int_str (n : Z) : int (str n) = Some n.
Proof.
  assert (Hsp : forall_chars (fun c => negb (isspace c)) (str n) = true)
    by (apply str_chars; reflexivity).
  unfold int. rewrite (lstrip_id _ Hsp), (rstrip_id _ Hsp). clear Hsp.
  destruct n as [|q|q]; [reflexivity | | ].
  - rewrite str_pos. pose proof (digits_to_uint q) as H.
    destruct (Pos.to_uint q);
      [ discriminate H
      | cbn [NilEmpty.string_of_uint] in *;
        match goal with
        | |- context [(?c =? "+")%char] =>
            change (c =? "+")%char with false;
            change (c =? "-")%char with false
        end; cbv iota; exact H .. ].
  - rewrite str_neg.
    change ("-" =? "+")%char with false. change ("-" =? "-")%char with true.
    cbv iota. rewrite digits_to_uint; reflexivity.
Qed.

(** *** Numerals of the counter file *)

Lemma digit_char c :
  isdigit c = true ->
  isspace c = false /\ is_newline c = false /\
  (c =? "+")%char = false /\ (c =? "-")%char = false.
Proof.
  destruct c as [[] [] [] [] [] [] [] []]; vm_compute; intros H;
    try discriminate H; repeat split; reflexivity.
Qed.

Lemma decimal_value_digits s : forall acc v,
  decimal_value acc s = Some v -> forall_chars isdigit s = true.
Proof.
  induction s as [|c s IH]; intros acc v; simpl; [reflexivity|].
  unfold isdigit at 1. destruct (digit_of c); [|discriminate].
  intros H. simpl. now apply IH in H.
Qed.

Lemma digits_decimal s : forall acc b v,
  s <> EmptyString -> decimal_value acc s = Some v -> digits acc b s = Some v.
Proof.
  induction s as [|c s IH]; intros acc b v Hs; [congruence|].
  simpl. destruct (digit_of c) as [d|]; [|discriminate].
  destruct s as [|c' s']; [trivial|].
  apply IH. discriminate.
Qed.

Lemma lstrip_first c s : isspace c = false -> lstrip (String c s) = String c s.
Proof. intros H. simpl. now rewrite H. Qed.

Lemma rstrip_app_LF s :
  forall_chars (fun c => negb (isspace c)) s = true ->
  rstrip (s ++ String LF EmptyString) = s.
Proof.
  induction s as [|c s IH]; [reflexivity|]. simpl.
  intros H. apply andb_true_iff in H. destruct H as [Hc Hs].
  apply negb_true_iff in Hc. now rewrite IH, Hc.
Qed.

Lemma digits_no_space s :
  forall_chars isdigit s = true ->
  forall_chars (fun c => negb (isspace c)) s = true.
Proof.
  apply forall_chars_impl. intros c H. apply digit_char in H.
  destruct H as [-> _]. reflexivity.
Qed.

Lemma digits_no_newline s : forall_chars isdigit s = true -> no_newline s = true.
Proof.
  apply forall_chars_impl. intros c H. apply digit_char in H.
  destruct H as (_ & -> & _). reflexivity.
Qed.

(** A numeral with or without a line break after it is stripped to the
    numeral. *)
Lemma strip_numeral c s (last : string) :
  isspace c = false ->
  forall_chars (fun c => negb (isspace c)) s = true ->
  last = EmptyString \/ last = String LF EmptyString ->
  rstrip (lstrip (String c s ++ last)) = String c s.
Proof.
  intros Hc Hs Hl. simpl append. rewrite lstrip_first by assumption.
  assert (H : forall_chars (fun c => negb (isspace c)) (String c s) = true)
    by (simpl; now rewrite Hc).
  destruct Hl as [-> | ->].
  - change (rstrip (String c s ++ EmptyString) = String c s).
    replace (String c s ++ EmptyString) with (String c s)
      by (clear; induction (String c s); simpl; congruence).
    now apply rstrip_id.
  - now apply (rstrip_app_LF (String c s)).
Qed.

(** [int] reads a base-10 integer, also with a line break after it. *)
Lemma int_base10 s n (last : string) :
  base10 s = Some n ->
  last = EmptyString \/ last = String LF EmptyString ->
  int (s ++ last) = Some n.
Proof.
  destruct s as [|c s]; [discriminate|]. unfold base10.
  destruct (Ascii.eqb_spec c "-") as [->|Hm].
  - destruct s as [|c' s']; [discriminate|]. simpl is_empty. cbv iota.
    destruct (decimal_value 0 (String c' s')) as [v|] eqn:E; [|discriminate].
    intros H Hl. inversion H; subst. unfold int.
    rewrite strip_numeral;
      [ | reflexivity
        | apply digits_no_space; now apply decimal_value_digits in E
        | assumption ].
    change ("-" =? "+")%char with false. change ("-" =? "-")%char with true.
    cbv iota.
    assert (Hne : String c' s' <> EmptyString) by discriminate.
    rewrite (digits_decimal _ 0%Z false v Hne E). reflexivity.
  - intros E Hl. pose proof (decimal_value_digits _ _ _ E) as Hd.
    simpl in Hd. apply andb_true_iff in Hd. destruct Hd as [Hc Hs].
    pose proof (digit_char _ Hc) as (Hsp & _ & Hplus & Hminus).
    unfold int. rewrite strip_numeral;
      [ | assumption | now apply digits_no_space | assumption ].
    rewrite Hplus, Hminus.
    apply digits_decimal; [discriminate|assumption].
Qed.

Lemma base10_no_newline s n : base10 s = Some n -> no_newline s = true.
Proof.
  destruct s as [|c s]; [discriminate|]. unfold base10.
  destruct (Ascii.eqb_spec c "-") as [->|Hm].
  - destruct (is_empty s); [discriminate|].
    destruct (decimal_value 0 s) eqn:E; [|discriminate]. intros _.
    apply decimal_value_digits, digits_no_newline in E.
    unfold no_newline in *. simpl. exact E.
  - intros E. now apply decimal_value_digits, digits_no_newline in E.
Qed.

End builtins_facts.


(** ** The reader on what the writer wrote *)
Module csv_facts.

Lemma readlines_nil t : readlines t = [] -> t = EmptyString.
Proof.
  destruct t as [|c t]; [reflexivity|]. simpl.
  destruct (c =? LF)%char; [discriminate|].
  destruct (readlines t); discriminate.
Qed.

Lemma run_char self c t :
  c <> LF -> t <> EmptyString ->
  run self (String c t) =
  match parse_process_char self (Char c) with
  | Ok self' => run self' t
  | Raise e => Raise e
  end.
Proof.
  intros Hc Ht. unfold run. simpl readlines.
  destruct (Ascii.eqb_spec c LF) as [E|_]; [contradiction|].
  destruct (readlines t) as [|l ls] eqn:El.
  - apply readlines_nil in El; contradiction.
  - simpl. destruct (parse_process_char self (Char c)); reflexivity.
Qed.

Lemma run_LF self t :
  run self (String LF t) =
  match parse_process_char self (Char LF) with
  | Raise e => Raise e
  | Ok s1 =>
      match parse_process_char s1 EOL with
      | Raise e => Raise e
      | Ok s2 =>
          if ParserState_eqb (state s2) START_RECORD
          then emit (fields s2) (run parse_reset t)
          else run s2 t
      end
  end.
Proof.
  unfold run. simpl readlines. change (LF =? LF)%char with true. cbv iota.
  simpl reader_from.
  destruct (parse_process_char self (Char LF)) as [s1|e]; [|reflexivity].
  destruct (parse_process_char s1 EOL) as [s2|e]; reflexivity.
Qed.

Lemma run_end self :
  run self EmptyString =
  if negb (is_empty (field self))
     || ParserState_eqb (state self) IN_QUOTED_FIELD
  then Ok [(fields self ++ [field self])%list]
  else Ok [].
Proof. reflexivity. Qed.

(** *** Universal newlines, piecewise *)

Lemma translate_plain b c s :
  is_newline c = false -> translate b (String c s) = String c (translate false s).
Proof.
  unfold is_newline. intros H. apply orb_false_iff in H. destruct H as [H1 H2].
  simpl. now rewrite H1, H2.
Qed.

Lemma translate_CR b s :
  translate b (String CR s) = String LF (translate true s).
Proof. reflexivity. Qed.

Lemma translate_LF b s :
  translate b (String LF s) =
  if b then translate false s else String LF (translate false s).
Proof. reflexivity. Qed.

Lemma translate_nonempty b x c t :
  c <> LF -> translate b (x ++ String c t) <> EmptyString.
Proof.
  intros Hc. revert b. induction x as [|a x IH]; intros b; simpl.
  - destruct (c =? CR)%char; [discriminate|].
    destruct (Ascii.eqb_spec c LF); [contradiction|discriminate].
  - destruct (a =? CR)%char; [discriminate|].
    destruct (a =? LF)%char; [|discriminate].
    destruct b; [apply IH|discriminate].
Qed.

Lemma translate_id b s : no_newline s = true -> translate b s = s.
Proof.
  revert b. induction s as [|c s IH]; intros b; simpl; [reflexivity|].
  intros H. apply andb_true_iff in H. destruct H as [Hc Hs].
  apply negb_true_iff in Hc. unfold is_newline in Hc.
  apply orb_false_iff in Hc. destruct Hc as [H1 H2].
  rewrite H1, H2, IH by assumption. reflexivity.
Qed.

Lemma translate_no_newline_app s t :
  no_newline s = true -> translate false (s ++ t) = s ++ translate false t.
Proof.
  unfold no_newline. induction s as [|c s IH]; simpl append; [reflexivity|].
  intros H. simpl in H. apply andb_true_iff in H. destruct H as [Hc Hs].
  apply negb_true_iff in Hc. rewrite translate_plain by assumption.
  now rewrite IH.
Qed.

Lemma translate_no_CR b s : no_CR (translate b s) = true.
Proof.
  unfold no_CR. revert b. induction s as [|c s IH]; intros b; simpl; [reflexivity|].
  destruct (Ascii.eqb_spec c CR) as [->|Hc]; [simpl; apply IH|].
  destruct (Ascii.eqb_spec c LF) as [->|Hl].
  - destruct b; simpl; apply IH.
  - simpl. rewrite IH. apply Ascii.eqb_neq in Hc. now rewrite Hc.
Qed.

Lemma translate_fix s : no_CR s = true -> translate false s = s.
Proof.
  unfold no_CR. induction s as [|c s IH]; simpl; [reflexivity|].
  intros H. apply andb_true_iff in H. destruct H as [Hc Hs].
  apply negb_true_iff in Hc. rewrite Hc, IH by assumption.
  destruct (c =? LF)%char eqn:E; [|reflexivity].
  apply Ascii.eqb_eq in E. now subst.
Qed.

Lemma translate_false_nonempty t :
  t <> EmptyString -> translate false t <> EmptyString.
Proof.
  destruct t as [|c t]; [congruence|]. intros _. simpl.
  destruct (c =? CR)%char; [discriminate|].
  destruct (c =? LF)%char; discriminate.
Qed.

Lemma append_assoc (a b c : string) : (a ++ b) ++ c = a ++ (b ++ c).
Proof. induction a as [|x a IH]; simpl; [reflexivity|now rewrite IH]. Qed.

Lemma append_empty_r (a : string) : a ++ EmptyString = a.
Proof. induction a as [|x a IH]; simpl; [reflexivity|now rewrite IH]. Qed.

(** *** One field *)

Lemma special_false c :
  special c = false ->
  (c =? delimiter)%char = false /\ (c =? quotechar)%char = false /\
  (c =? CR)%char = false /\ (c =? LF)%char = false.
Proof.
  unfold special. rewrite !orb_false_iff. tauto.
Qed.

Lemma special_newline c : special c = false -> is_newline c = false.
Proof.
  intros H. apply special_false in H. destruct H as (_ & _ & H1 & H2).
  unfold is_newline. now rewrite H1, H2.
Qed.

Lemma want_quote_no_newline f : want_quote f = false -> no_newline f = true.
Proof.
  unfold no_newline. induction f as [|c f IH]; simpl; [reflexivity|].
  intros H. apply orb_false_iff in H. destruct H as [Hc Hf].
  now rewrite (special_newline _ Hc), IH.
Qed.

Lemma copy_data_plain f : want_quote f = false -> copy_data f = f.
Proof.
  induction f as [|c f IH]; simpl; [reflexivity|].
  intros H. apply orb_false_iff in H. destruct H as [Hc Hf].
  apply special_false in Hc. destruct Hc as (_ & -> & _).
  now rewrite IH.
Qed.

Lemma neq_LF c : (c =? LF)%char = false -> c <> LF.
Proof. intros H. now apply Ascii.eqb_neq. Qed.

(** A line break inside quotes belongs to the field, and the record goes
    on with the next line. *)
Lemma run_LF_quoted fs fd t :
  run {| state := IN_QUOTED_FIELD; fields := fs; field := fd |} (String LF t) =
  run {| state := IN_QUOTED_FIELD; fields := fs;
         field := fd ++ String LF EmptyString |} t.
Proof. rewrite run_LF. reflexivity. Qed.

(** Inside quotes: the characters of the field, newlines translated, until
    the closing quote. *)
Lemma run_quoted_body f : forall b fs fd t,
  run {| state := IN_QUOTED_FIELD; fields := fs; field := fd |}
      (translate b (copy_data f ++ String quotechar t)) =
  run {| state := IN_QUOTED_FIELD; fields := fs;
         field := fd ++ translate b f |}
      (String quotechar (translate false t)).
Proof.
  induction f as [|c f IH]; intros b fs fd t.
  - simpl copy_data. simpl append. rewrite translate_plain by reflexivity.
    simpl translate. now rewrite append_empty_r.
  - destruct (Ascii.eqb_spec c quotechar) as [->|Hq].
    + change (copy_data (String quotechar f))
        with (String quotechar (String quotechar (copy_data f))).
      simpl append. rewrite !translate_plain by reflexivity.
      rewrite run_char by (try discriminate).
      change (parse_process_char
                {| state := IN_QUOTED_FIELD; fields := fs; field := fd |}
                (Char quotechar))
        with (Ok {| state := QUOTE_IN_QUOTED_FIELD; fields := fs;
                    field := fd |}).
      cbv iota. rewrite run_char;
        [|discriminate|apply translate_nonempty; discriminate].
      change (parse_process_char
                {| state := QUOTE_IN_QUOTED_FIELD; fields := fs;
                   field := fd |} (Char quotechar))
        with (Ok {| state := IN_QUOTED_FIELD; fields := fs;
                    field := fd ++ String quotechar EmptyString |}).
      cbv iota. rewrite IH, append_assoc. reflexivity.
    + apply Ascii.eqb_neq in Hq.
      assert (Hstep : parse_process_char
                {| state := IN_QUOTED_FIELD; fields := fs; field := fd |}
                (Char c)
              = Ok {| state := IN_QUOTED_FIELD; fields := fs;
                      field := fd ++ String c EmptyString |}).
      { unfold parse_process_char. simpl state. now rewrite Hq. }
      assert (Hcopy : copy_data (String c f) = String c (copy_data f)).
      { simpl. now rewrite Hq. }
      rewrite Hcopy. simpl append.
      destruct (Ascii.eqb_spec c CR) as [->|Hcr].
      * rewrite !translate_CR. rewrite run_LF_quoted.
        rewrite IH, append_assoc. reflexivity.
      * destruct (Ascii.eqb_spec c LF) as [->|Hlf].
        -- rewrite !translate_LF. destruct b.
           ++ apply IH.
           ++ rewrite run_LF_quoted.
              rewrite IH, append_assoc. reflexivity.
        -- assert (Hn : is_newline c = false).
           { unfold is_newline. apply Ascii.eqb_neq in Hcr, Hlf.
             now rewrite Hcr, Hlf. }
           rewrite !translate_plain by assumption.
           rewrite run_char;
             [|assumption|apply translate_nonempty; discriminate].
           rewrite Hstep. rewrite IH, append_assoc. reflexivity.
Qed.

(** Outside quotes: plain characters, up to a delimiter or a line break. *)
Lemma run_plain_body f : forall fs fd t,
  want_quote f = false -> t <> EmptyString ->
  run {| state := IN_FIELD; fields := fs; field := fd |} (f ++ t) =
  run {| state := IN_FIELD; fields := fs; field := fd ++ f |} t.
Proof.
  induction f as [|c f IH]; intros fs fd t Hf Ht.
  - simpl append. now rewrite append_empty_r.
  - simpl in Hf. apply orb_false_iff in Hf. destruct Hf as [Hc Hf].
    pose proof (special_newline _ Hc) as Hn.
    apply special_false in Hc. destruct Hc as (Hd & Hq & Hcr & Hlf).
    simpl append. rewrite run_char.
    + unfold parse_process_char at 1. simpl state. rewrite Hn, Hd.
      unfold parse_add_char. simpl fields. simpl field.
      rewrite IH by assumption. now rewrite append_assoc.
    + now apply neq_LF.
    + destruct f; [assumption|discriminate].
Qed.

Lemma translate_plain_app f t :
  want_quote f = false -> translate false (f ++ t) = f ++ translate false t.
Proof.
  induction f as [|c f IH]; simpl append; [reflexivity|].
  intros H. simpl in H. apply orb_false_iff in H. destruct H as [Hc Hf].
  rewrite translate_plain by now apply special_newline.
  now rewrite IH.
Qed.

Lemma pending_delimiter self v :
  pending self v ->
  parse_process_char self (Char delimiter) =
  Ok {| state := START_FIELD; fields := (fields self ++ [v])%list;
        field := EmptyString |}.
Proof.
  unfold pending, parse_process_char.
  destruct self as [st fs fd]; simpl.
  destruct st; simpl; intros H; try contradiction;
    [ destruct H as [-> ->] | destruct H as [-> ->] | subst | subst ];
    reflexivity.
Qed.

Lemma pending_newline self v :
  pending self v -> state self <> START_RECORD ->
  parse_process_char self (Char LF) =
  Ok {| state := EAT_CRNL; fields := (fields self ++ [v])%list;
        field := EmptyString |}.
Proof.
  unfold pending, parse_process_char.
  destruct self as [st fs fd]; simpl.
  destruct st; simpl; intros H Hs; try contradiction; try congruence;
    [ destruct H as [-> ->] | subst | subst ]; reflexivity.
Qed.

Lemma join_append_false f :
  join_append f false =
  if want_quote f
  then String quotechar (copy_data f ++ String quotechar EmptyString)
  else f.
Proof.
  unfold join_append. simpl orb.
  destruct (want_quote f) eqn:E; [reflexivity|now apply copy_data_plain].
Qed.

Lemma run_field st0 fs f t :
  st0 = START_RECORD \/ st0 = START_FIELD -> t <> EmptyString ->
  exists self',
    run {| state := st0; fields := fs; field := EmptyString |}
        (translate false (join_append f false ++ t)) =
    run self' (translate false t)
    /\ pending self' (nl f) /\ fields self' = fs
    /\ (state self' = START_RECORD -> st0 = START_RECORD /\ f = EmptyString).
Proof.
  intros Hst Ht. rewrite join_append_false.
  destruct (want_quote f) eqn:Hw.
  - exists {| state := QUOTE_IN_QUOTED_FIELD; fields := fs; field := nl f |}.
    split; [|split; [reflexivity|split; [reflexivity|discriminate]]].
    simpl append. rewrite append_assoc. simpl append.
    rewrite translate_plain by reflexivity.
    rewrite run_char;
      [|discriminate|apply translate_nonempty; discriminate].
    assert (Hopen : parse_process_char
              {| state := st0; fields := fs; field := EmptyString |}
              (Char quotechar)
            = Ok {| state := IN_QUOTED_FIELD; fields := fs;
                    field := EmptyString |})
      by (destruct Hst as [-> | ->]; reflexivity).
    rewrite Hopen, run_quoted_body. simpl append.
    rewrite run_char;
      [|discriminate|now apply translate_false_nonempty].
    reflexivity.
  - destruct f as [|c f].
    + exists {| state := st0; fields := fs; field := EmptyString |}.
      split; [reflexivity|]. split; [|split; [reflexivity|]].
      * unfold pending. simpl. destruct Hst as [-> | ->]; now split.
      * simpl. intros ->. destruct Hst; [now split|discriminate].
    + exists {| state := IN_FIELD; fields := fs; field := String c f |}.
      split; [|split; [|split; [reflexivity|discriminate]]].
      * pose proof Hw as Hw'. simpl in Hw'. apply orb_false_iff in Hw'.
        destruct Hw' as [Hc Hf].
        pose proof (special_newline _ Hc) as Hn.
        apply special_false in Hc. destruct Hc as (Hd & Hq & Hcr & Hlf).
        simpl append. rewrite translate_plain by assumption.
        rewrite translate_plain_app by assumption.
        rewrite run_char.
        -- assert (Hfirst : parse_process_char
                     {| state := st0; fields := fs; field := EmptyString |}
                     (Char c)
                   = Ok {| state := IN_FIELD; fields := fs;
                           field := String c EmptyString |}).
           { unfold parse_process_char, start_field.
             destruct Hst as [-> | ->]; simpl state; rewrite Hn, Hq, Hd;
               try rewrite Hn; reflexivity. }
           rewrite Hfirst, run_plain_body;
             [reflexivity|assumption|now apply translate_false_nonempty].
        -- now apply neq_LF.
        -- destruct f; simpl; [now apply translate_false_nonempty|discriminate].
      * unfold pending, nl, universal_newlines. simpl state. simpl field.
        symmetry. apply translate_id. now apply want_quote_no_newline.
Qed.

(** *** One record, then a whole file *)

Lemma join_false_nonempty gs rest :
  join false gs ++ lineterminator ++ rest <> EmptyString.
Proof. destruct gs; discriminate. Qed.

(** The fields after the first, then the line terminator. *)
Lemma run_rest gs : forall self v rest,
  pending self v -> (gs = [] -> state self <> START_RECORD) ->
  run self (translate false (join false gs ++ lineterminator ++ rest)) =
  emit (fields self ++ [v] ++ map nl gs)%list
       (run parse_reset (translate false rest)).
Proof.
  induction gs as [|g gs IH]; intros self v rest Hp Hs.
  - simpl join. simpl append. rewrite translate_CR, translate_LF.
    rewrite run_LF, (pending_newline _ _ Hp (Hs eq_refl)).
    reflexivity.
  - change (join false (g :: gs))
      with (String delimiter EmptyString
            ++ join_append g false ++ join false gs).
    simpl append. rewrite append_assoc.
    rewrite translate_plain by reflexivity.
    rewrite run_char;
      [ | discriminate
        | apply translate_false_nonempty;
          destruct (join_append g false);
          [apply join_false_nonempty | discriminate] ].
    rewrite (pending_delimiter _ _ Hp).
    change (String CR (String LF rest)) with (lineterminator ++ rest).
    destruct (run_field START_FIELD (fields self ++ [v])%list g
                (join false gs ++ lineterminator ++ rest))
      as (self' & Hrun & Hp' & Hfs & Hst);
      [now right | apply join_false_nonempty |].
    rewrite Hrun, (IH self' (nl g) rest Hp').
    + rewrite Hfs. simpl map. rewrite <- !app_assoc. reflexivity.
    + intros _ E. apply Hst in E. destruct E; discriminate.
Qed.

Lemma join_append_empty f : join_append f false = EmptyString -> f = EmptyString.
Proof.
  rewrite join_append_false. destruct (want_quote f); [discriminate|auto].
Qed.

(** A record written by [writerow] is read back as one record, every
    field with its newlines translated. *)
Lemma run_writerow fs rest :
  run parse_reset (translate false (writerow fs ++ rest)) =
  emit (map nl fs) (run parse_reset (translate false rest)).
Proof.
  unfold writerow. destruct fs as [|f gs].
  - simpl. rewrite run_LF. reflexivity.
  - change (join true (f :: gs))
      with (EmptyString ++ join_append f false ++ join false gs).
    simpl append at 1.
    destruct (is_empty (join_append f false ++ join false gs)) eqn:E.
    + assert (Hf : join_append f false = EmptyString)
        by (destruct (join_append f false); [reflexivity|discriminate]).
      rewrite Hf in E. simpl in E.
      assert (Hg : gs = []) by (destruct gs; [reflexivity|discriminate]).
      apply join_append_empty in Hf. subst f gs.
      unfold join_append. simpl orb. cbv iota. simpl copy_data.
      simpl append. rewrite !translate_plain by reflexivity.
      rewrite translate_CR, translate_LF.
      rewrite run_char by discriminate.
      change (parse_process_char parse_reset (Char quotechar))
        with (Ok {| state := IN_QUOTED_FIELD; fields := [];
                    field := EmptyString |}).
      cbv iota. rewrite run_char by discriminate.
      change (parse_process_char
                {| state := IN_QUOTED_FIELD; fields := [];
                   field := EmptyString |} (Char quotechar))
        with (Ok {| state := QUOTE_IN_QUOTED_FIELD; fields := [];
                    field := EmptyString |}).
      cbv iota. rewrite run_LF. reflexivity.
    + rewrite !append_assoc.
      destruct (run_field START_RECORD [] f
                  (join false gs ++ lineterminator ++ rest))
        as (self' & Hrun & Hp' & Hfs & Hst);
        [now left | apply join_false_nonempty |].
      unfold parse_reset. rewrite Hrun, (run_rest gs self' (nl f) rest Hp').
      * rewrite Hfs. reflexivity.
      * intros -> Hs. apply Hst in Hs. destruct Hs as [_ ->].
        discriminate E.
Qed.

Theorem reader_writerows (rows : list row) :
  reader (readlines (universal_newlines (writerows_text rows))) =
  Ok (map (map nl) rows).
Proof.
  change (run parse_reset (translate false (writerows_text rows))
          = Ok (map (map nl) rows)).
  induction rows as [|r rows IH]; [reflexivity|].
  simpl writerows_text. rewrite run_writerow, IH. reflexivity.
Qed.

(** *** No CR comes out of a file read with universal newlines *)

Lemma clean_add_char self c st :
  clean self -> (c =? CR)%char = false -> clean (parse_add_char self c st).
Proof.
  intros [Hfs Hf] Hc. split; [exact Hfs|]. simpl. unfold no_CR in *.
  rewrite forall_chars_app, Hf. simpl. now rewrite Hc.
Qed.

Lemma clean_save_field self st : clean self -> clean (parse_save_field self st).
Proof.
  intros [Hfs Hf]. split; [|reflexivity]. simpl.
  apply Forall_app. split; [exact Hfs|]. now constructor.
Qed.

Lemma clean_set_state self st : clean self -> clean (set_state self st).
Proof. intros [Hfs Hf]. split; assumption. Qed.

Lemma parse_process_char_clean self i self' :
  clean self -> input_no_CR i ->
  parse_process_char self i = Ok self' -> clean self'.
Proof.
  intros Hc Hi. unfold parse_process_char, start_field.
  destruct (state self); destruct i as [c|]; simpl in Hi;
    repeat match goal with
           | |- context [if ?b then _ else _] => destruct b
           end;
    intros H; inversion H; subst;
    auto using clean_add_char, clean_save_field, clean_set_state.
Qed.

Lemma parse_line_clean line : forall self self',
  clean self -> no_CR line = true ->
  parse_line self line = Ok self' -> clean self'.
Proof.
  induction line as [|c line IH]; intros self self' Hc Hl; simpl.
  - now apply parse_process_char_clean.
  - unfold no_CR in Hl. simpl in Hl. apply andb_true_iff in Hl.
    destruct Hl as [Hch Hl]. apply negb_true_iff in Hch.
    destruct (parse_process_char self (Char c)) as [s1|] eqn:E;
      [|discriminate].
    apply IH; [|exact Hl].
    now apply (parse_process_char_clean self (Char c)).
Qed.

Lemma readlines_no_CR t :
  no_CR t = true -> Forall (fun l => no_CR l = true) (readlines t).
Proof.
  unfold no_CR. induction t as [|c t IH]; simpl; [constructor|].
  intros H. apply andb_true_iff in H. destruct H as [Hc Ht].
  specialize (IH Ht). destruct (c =? LF)%char.
  - constructor; [simpl; now rewrite Hc|exact IH].
  - destruct (readlines t) as [|l ls].
    + constructor; [simpl; now rewrite Hc|constructor].
    + inversion IH; subst. constructor; [simpl|assumption].
      rewrite Hc. assumption.
Qed.

Lemma clean_reset : clean parse_reset.
Proof. split; [constructor|reflexivity]. Qed.

Lemma reader_from_no_CR lines : forall self rows,
  clean self -> Forall (fun l => no_CR l = true) lines ->
  reader_from self lines = Ok rows ->
  Forall (Forall (fun f => no_CR f = true)) rows.
Proof.
  induction lines as [|l lines IH]; intros self rows Hc Hl; simpl.
  - destruct Hc as [Hfs Hf].
    destruct (_ || _); intros H; inversion H; subst; constructor;
      [|constructor].
    apply Forall_app. split; [exact Hfs|]. now constructor.
  - inversion Hl; subst.
    destruct (parse_line self l) as [s1|] eqn:E; [|discriminate].
    assert (Hc1 : clean s1) by now apply (parse_line_clean l self).
    destruct (ParserState_eqb (state s1) START_RECORD).
    + destruct (reader_from parse_reset lines) as [rs|] eqn:Er;
        [|discriminate].
      intros H; inversion H; subst. constructor; [apply Hc1|].
      now apply (IH parse_reset rs clean_reset).
    + now apply IH.
Qed.

Theorem reader_no_CR s rows :
  reader (readlines (universal_newlines s)) = Ok rows ->
  Forall (Forall (fun f => no_CR f = true)) rows.
Proof.
  apply reader_from_no_CR; [apply clean_reset|].
  apply readlines_no_CR, translate_no_CR.
Qed.

(** The [str] values of a dictionary made from a row are fields of it. *)
Lemma dict_set_In d : forall k v k' v',
  In (k', v') (dict_set d k v) -> (k', v') = (k, v) \/ In (k', v') d.
Proof.
  induction d as [|[k0 v0] d IH]; intros k v k' v'; simpl.
  - intros [H|[]]; left; now symmetry.
  - destruct (key_eqb k0 k); simpl.
    + intros [H|H]; [left; now symmetry|right; now right].
    + intros [H|H]; [right; now left|].
      apply IH in H. destruct H; [now left|right; now right].
Qed.

Lemma fold_set_str r kvs : forall d,
  str_values_in r d -> (forall kv, In kv kvs -> In (snd kv) r) ->
  str_values_in r
    (fold_left (fun d kv => dict_set d (Some (fst kv)) (VStr (snd kv)))
               kvs d).
Proof.
  induction kvs as [|kv kvs IH]; intros d Hd Hk; simpl; [exact Hd|].
  apply IH.
  - intros k s H. apply dict_set_In in H. destruct H as [H|H].
    + inversion H; subst. apply Hk. now left.
    + now apply (Hd k).
  - intros kv' H. apply Hk. now right.
Qed.

Lemma fold_set_none r ks : forall d,
  str_values_in r d ->
  str_values_in r (fold_left (fun d k => dict_set d (Some k) VNone) ks d).
Proof.
  induction ks as [|k0 ks IH]; intros d Hd; simpl; [exact Hd|].
  apply IH. intros k s H. apply dict_set_In in H. destruct H as [H|H].
  - discriminate H.
  - now apply (Hd k).
Qed.

Lemma DictReader_next_values_in fieldnames r :
  str_values_in r (DictReader_next fieldnames r).
Proof.
  unfold DictReader_next.
  assert (H0 : str_values_in r
            (fold_left
               (fun d kv => dict_set d (Some (fst kv)) (VStr (snd kv)))
               (combine fieldnames r) [])).
  { apply fold_set_str; [intros k s []|].
    intros [a b] H. simpl. now apply in_combine_r in H. }
  destruct (_ <? _)%nat.
  - intros k s H. apply dict_set_In in H. destruct H as [H|H].
    + discriminate H.
    + now apply (H0 k).
  - now apply fold_set_none.
Qed.

End csv_facts.




(** ** The store file *)
Section main_facts.

Variable str_list : list string -> string.

Lemma set_content_twice p a b w :
  set_content p b (set_content p a w) = set_content p b w.
Proof. destruct p; reflexivity. Qed.

Lemma content_set p a w : content p (set_content p a w) = Some a.
Proof. destruct p; reflexivity. Qed.

Lemma read_data_world w r w' : read_data w = (r, w') -> w' = w.
Proof.
  unfold read_data, bind, read_text, lift, ret.
  destruct (content data_file w); [|now inversion 1].
  destruct (reader _); now inversion 1.
Qed.

Lemma nl_headers : map nl headers = headers.
Proof. reflexivity. Qed.

Lemma DictReader_next_values e :
  DictReader_next headers (map nl (values e)) = entry_of (nl_entry e).
Proof. reflexivity. Qed.

Lemma DictReader_rows es :
  DictReader (map (map nl) (headers :: map values es)) =
  map entry_of (map nl_entry es).
Proof.
  change (map (map nl) (headers :: map values es))
    with (map nl headers :: map (map nl) (map values es)).
  rewrite nl_headers. unfold DictReader.
  induction es as [|e es IH]; [reflexivity|].
  change (map (map nl) (map values (e :: es)))
    with (map nl (values e) :: map (map nl) (map values es)).
  simpl filter. simpl map. rewrite IH. reflexivity.
Qed.

(** Loading a written store: the records, fields through universal
    newlines. *)
Lemma read_data_store_text w es :
  finances_csv w = Some (store_text es) ->
  read_data w = (Ok (map entry_of (map nl_entry es)), w).
Proof.
  intros Hf. unfold read_data, bind, read_text, lift, ret. simpl content.
  rewrite Hf. unfold store_text.
  rewrite csv_facts.reader_writerows, DictReader_rows. reflexivity.
Qed.

Lemma _dict_to_list_entry e0 e :
  _dict_to_list (keys (entry_of e0)) (entry_of e) = Ok (map VStr (values e)).
Proof. reflexivity. Qed.

Lemma writerows_entries e0 es : forall w old,
  content data_file w = Some old ->
  writerows str_list (keys (entry_of e0)) (map entry_of es) w =
  (Ok tt, set_content data_file (old ++ writerows_text (map values es)) w).
Proof.
  induction es as [|e es IH]; intros w old Hw.
  - simpl. unfold ret. rewrite csv_facts.append_empty_r.
    destruct w; simpl in *; now rewrite Hw.
  - simpl map. cbn [writerows]. unfold bind at 1.
    rewrite _dict_to_list_entry. unfold lift. unfold bind at 1.
    unfold write at 1. rewrite Hw.
    rewrite (IH _ (old ++ writerow (values e))).
    + rewrite set_content_twice. simpl writerows_text.
      rewrite csv_facts.append_assoc. reflexivity.
    + now rewrite content_set.
Qed.

(** Saving a non-empty sequence of records: the store becomes its text. *)
Lemma write_data_entries e0 es w :
  write_data str_list (map entry_of (e0 :: es)) w =
  (Ok tt, set_content data_file (store_text (e0 :: es)) w).
Proof.
  unfold write_data. unfold bind at 1. unfold open_w.
  simpl map at 1. unfold bind at 1. unfold lift at 1.
  unfold bind at 1. unfold write at 1. rewrite content_set.
  rewrite set_content_twice.
  change (map entry_of (e0 :: es)) with (map entry_of (e0 :: es)).
  rewrite (writerows_entries e0 (e0 :: es) _
             (EmptyString ++ header str_list (keys (entry_of e0)))).
  - rewrite set_content_twice. reflexivity.
  - now rewrite content_set.
Qed.

(** *** Stepping through the monad *)

Lemma bind_ok {A B} (m : M A) (f : A -> M B) w a w' :
  m w = (Ok a, w') -> bind m f w = f a w'.
Proof. unfold bind. now intros ->. Qed.

Lemma bind_raise {A B} (m : M A) (f : A -> M B) w e w' :
  m w = (Raise e, w') -> bind m f w = (Raise e, w').
Proof. unfold bind. now intros ->. Qed.

Lemma write_data_nonempty es w :
  es <> [] ->
  write_data str_list (map entry_of es) w =
  (Ok tt, set_content data_file (store_text es) w).
Proof.
  destruct es as [|e0 es]; [congruence|]. intros _.
  apply write_data_entries.
Qed.

(** What was loaded holds no CR. *)
Lemma loads_no_CR w es : loads w es -> Forall entry_no_CR es.
Proof.
  unfold loads, read_data, bind, read_text, lift, ret. simpl content.
  destruct (finances_csv w) as [s|]; [|discriminate].
  destruct (reader (readlines (universal_newlines s))) as [rows|] eqn:E;
    [|discriminate].
  intros H. inversion H as [Hd]. clear H.
  apply csv_facts.reader_no_CR in E.
  destruct rows as [|fn rest]; simpl in Hd.
  - destruct es; [constructor|discriminate].
  - inversion E as [|? ? _ Hrest]; subst.
    apply Forall_forall. intros e He.
    assert (Hin : In (entry_of e) (map entry_of es)) by now apply in_map.
    rewrite <- Hd in Hin. apply in_map_iff in Hin.
    destruct Hin as (r & Hr & Hin).
    apply filter_In in Hin. destruct Hin as [Hin _].
    rewrite Forall_forall in Hrest. specialize (Hrest r Hin).
    rewrite Forall_forall in Hrest.
    pose proof (csv_facts.DictReader_next_values_in fn r) as Hv.
    rewrite Hr in Hv. unfold entry_no_CR, values.
    repeat constructor; apply Hrest;
      [ apply (Hv (Some "id")) | apply (Hv (Some "date"))
      | apply (Hv (Some "type")) | apply (Hv (Some "amount"))
      | apply (Hv (Some "category")) | apply (Hv (Some "description")) ];
      simpl; auto 10.
Qed.

Lemma nl_entry_fix e : entry_no_CR e -> nl_entry e = e.
Proof.
  unfold entry_no_CR, values. intros H.
  repeat match goal with
         | H : Forall _ (_ :: _) |- _ => inversion H; clear H; subst
         end.
  destruct e; unfold nl_entry, nl, universal_newlines; simpl in *.
  now rewrite !csv_facts.translate_fix.
Qed.

Lemma map_nl_entry_fix es :
  Forall entry_no_CR es -> map nl_entry es = es.
Proof.
  induction 1 as [|e es He _ IH]; simpl; [reflexivity|].
  now rewrite nl_entry_fix, IH.
Qed.

(** *** The loops *)

Lemma search_loop_entries es q :
  search_loop (map entry_of es) q =
  Ok (option_map entry_of (find (has_id q) es)).
Proof.
  induction es as [|e es IH]; [reflexivity|].
  simpl map. cbn [search_loop]. change (getitem (entry_of e) "id")
    with (@Ok value (VStr (e_id e))).
  cbv iota. simpl eq_str. simpl find. unfold has_id at 1.
  destruct (e_id e =? q)%string; [reflexivity|apply IH].
Qed.

Lemma find_first pre e post q :
  Forall (fun x => e_id x <> q) pre -> e_id e = q ->
  find (has_id q) (pre ++ e :: post) = Some e.
Proof.
  intros Hpre He. induction Hpre as [|x pre Hx _ IH]; simpl.
  - unfold has_id. now rewrite He, String.eqb_refl.
  - unfold has_id at 1. apply String.eqb_neq in Hx. now rewrite Hx.
Qed.

(** An id that occurs in a sequence has a first occurrence. *)
Lemma first_occurrence es q :
  In q (map e_id es) ->
  exists pre e post,
    es = (pre ++ e :: post)%list
    /\ Forall (fun x => e_id x <> q) pre /\ e_id e = q.
Proof.
  induction es as [|x es IH]; simpl; [contradiction|].
  destruct (String.eqb_spec (e_id x) q) as [Hx|Hx].
  - intros _. exists [], x, es. repeat split; [constructor|assumption].
  - intros [H|H]; [contradiction|].
    destruct (IH H) as (pre & e & post & -> & Hpre & He).
    exists (x :: pre), e, post. repeat split; [|assumption].
    now constructor.
Qed.

Lemma find_none es q :
  Forall (fun x => e_id x <> q) es -> find (has_id q) es = None.
Proof.
  induction 1 as [|x es Hx _ IH]; simpl; [reflexivity|].
  unfold has_id at 1. apply String.eqb_neq in Hx. now rewrite Hx.
Qed.

Lemma replace_loop_entries pre e post q d :
  Forall (fun x => e_id x <> q) pre -> e_id e = q ->
  replace_loop (map entry_of (pre ++ e :: post)) q d =
  Ok (map entry_of pre ++ d :: map entry_of post)%list.
Proof.
  intros Hpre He. induction Hpre as [|x pre Hx _ IH].
  - simpl app. simpl map. cbn [replace_loop].
    change (getitem (entry_of e) "id") with (@Ok value (VStr (e_id e))).
    cbv iota. simpl eq_str. now rewrite He, String.eqb_refl.
  - simpl app. simpl map. cbn [replace_loop].
    change (getitem (entry_of x) "id") with (@Ok value (VStr (e_id x))).
    cbv iota. simpl eq_str. apply String.eqb_neq in Hx. rewrite Hx.
    simpl map in IH. rewrite IH. reflexivity.
Qed.

Lemma print_ids_entries es : forall w,
  print_ids (map entry_of es) w =
  (Ok tt, {| finances_csv := finances_csv w; last_id_txt := last_id_txt w;
             stdout := (stdout w
                        ++ map (fun e => IdLine (VStr (e_id e))) es)%list |}).
Proof.
  induction es as [|e es IH]; intros w.
  - simpl. unfold ret. rewrite List.app_nil_r. now destruct w.
  - simpl map. cbn [print_ids]. unfold bind at 1.
    change (getitem (entry_of e) "id") with (@Ok value (VStr (e_id e))).
    unfold lift. unfold bind at 1. unfold print at 1. rewrite IH.
    simpl. now rewrite <- List.app_assoc.
Qed.

(** *** The counter *)

Lemma load_last_id_absent w :
  last_id_txt w = None -> load_last_id w = (Ok 1%Z, w).
Proof.
  intros H. unfold load_last_id, try_except, bind, read_text. simpl content.
  now rewrite H.
Qed.

Lemma load_last_id_present w s :
  last_id_txt w = Some s ->
  load_last_id w =
  match int (universal_newlines s) with
  | Some n => (Ok n, w)
  | None => (Raise ValueError, w)
  end.
Proof.
  intros H. unfold load_last_id, try_except, bind, read_text. simpl content.
  rewrite H. now destruct (int (universal_newlines s)).
Qed.

Lemma load_last_id_world w r w' : load_last_id w = (r, w') -> w' = w.
Proof.
  destruct (last_id_txt w) as [s|] eqn:E.
  - rewrite (load_last_id_present _ _ E).
    destruct (int _); now inversion 1.
  - rewrite (load_last_id_absent _ E). now inversion 1.
Qed.

Lemma universal_newlines_str n : universal_newlines (str n) = str n.
Proof.
  apply csv_facts.translate_id. apply builtins_facts.str_chars; reflexivity.
Qed.

Lemma load_last_id_str w n :
  last_id_txt w = Some (str n) -> load_last_id w = (Ok n, w).
Proof.
  intros H. rewrite (load_last_id_present _ _ H).
  now rewrite universal_newlines_str, builtins_facts.int_str.
Qed.

(** *** The operations on a loaded store *)

Lemma print_run l w :
  print l w = (Ok tt, {| finances_csv := finances_csv w;
                         last_id_txt := last_id_txt w;
                         stdout := (stdout w ++ [l])%list |}).
Proof. reflexivity. Qed.

Lemma search_by_id_run w es q :
  loads w es ->
  search_by_id q w = (Ok (option_map entry_of (find (has_id q) es)), w).
Proof.
  intros Hl. unfold search_by_id. rewrite (bind_ok _ _ _ _ _ Hl).
  unfold lift. now rewrite search_loop_entries.
Qed.

Lemma get_next_id_run w n :
  load_last_id w = (Ok n, w) -> get_next_id w = (Ok (n + 1)%Z, w).
Proof.
  intros H. unfold get_next_id. now rewrite (bind_ok _ _ _ _ _ H).
Qed.

Lemma save_last_id_run n w :
  save_last_id n w = (Ok tt, set_content last_id_file (str n) w).
Proof. reflexivity. Qed.

Lemma add_entry_run w es n d t a c ds :
  loads w es -> load_last_id w = (Ok n, w) ->
  add_entry str_list d t a c ds w =
  (Ok tt,
   {| finances_csv := Some (store_text (es ++ [added (n + 1) d t a c ds]));
      last_id_txt := Some (str (n + 1));
      stdout := (stdout w ++ [EntryAdded])%list |}).
Proof.
  intros Hl Hc. unfold add_entry.
  rewrite (bind_ok _ _ _ _ _ (get_next_id_run _ _ Hc)).
  rewrite (bind_ok _ _ _ _ _ Hl).
  set (new := (Some "id", VStr _) :: _).
  change new with (entry_of (added (n + 1) d t a c ds)). clear new.
  change [entry_of (added (n + 1) d t a c ds)]
    with (map entry_of [added (n + 1) d t a c ds]).
  rewrite <- map_app.
  assert (Hne : (es ++ [added (n + 1) d t a c ds])%list <> [])
    by (destruct es; discriminate).
  rewrite (bind_ok _ _ _ _ _ (write_data_nonempty _ _ Hne)).
  rewrite (bind_ok _ _ _ _ _ (save_last_id_run _ _)).
  reflexivity.
Qed.

Lemma assign_date e new w :
  assign (entry_of e) "date" new w =
  (Ok (entry_of {| e_id := e_id e; e_date := choose new (e_date e);
                   e_type := e_type e; e_amount := e_amount e;
                   e_category := e_category e;
                   e_description := e_description e |}), w).
Proof. destruct new; reflexivity. Qed.

Lemma assign_type e new w :
  assign (entry_of e) "type" new w =
  (Ok (entry_of {| e_id := e_id e; e_date := e_date e;
                   e_type := choose new (e_type e); e_amount := e_amount e;
                   e_category := e_category e;
                   e_description := e_description e |}), w).
Proof. destruct new; reflexivity. Qed.

Lemma assign_amount e new w :
  assign (entry_of e) "amount" new w =
  (Ok (entry_of {| e_id := e_id e; e_date := e_date e;
                   e_type := e_type e; e_amount := choose new (e_amount e);
                   e_category := e_category e;
                   e_description := e_description e |}), w).
Proof. destruct new; reflexivity. Qed.

Lemma assign_category e new w :
  assign (entry_of e) "category" new w =
  (Ok (entry_of {| e_id := e_id e; e_date := e_date e;
                   e_type := e_type e; e_amount := e_amount e;
                   e_category := choose new (e_category e);
                   e_description := e_description e |}), w).
Proof. destruct new; reflexivity. Qed.

Lemma assign_description e new w :
  assign (entry_of e) "description" new w =
  (Ok (entry_of {| e_id := e_id e; e_date := e_date e;
                   e_type := e_type e; e_amount := e_amount e;
                   e_category := e_category e;
                   e_description := choose new (e_description e) |}), w).
Proof. destruct new; reflexivity. Qed.

Lemma edit_entry_found w pre e post q nd nt na nc nds :
  loads w (pre ++ e :: post) ->
  Forall (fun x => e_id x <> q) pre -> e_id e = q ->
  edit_entry str_list q nd nt na nc nds w =
  (Ok tt,
   {| finances_csv :=
        Some (store_text (pre ++ edited e nd nt na nc nds :: post));
      last_id_txt := last_id_txt w;
      stdout := (stdout w ++ [CurrentData (entry_of e); EntryUpdated])%list |}).
Proof.
  intros Hl Hpre He. unfold edit_entry.
  rewrite (bind_ok _ _ _ _ _ Hl).
  rewrite (bind_ok _ _ _ _ _ (search_by_id_run _ _ q Hl)).
  rewrite (find_first _ _ _ _ Hpre He).
  change (option_map entry_of (Some e)) with (Some (entry_of e)).
  change (truthy (Some (entry_of e))) with true. cbv iota.
  rewrite (bind_ok _ _ _ _ _ (print_run _ _)).
  rewrite (bind_ok _ _ _ _ _ (assign_date _ _ _)).
  rewrite (bind_ok _ _ _ _ _ (assign_type _ _ _)).
  rewrite (bind_ok _ _ _ _ _ (assign_amount _ _ _)).
  rewrite (bind_ok _ _ _ _ _ (assign_category _ _ _)).
  rewrite (bind_ok _ _ _ _ _ (assign_description _ _ _)).
  cbn [e_id e_date e_type e_amount e_category e_description].
  fold (edited e nd nt na nc nds).
  unfold lift at 1. unfold bind at 1.
  rewrite (replace_loop_entries _ _ _ _ _ Hpre He).
  change (entry_of (edited e nd nt na nc nds) :: map entry_of post)
    with (map entry_of (edited e nd nt na nc nds :: post)).
  rewrite <- map_app.
  assert (Hne : (pre ++ edited e nd nt na nc nds :: post)%list <> [])
    by (destruct pre; discriminate).
  rewrite (bind_ok _ _ _ _ _ (write_data_nonempty _ _ Hne)).
  rewrite print_run. cbn [set_content finances_csv last_id_txt stdout].
  rewrite <- List.app_assoc. reflexivity.
Qed.

Lemma show_all_ids_run w es :
  loads w es ->
  show_all_ids w =
  (Ok tt, {| finances_csv := finances_csv w; last_id_txt := last_id_txt w;
             stdout := (stdout w ++ AllIds
                        :: map (fun e => IdLine (VStr (e_id e))) es)%list |}).
Proof.
  intros Hl. unfold show_all_ids. rewrite (bind_ok _ _ _ _ _ Hl).
  rewrite (bind_ok _ _ _ _ _ (print_run _ _)).
  rewrite print_ids_entries. simpl. now rewrite <- List.app_assoc.
Qed.

Lemma loads_print w es l :
  loads w es ->
  loads {| finances_csv := finances_csv w; last_id_txt := last_id_txt w;
           stdout := (stdout w ++ [l])%list |} es.
Proof.
  unfold loads, read_data, bind, read_text, lift, ret. simpl content.
  destruct (finances_csv w); [|discriminate].
  destruct (reader _); [|discriminate].
  intros H. inversion H as [Hd]. now rewrite Hd.
Qed.

Lemma edit_entry_absent w es q nd nt na nc nds :
  loads w es -> Forall (fun x => e_id x <> q) es ->
  edit_entry str_list q nd nt na nc nds w =
  (Ok tt,
   {| finances_csv := finances_csv w;
      last_id_txt := last_id_txt w;
      stdout := (stdout w ++ EntryNotFound :: AllIds
                 :: map (fun e => IdLine (VStr (e_id e))) es)%list |}).
Proof.
  intros Hl Hes. unfold edit_entry.
  rewrite (bind_ok _ _ _ _ _ Hl).
  rewrite (bind_ok _ _ _ _ _ (search_by_id_run _ _ q Hl)).
  rewrite (find_none _ _ Hes).
  change (option_map entry_of None) with (@None dict). cbv iota.
  rewrite (bind_ok _ _ _ _ _ (print_run _ _)).
  rewrite (show_all_ids_run _ es (loads_print _ _ _ Hl)).
  simpl. now rewrite <- List.app_assoc.
Qed.

End main_facts.



(** * The claims *)
Section Claims.

Variable str_list : list string -> string.

(** Loading after a save: records that held no CR come back as they
    were. *)
Lemma loads_written w pre x post :
  finances_csv w = Some (store_text (pre ++ x :: post)) ->
  Forall entry_no_CR pre -> Forall entry_no_CR post ->
  loads w (pre ++ nl_entry x :: post).
Proof.
  intros Hf Hpre Hpost. unfold loads.
  rewrite (read_data_store_text _ _ Hf), map_app. simpl map.
  now rewrite !map_nl_entry_fix.
Qed.

Lemma nl_added n d t a c ds :
  nl_entry (added n d t a c ds) =
  {| e_id := str n; e_date := nl d; e_type := nl t; e_amount := nl a;
     e_category := nl c; e_description := nl ds |}.
Proof.
  unfold nl_entry, added. simpl. unfold nl at 1.
  now rewrite universal_newlines_str.
Qed.

(** One [add_entry] on a loaded store with a readable counter. *)
Lemma add_entry_step w es n d t a c ds :
  loads w es -> load_last_id w = (Ok n, w) ->
  exists w',
    add_entry str_list d t a c ds w = (Ok tt, w')
    /\ finances_csv w' = Some (store_text (es ++ [added (n + 1) d t a c ds]))
    /\ last_id_txt w' = Some (str (n + 1))
    /\ stdout w' = (stdout w ++ [EntryAdded])%list
    /\ loads w' (es ++ [nl_entry (added (n + 1) d t a c ds)])
    /\ load_last_id w' = (Ok (n + 1)%Z, w').
Proof.
  intros Hl Hc. eexists.
  split; [exact (add_entry_run str_list w es n d t a c ds Hl Hc)|].
  split; [reflexivity|]. split; [reflexivity|]. split; [reflexivity|].
  split.
  - apply loads_written; [reflexivity| |constructor].
    now apply (loads_no_CR w).
  - now apply load_last_id_str.
Qed.

Lemma add_entries_run inputs : forall w es n,
  loads w es -> load_last_id w = (Ok n, w) ->
  exists w',
    add_entries str_list inputs w = (Ok tt, w')
    /\ loads w' (es ++ numbered (n + 1) inputs)
    /\ load_last_id w' = (Ok (n + Z.of_nat (length inputs))%Z, w')
    /\ (inputs <> [] ->
        last_id_txt w' = Some (str (n + Z.of_nat (length inputs)))).
Proof.
  induction inputs as [|i rest IH]; intros w es n Hl Hc.
  - exists w. simpl. rewrite List.app_nil_r, Z.add_0_r.
    repeat split; try assumption. congruence.
  - destruct (add_entry_step w es n (a_date i) (a_type i) (a_amount i)
                (a_category i) (a_description i) Hl Hc)
      as (w1 & Hrun & _ & Hid & _ & Hl1 & Hc1).
    destruct (IH w1 _ _ Hl1 Hc1) as (w' & Hrun' & Hl' & Hc' & Hid').
    exists w'. cbn [add_entries]. rewrite (bind_ok _ _ _ _ _ Hrun).
    replace (n + Z.of_nat (length (i :: rest)))%Z
      with (n + 1 + Z.of_nat (length rest))%Z
      by (simpl length; lia).
    split; [exact Hrun'|]. split; [|split; [exact Hc'|]].
    + rewrite <- List.app_assoc, nl_added in Hl'. exact Hl'.
    + intros _. destruct rest as [|j rest']; [|apply Hid'; discriminate].
      simpl in Hrun'. unfold ret in Hrun'. inversion Hrun'; subst w'.
      simpl length. now rewrite Z.add_0_r.
Qed.

Lemma numbered_ids inputs : forall k : nat,
  map e_id (numbered (Z.of_nat k) inputs) =
  map (fun j => str (Z.of_nat j)) (seq k (length inputs)).
Proof.
  induction inputs as [|i rest IH]; intros k; [reflexivity|].
  simpl. f_equal. rewrite <- IH. do 2 f_equal. lia.
Qed.

Lemma numbered_length inputs : forall n,
  length (numbered n inputs) = length inputs.
Proof.
  induction inputs as [|i rest IH]; intros n; simpl; [reflexivity|].
  now rewrite IH.
Qed.

(** C1. From a store that holds the header only and no counter file, any
    run of N [add_entry] calls, whatever the user types, succeeds and
    leaves a store that loads as exactly N records, the k-th made from the
    k-th answers, with the identifiers "2", "3", ..., "N+1" in this
    order; the counter then reads N+1 (and the counter file holds that
    numeral as soon as one record was added). *)
Theorem add_entries_ids (inputs : list Answers) (w : World) :
  finances_csv w = Some (writerow headers) ->
  last_id_txt w = None ->
  exists w',
    add_entries str_list inputs w = (Ok tt, w')
    /\ loads w' (numbered 2 inputs)
    /\ length (numbered 2 inputs) = length inputs
    /\ map e_id (numbered 2 inputs) =
       map (fun k => str (Z.of_nat k)) (seq 2 (length inputs))
    /\ load_last_id w' = (Ok (Z.of_nat (length inputs) + 1)%Z, w')
    /\ (inputs <> [] ->
        last_id_txt w' = Some (str (Z.of_nat (length inputs) + 1))).
Proof.
  intros Hf Hc.
  assert (Hl : loads w []) by (apply (read_data_store_text w []), Hf).
  destruct (add_entries_run inputs w [] 1%Z Hl (load_last_id_absent _ Hc))
    as (w' & Hrun & Hl' & Hc' & Hid).
  exists w'. split; [exact Hrun|]. split; [exact Hl'|].
  split; [apply numbered_length|]. split; [apply (numbered_ids inputs 2)|].
  rewrite Z.add_comm. split; [exact Hc'|exact Hid].
Qed.

(** C10. On a store that loads as [es], with a counter that reads [n],
    one [add_entry] hands [write_data] the loaded sequence with one record
    appended at the end: the file becomes the text of [es] followed by the
    new record, whose id is [str] of the identifier [get_next_id] returns,
    and which holds the five answers; the store then loads as [es],
    unchanged and in the same order, followed by the new record. *)
Theorem add_entry_appends w es n d t a c ds :
  loads w es -> load_last_id w = (Ok n, w) ->
  exists w' new,
    add_entry str_list d t a c ds w = (Ok tt, w')
    /\ get_next_id w = (Ok (n + 1)%Z, w)
    /\ new = {| e_id := str (n + 1); e_date := d; e_type := t;
                e_amount := a; e_category := c; e_description := ds |}
    /\ finances_csv w' = Some (store_text (es ++ [new]))
    /\ loads w' (es ++ [nl_entry new])
    /\ e_id (nl_entry new) = str (n + 1).
Proof.
  intros Hl Hc.
  destruct (add_entry_step w es n d t a c ds Hl Hc)
    as (w' & Hrun & Hf & _ & _ & Hl' & _).
  exists w', (added (n + 1) d t a c ds).
  split; [exact Hrun|]. split; [now apply get_next_id_run|].
  split; [reflexivity|]. split; [exact Hf|]. split; [exact Hl'|].
  now rewrite nl_added.
Qed.

Lemma choose_spec new old : kept_or_replaced new old (choose new old).
Proof.
  unfold kept_or_replaced, choose. destruct new; simpl; split; congruence.
Qed.

Lemma edited_blank e :
  edited e EmptyString EmptyString EmptyString EmptyString EmptyString = e.
Proof. now destruct e. Qed.

(** One [edit_entry] on a loaded store that holds the id. *)
Lemma edit_entry_step w pre e post q nd nt na nc nds :
  loads w (pre ++ e :: post) ->
  Forall (fun x => e_id x <> q) pre -> e_id e = q ->
  exists w',
    edit_entry str_list q nd nt na nc nds w = (Ok tt, w')
    /\ finances_csv w' =
       Some (store_text (pre ++ edited e nd nt na nc nds :: post))
    /\ last_id_txt w' = last_id_txt w
    /\ loads w' (pre ++ nl_entry (edited e nd nt na nc nds) :: post).
Proof.
  intros Hl Hpre He. eexists.
  split; [exact (edit_entry_found str_list w pre e post q nd nt na nc nds
                   Hl Hpre He)|].
  split; [reflexivity|]. split; [reflexivity|].
  pose proof (loads_no_CR _ _ Hl) as Hclean.
  apply Forall_app in Hclean. destruct Hclean as [Hc1 Hc2].
  inversion Hc2; subst. now apply loads_written.
Qed.

(** C2. On a store that loads as [pre ++ e :: post], where [e] is the
    first record with the id [q] (every id that is present has such a
    first record, [first_occurrence]), [edit_entry q] with five answers saves
    the same sequence with [e'] in the place of [e]: [e'] has the id of
    [e], every field answered with the empty string as in [e], every
    other field as answered.  [pre] and [post] are written back and load
    again as they were, in the same order, and the counter file is not
    touched.  When all five answers are empty, [e'] is [e] and the store
    loads as before. *)
Theorem edit_entry_fields w pre e post q nd nt na nc nds :
  loads w (pre ++ e :: post) ->
  Forall (fun x => e_id x <> q) pre -> e_id e = q ->
  exists w' e',
    edit_entry str_list q nd nt na nc nds w = (Ok tt, w')
    /\ finances_csv w' = Some (store_text (pre ++ e' :: post))
    /\ last_id_txt w' = last_id_txt w
    /\ e_id e' = e_id e
    /\ kept_or_replaced nd (e_date e) (e_date e')
    /\ kept_or_replaced nt (e_type e) (e_type e')
    /\ kept_or_replaced na (e_amount e) (e_amount e')
    /\ kept_or_replaced nc (e_category e) (e_category e')
    /\ kept_or_replaced nds (e_description e) (e_description e')
    /\ loads w' (pre ++ nl_entry e' :: post)
    /\ (nd = EmptyString -> nt = EmptyString -> na = EmptyString ->
        nc = EmptyString -> nds = EmptyString ->
        e' = e /\ loads w' (pre ++ e :: post)).
Proof.
  intros Hl Hpre He.
  destruct (edit_entry_step w pre e post q nd nt na nc nds Hl Hpre He)
    as (w' & Hrun & Hf & Hid & Hl').
  exists w', (edited e nd nt na nc nds).
  split; [exact Hrun|]. split; [exact Hf|]. split; [exact Hid|].
  split; [reflexivity|].
  repeat (split; [apply choose_spec|]).
  split; [exact Hl'|].
  intros -> -> -> -> ->. rewrite edited_blank in *. split; [reflexivity|].
  pose proof (loads_no_CR _ _ Hl) as Hclean.
  apply Forall_app in Hclean. destruct Hclean as [_ Hc2].
  inversion Hc2; subst. now rewrite nl_entry_fix in Hl'.
Qed.

(** C9. When the id [q] occurs more than once, [e] being the first
    record that has it and [e2] any later one, [edit_entry q] replaces
    [e] only: everything after [e], the later records with the id [q]
    among it, is written back and loads again as it was. *)
Theorem edit_entry_first_only w pre e mid e2 post q nd nt na nc nds :
  loads w (pre ++ e :: mid ++ e2 :: post) ->
  Forall (fun x => e_id x <> q) pre -> e_id e = q -> e_id e2 = q ->
  exists w',
    edit_entry str_list q nd nt na nc nds w = (Ok tt, w')
    /\ finances_csv w' =
       Some (store_text
               (pre ++ edited e nd nt na nc nds :: mid ++ e2 :: post))
    /\ loads w'
         (pre ++ nl_entry (edited e nd nt na nc nds) :: mid ++ e2 :: post).
Proof.
  intros Hl Hpre He _.
  destruct (edit_entry_step w pre e (mid ++ e2 :: post) q nd nt na nc nds
              Hl Hpre He) as (w' & Hrun & Hf & _ & Hl').
  exists w'. repeat split; assumption.
Qed.

(** C6. On a store that loads as [es], none of which has the id [q],
    [edit_entry q] returns normally after printing that the record was
    not found, followed by the list of the ids; both files are as they
    were before. *)
Theorem edit_entry_not_found w es q nd nt na nc nds :
  loads w es -> Forall (fun x => e_id x <> q) es ->
  exists w',
    edit_entry str_list q nd nt na nc nds w = (Ok tt, w')
    /\ finances_csv w' = finances_csv w
    /\ last_id_txt w' = last_id_txt w
    /\ stdout w' =
       (stdout w ++ EntryNotFound :: AllIds
        :: map (fun e => IdLine (VStr (e_id e))) es)%list.
Proof.
  intros Hl Hes. eexists.
  split; [exact (edit_entry_absent str_list w es q nd nt na nc nds Hl Hes)|].
  repeat split.
Qed.

(** C3. On a store that loads as [es], [search_by_id q] returns the
    first record of [es] whose id is the string [q], compared as strings,
    and [None] when there is none; the world it returns is the one it was
    given. *)
Theorem search_by_id_first w es q :
  loads w es ->
  search_by_id q w = (Ok (option_map entry_of (find (has_id q) es)), w)
  /\ (forall pre e post,
        es = (pre ++ e :: post)%list ->
        Forall (fun x => e_id x <> q) pre -> e_id e = q ->
        search_by_id q w = (Ok (Some (entry_of e)), w))
  /\ (Forall (fun x => e_id x <> q) es -> search_by_id q w = (Ok None, w)).
Proof.
  intros Hl. pose proof (search_by_id_run w es q Hl) as H.
  split; [exact H|]. split.
  - intros pre e post -> Hpre He. now rewrite H, (find_first _ _ _ _ Hpre He).
  - intros Hes. now rewrite H, (find_none _ _ Hes).
Qed.

(** C5. [write_data] on the empty list raises [IndexError] (the file has
    been opened for writing by then, so it is left empty); on a non-empty
    list of records it returns normally and the file holds the header
    followed by one row per record. *)
Theorem write_data_empty_or_not (es : list Entry) (w : World) :
  write_data str_list (map entry_of es) w =
  match es with
  | [] => (Raise IndexError, set_content data_file EmptyString w)
  | _ :: _ =>
      (Ok tt,
       set_content data_file
         (writerow headers ++ writerows_text (map values es)) w)
  end.
Proof.
  destruct es as [|e es]; [reflexivity|].
  rewrite write_data_nonempty by discriminate. reflexivity.
Qed.

(** C7. [load_last_id] returns 1, and raises nothing, when the counter
    file is missing; when the file holds a base-10 integer, with or
    without a line break after it, [load_last_id] returns that integer. *)
Theorem load_last_id_value (w : World) :
  (last_id_txt w = None -> load_last_id w = (Ok 1%Z, w))
  /\ (forall s n,
        base10 s = Some n ->
        last_id_txt w = Some s
        \/ last_id_txt w = Some (s ++ String LF EmptyString) ->
        load_last_id w = (Ok n, w)).
Proof.
  split; [apply load_last_id_absent|].
  intros s n Hb Hw.
  pose proof (builtins_facts.base10_no_newline _ _ Hb) as Hn.
  destruct Hw as [Hw|Hw]; rewrite (load_last_id_present _ _ Hw).
  - unfold universal_newlines. rewrite csv_facts.translate_id by assumption.
    rewrite <- (csv_facts.append_empty_r s).
    rewrite (builtins_facts.int_base10 s n EmptyString Hb); auto.
  - unfold universal_newlines.
    rewrite csv_facts.translate_no_newline_app by assumption.
    rewrite (builtins_facts.int_base10 s n _ Hb); auto.
Qed.


(** Writing a non-empty sequence of records and loading it: the same
    records in the same order, every field through universal newlines. *)
Lemma read_after_write es w :
  es <> [] ->
  exists w',
    write_data str_list (map entry_of es) w = (Ok tt, w')
    /\ read_data w' = (Ok (map entry_of (map nl_entry es)), w').
Proof.
  intros Hes. eexists. split; [now apply write_data_nonempty|].
  now apply read_data_store_text.
Qed.

(** The round trip is exact for records that hold no CR. *)
Lemma read_after_write_no_CR es w :
  es <> [] -> Forall entry_no_CR es ->
  exists w',
    write_data str_list (map entry_of es) w = (Ok tt, w')
    /\ read_data w' = (Ok (map entry_of es), w').
Proof.
  intros Hes Hc. destruct (read_after_write es w Hes) as (w' & H1 & H2).
  exists w'. split; [exact H1|]. now rewrite map_nl_entry_fix in H2.
Qed.

(** C4, at a record with a CR in a field.  [write_data] opens the store
    with [newline=''] and [read_data] without, so the CR that was written
    comes back as LF: what is loaded differs from what was saved. *)
Theorem read_after_write_CR (w : World) :
  exists w',
    write_data str_list [entry_of cr_entry] w = (Ok tt, w')
    /\ read_data w' =
       (Ok [entry_of
              {| e_id := "2"; e_date := "2024-01-01"; e_type := "income";
                 e_amount := "100"; e_category := "salary";
                 e_description := String "J" (String LF "an") |}], w')
    /\ read_data w' <> (Ok [entry_of cr_entry], w').
Proof.
  destruct (read_after_write [cr_entry] w) as (w' & H1 & H2);
    [discriminate|].
  exists w'. split; [exact H1|]. split; [exact H2|].
  rewrite H2. intros H. inversion H.
Qed.

End Claims.

(** * The theorems at concrete inputs *)

Lemma check_and_create_file_fresh :
  check_and_create_file no_files = (Ok tt, fresh_world).
Proof. reflexivity. Qed.

Lemma loads_example : loads example_world [jan; feb; mar].
Proof. vm_compute. reflexivity. Defined.

Lemma add_entries_ids_witness :
  exists w',
    add_entries plain_str_list example_inputs fresh_world = (Ok tt, w')
    /\ loads w' (numbered 2 example_inputs)
    /\ map e_id (numbered 2 example_inputs) = ["2"; "3"]
    /\ load_last_id w' = (Ok 3%Z, w').
Proof.
  destruct (add_entries_ids plain_str_list example_inputs fresh_world
              eq_refl eq_refl) as (w' & H1 & H2 & _ & H3 & H4 & _).
  exists w'. repeat split; assumption.
Defined.

Lemma edit_entry_fields_witness :
  exists w' e',
    edit_entry plain_str_list "2" EmptyString EmptyString "150" EmptyString
               EmptyString example_world = (Ok tt, w')
    /\ finances_csv w' = Some (store_text [e'; feb; mar])
    /\ e_amount e' = "150" /\ e_date e' = "2024-01-01".
Proof.
  destruct (edit_entry_fields plain_str_list example_world [] jan [feb; mar]
              "2" EmptyString EmptyString "150" EmptyString EmptyString
              loads_example (Forall_nil _) eq_refl)
    as (w' & e' & H1 & H2 & _ & _ & Hd & _ & Ha & _).
  exists w', e'. split; [exact H1|]. split; [exact H2|]. split.
  - apply Ha. discriminate.
  - now apply Hd.
Defined.

Lemma edit_entry_first_only_witness :
  exists w',
    edit_entry plain_str_list "2" EmptyString EmptyString "150" EmptyString
               EmptyString example_world = (Ok tt, w')
    /\ loads w' [nl_entry (edited jan EmptyString EmptyString "150"
                             EmptyString EmptyString); feb; mar].
Proof.
  destruct (edit_entry_first_only plain_str_list example_world [] jan [feb]
              mar [] "2" EmptyString EmptyString "150" EmptyString
              EmptyString loads_example (Forall_nil _) eq_refl eq_refl)
    as (w' & H1 & _ & H2).
  exists w'. split; assumption.
Defined.

Lemma not_99 : Forall (fun x => e_id x <> "99") [jan; feb; mar].
Proof. repeat constructor; discriminate. Defined.

Lemma edit_entry_not_found_witness :
  exists w',
    edit_entry plain_str_list "99" EmptyString EmptyString "150" EmptyString
               EmptyString example_world = (Ok tt, w')
    /\ finances_csv w' = finances_csv example_world
    /\ last_id_txt w' = last_id_txt example_world.
Proof.
  destruct (edit_entry_not_found plain_str_list example_world [jan; feb; mar]
              "99" EmptyString EmptyString "150" EmptyString EmptyString
              loads_example not_99) as (w' & H1 & H2 & H3 & _).
  exists w'. repeat split; assumption.
Defined.

Lemma not_02 : Forall (fun x => e_id x <> "02") [jan; feb; mar].
Proof. repeat constructor; discriminate. Defined.

(** The id is compared as a string: "02" does not find the record "2". *)
Lemma search_by_id_first_witness :
  search_by_id "2" example_world = (Ok (Some (entry_of jan)), example_world)
  /\ search_by_id "02" example_world = (Ok None, example_world).
Proof.
  split.
  - exact (proj1 (proj2 (search_by_id_first example_world [jan; feb; mar]
                            "2" loads_example))
             [] jan [feb; mar] eq_refl (Forall_nil _) eq_refl).
  - exact (proj2 (proj2 (search_by_id_first example_world [jan; feb; mar]
                            "02" loads_example)) not_02).
Defined.

Lemma load_last_id_value_witness :
  load_last_id no_files = (Ok 1%Z, no_files)
  /\ load_last_id example_world = (Ok 3%Z, example_world).
Proof.
  split.
  - exact (proj1 (load_last_id_value no_files) eq_refl).
  - exact (proj2 (load_last_id_value example_world) "3" 3%Z eq_refl
             (or_introl eq_refl)).
Defined.


Lemma load_example : load_last_id example_world = (Ok 3%Z, example_world).
Proof. reflexivity. Defined.

Lemma add_entry_appends_witness :
  exists w' new,
    add_entry plain_str_list "2024-04-01" "expense" "12" "books" "Apr"
      example_world = (Ok tt, w')
    /\ e_id new = "4"
    /\ finances_csv w' = Some (store_text [jan; feb; mar; new])
    /\ loads w' [jan; feb; mar; nl_entry new].
Proof.
  destruct (add_entry_appends plain_str_list example_world [jan; feb; mar]
              3%Z "2024-04-01" "expense" "12" "books" "Apr"
              loads_example load_example)
    as (w' & new & H1 & _ & Hn & H2 & H3 & _).
  exists w', new. split; [exact H1|]. split; [now rewrite Hn|].
  split; assumption.
Defined.

(** * Further properties of the code *)
Section Extras.

Variable str_list : list string -> string.

Lemma same_files_refl w : same_files w w.
Proof. split; reflexivity. Qed.

Lemma same_files_trans w1 w2 w3 :
  same_files w1 w2 -> same_files w2 w3 -> same_files w1 w3.
Proof. intros [H1 H2] [H3 H4]. split; congruence. Qed.

(** ** [check_and_create_file] *)

Lemma check_and_create_file_missing w :
  finances_csv w = None ->
  exists w',
    check_and_create_file w = (Ok tt, w')
    /\ finances_csv w' = Some (writerow headers)
    /\ last_id_txt w' = last_id_txt w
    /\ stdout w' = (stdout w ++ [FileCreated])%list
    /\ loads w' [].
Proof.
  intros Hf. eexists. split.
  - unfold check_and_create_file, isfile, bind. cbn [content]. rewrite Hf.
    simpl negb. cbv iota. reflexivity.
  - split; [reflexivity|]. split; [reflexivity|]. split; [reflexivity|].
    apply (read_data_store_text _ []). reflexivity.
Qed.

(** X1. When [finances.csv] does not exist, [check_and_create_file]
    creates it with the header row only: the store then loads as the empty
    sequence of records, and the counter file is not touched. *)
Theorem check_and_create_file_creates w :
  finances_csv w = None ->
  exists w',
    check_and_create_file w = (Ok tt, w')
    /\ finances_csv w' = Some (writerow headers)
    /\ last_id_txt w' = last_id_txt w
    /\ stdout w' = (stdout w ++ [FileCreated])%list
    /\ loads w' [].
Proof. apply check_and_create_file_missing. Qed.

Lemma check_and_create_file_exists w s :
  finances_csv w = Some s ->
  check_and_create_file w =
  (Ok tt, {| finances_csv := finances_csv w; last_id_txt := last_id_txt w;
             stdout := (stdout w ++ [FileExists])%list |}).
Proof.
  intros Hf.
  assert (H : isfile data_file w = (Ok true, w))
    by (unfold isfile; cbn [content]; now rewrite Hf).
  unfold check_and_create_file. now rewrite (bind_ok _ _ _ _ _ H).
Qed.

(** X2. [check_and_create_file] never overwrites a store that exists,
    whatever it holds, and calling it a second time changes neither
    file. *)
Theorem check_and_create_file_idempotent w :
  exists w1 w2,
    check_and_create_file w = (Ok tt, w1)
    /\ check_and_create_file w1 = (Ok tt, w2)
    /\ same_files w1 w2
    /\ last_id_txt w1 = last_id_txt w
    /\ (forall s, finances_csv w = Some s -> finances_csv w1 = Some s).
Proof.
  destruct (finances_csv w) as [s|] eqn:Hf.
  - pose proof (check_and_create_file_exists w s Hf) as H1.
    eexists. eexists. split; [exact H1|]. split; [|split; [|split]].
    + apply (check_and_create_file_exists _ s). exact Hf.
    + split; reflexivity.
    + reflexivity.
    + intros s' H. simpl. congruence.
  - destruct (check_and_create_file_missing w Hf)
      as (w1 & H1 & Hf1 & Hc1 & _).
    exists w1. eexists. split; [exact H1|]. split; [|split; [|split]].
    + apply (check_and_create_file_exists w1 _ Hf1).
    + split; reflexivity.
    + exact Hc1.
    + discriminate.
Qed.

(** ** The counter *)


(** ** A store that is missing *)

(** [get_next_id] returns a number or raises [ValueError]; it changes
    nothing. *)
Lemma get_next_id_cases w :
  (exists n, get_next_id w = (Ok n, w))
  \/ get_next_id w = (Raise ValueError, w).
Proof.
  destruct (last_id_txt w) as [s|] eqn:Hc.
  - pose proof (load_last_id_present _ _ Hc) as Hl.
    destruct (int (universal_newlines s)) as [n|].
    + left. exists (n + 1)%Z. now apply get_next_id_run.
    + right. unfold get_next_id. now rewrite (bind_raise _ _ _ _ _ Hl).
  - left. exists (1 + 1)%Z. apply get_next_id_run.
    now apply load_last_id_absent.
Qed.

Lemma read_data_missing w :
  finances_csv w = None -> read_data w = (Raise FileNotFoundError, w).
Proof.
  intros H. unfold read_data, bind, read_text. cbn [content]. now rewrite H.
Qed.

(** X4. When [finances.csv] does not exist, every function that loads the
    store raises: [read_data], [search_by_id], [show_all_ids] and
    [edit_entry] raise [FileNotFoundError], [add_entry] raises it too
    unless the counter file already made it raise [ValueError].  None of
    them creates or changes a file, and [add_entry] does not advance the
    counter. *)
Theorem store_missing w q d t a c ds :
  finances_csv w = None ->
  read_data w = (Raise FileNotFoundError, w)
  /\ search_by_id q w = (Raise FileNotFoundError, w)
  /\ show_all_ids w = (Raise FileNotFoundError, w)
  /\ edit_entry str_list q d t a c ds w = (Raise FileNotFoundError, w)
  /\ exists e,
       add_entry str_list d t a c ds w = (Raise e, w)
       /\ (e = FileNotFoundError \/ e = ValueError).
Proof.
  intros Hf. pose proof (read_data_missing w Hf) as Hr.
  split; [exact Hr|]. split; [|split; [|split]].
  - unfold search_by_id. now rewrite (bind_raise _ _ _ _ _ Hr).
  - unfold show_all_ids. now rewrite (bind_raise _ _ _ _ _ Hr).
  - unfold edit_entry. now rewrite (bind_raise _ _ _ _ _ Hr).
  - unfold add_entry.
    destruct (get_next_id_cases w) as [[n Hn]|Hn].
    + exists FileNotFoundError.
      rewrite (bind_ok _ _ _ _ _ Hn), (bind_raise _ _ _ _ _ Hr). auto.
    + exists ValueError. rewrite (bind_raise _ _ _ _ _ Hn). auto.
Qed.

(** ** Functions that only look *)

Lemma print_ids_files ds : forall w, same_files w (snd (print_ids ds w)).
Proof.
  induction ds as [|d ds IH]; intros w; [apply same_files_refl|].
  cbn [print_ids]. unfold bind at 1. unfold lift.
  destruct (getitem d "id") as [v|e]; [|apply same_files_refl].
  unfold bind at 1. rewrite print_run.
  eapply same_files_trans; [|apply IH]. split; reflexivity.
Qed.

(** X5. [read_data], [search_by_id], [load_last_id] and [get_next_id]
    return the world they were given, and [show_all_ids] changes the
    console only: whatever the files hold, and also when they raise,
    neither file is created or changed. *)
Theorem lookups_change_nothing (q : string) (w : World) :
  snd (read_data w) = w
  /\ snd (search_by_id q w) = w
  /\ snd (load_last_id w) = w
  /\ snd (get_next_id w) = w
  /\ same_files w (snd (show_all_ids w)).
Proof.
  assert (Hr : snd (read_data w) = w)
    by (destruct (read_data w) eqn:E; now apply read_data_world in E).
  assert (Hl : snd (load_last_id w) = w)
    by (destruct (load_last_id w) eqn:E; now apply load_last_id_world in E).
  split; [exact Hr|]. split; [|split; [exact Hl|split]].
  - unfold search_by_id, bind.
    destruct (read_data w) as [[ds|e] w1]; simpl in Hr; subst w1;
      reflexivity.
  - destruct (get_next_id_cases w) as [[n H]|H]; now rewrite H.
  - unfold show_all_ids, bind at 1.
    destruct (read_data w) as [[ds|e] w1]; simpl in Hr; subst w1;
      [|apply same_files_refl].
    unfold bind. rewrite print_run.
    eapply same_files_trans; [|apply print_ids_files]. split; reflexivity.
Qed.

(** X6. On a store that loads as [es], [show_all_ids] prints the heading
    and then the id of every record, in the order of the store, and
    changes neither file. *)
Theorem show_all_ids_prints w es :
  loads w es ->
  exists w',
    show_all_ids w = (Ok tt, w')
    /\ stdout w' =
       (stdout w ++ AllIds :: map (fun e => IdLine (VStr (e_id e))) es)%list
    /\ same_files w w'.
Proof.
  intros Hl. eexists. split; [exact (show_all_ids_run w es Hl)|].
  split; [reflexivity|split; reflexivity].
Qed.

(** ** [write_data] on dictionaries of any shape *)

Lemma key_eqb_refl k : key_eqb k k = true.
Proof. destruct k; simpl; [apply String.eqb_refl|reflexivity]. Qed.

Lemma existsb_key_In k l : In k l -> existsb (key_eqb k) l = true.
Proof.
  induction l as [|x l IH]; simpl; [contradiction|].
  intros [->|H]; [now rewrite key_eqb_refl|].
  rewrite IH by assumption. apply orb_true_r.
Qed.

(** The first dictionary fits its own keys. *)
Lemma fits_self d : fits (keys d) d = true.
Proof.
  unfold fits. apply forallb_forall. intros k Hk. now apply existsb_key_In.
Qed.

Lemma _dict_to_list_fits fieldnames d :
  _dict_to_list fieldnames d =
  if fits fieldnames d
  then Ok (map (fun k => match dict_get d k with
                         | Some v => v
                         | None => VStr EmptyString
                         end) fieldnames)
  else Raise ValueError.
Proof. reflexivity. Qed.

Lemma writerows_fit fieldnames ds : forall w old,
  content data_file w = Some old ->
  forallb (fits fieldnames) ds = true ->
  writerows str_list fieldnames ds w =
  (Ok tt,
   set_content data_file
     (old ++ writerows_text (map (row_of str_list fieldnames) ds)) w).
Proof.
  induction ds as [|d ds IH]; intros w old Hw Hfit.
  - simpl. unfold ret. rewrite csv_facts.append_empty_r.
    destruct w; simpl in *; now rewrite Hw.
  - simpl in Hfit. apply andb_true_iff in Hfit. destruct Hfit as [Hd Hds].
    cbn [writerows]. unfold bind at 1. unfold lift.
    rewrite _dict_to_list_fits, Hd. unfold bind at 1. unfold write at 1.
    rewrite Hw. rewrite map_map.
    rewrite (IH _ (old ++ writerow (row_of str_list fieldnames d)));
      [|now rewrite content_set|assumption].
    rewrite set_content_twice. simpl map. simpl writerows_text.
    now rewrite csv_facts.append_assoc.
Qed.

Lemma writerows_misfit fieldnames pre bad post : forall w old,
  content data_file w = Some old ->
  forallb (fits fieldnames) pre = true -> fits fieldnames bad = false ->
  writerows str_list fieldnames (pre ++ bad :: post) w =
  (Raise ValueError,
   set_content data_file
     (old ++ writerows_text (map (row_of str_list fieldnames) pre)) w).
Proof.
  induction pre as [|d pre IH]; intros w old Hw Hfit Hbad.
  - simpl app. cbn [writerows]. unfold bind at 1. unfold lift.
    rewrite _dict_to_list_fits, Hbad. simpl.
    rewrite csv_facts.append_empty_r.
    destruct w; simpl in *; now rewrite Hw.
  - simpl in Hfit. apply andb_true_iff in Hfit. destruct Hfit as [Hd Hds].
    simpl app. cbn [writerows]. unfold bind at 1. unfold lift.
    rewrite _dict_to_list_fits, Hd. unfold bind at 1. unfold write at 1.
    rewrite Hw. rewrite map_map.
    rewrite (IH _ (old ++ writerow (row_of str_list fieldnames d)));
      [|now rewrite content_set|assumption|assumption].
    rewrite set_content_twice. simpl map. simpl writerows_text.
    now rewrite csv_facts.append_assoc.
Qed.

Lemma write_data_open d0 ds w :
  write_data str_list (d0 :: ds) w =
  writerows str_list (keys d0) (d0 :: ds)
    (set_content data_file (header str_list (keys d0)) w).
Proof.
  unfold write_data. unfold bind at 1. unfold open_w.
  unfold bind at 1. unfold lift at 1. unfold bind at 1. unfold write at 1.
  rewrite content_set, set_content_twice. reflexivity.
Qed.

(** X7. [write_data] on a non-empty list of dictionaries, none of which
    has a key that the first one lacks, returns normally: the file holds
    the header made of the keys of the first dictionary and one row per
    dictionary, in order, a key that a dictionary lacks being written as
    an empty field. *)
Theorem write_data_fits d0 ds w :
  forallb (fits (keys d0)) ds = true ->
  write_data str_list (d0 :: ds) w =
  (Ok tt,
   set_content data_file
     (header str_list (keys d0)
      ++ writerows_text (map (row_of str_list (keys d0)) (d0 :: ds))) w).
Proof.
  intros Hfit. rewrite write_data_open.
  rewrite (writerows_fit _ _ _ (header str_list (keys d0)));
    [ now rewrite set_content_twice
    | now rewrite content_set
    | simpl; now rewrite fits_self ].
Qed.

Lemma write_data_stops d0 pre bad post w :
  forallb (fits (keys d0)) pre = true -> fits (keys d0) bad = false ->
  write_data str_list (d0 :: pre ++ bad :: post) w =
  (Raise ValueError,
   set_content data_file
     (header str_list (keys d0)
      ++ writerows_text (map (row_of str_list (keys d0)) (d0 :: pre))) w).
Proof.
  intros Hfit Hbad. rewrite write_data_open.
  rewrite (writerows_misfit _ (d0 :: pre) bad post _
             (header str_list (keys d0)));
    [ now rewrite set_content_twice
    | now rewrite content_set
    | simpl; now rewrite fits_self
    | assumption ].
Qed.

(** X8. [write_data] is not atomic.  When a dictionary has a key that the
    first one lacks, it raises [ValueError] at that dictionary, after the
    file was emptied and rewritten up to it: the file is left with the
    header and the rows of the dictionaries before the offending one, and
    everything from that one on is lost. *)
Theorem write_data_misfit d0 pre bad post w :
  forallb (fits (keys d0)) pre = true -> fits (keys d0) bad = false ->
  write_data str_list (d0 :: pre ++ bad :: post) w =
  (Raise ValueError,
   set_content data_file
     (header str_list (keys d0)
      ++ writerows_text (map (row_of str_list (keys d0)) (d0 :: pre))) w).
Proof. apply write_data_stops. Qed.

(** ** Identifiers *)

Lemma str_inj a b : str a = str b -> a = b.
Proof.
  intros H. pose proof (builtins_facts.int_str a) as Ha.
  rewrite H, builtins_facts.int_str in Ha. congruence.
Qed.


Lemma nl_id_loaded w pre e post :
  loads w (pre ++ e :: post) -> nl (e_id e) = e_id e.
Proof.
  intros Hl. apply loads_no_CR, Forall_app in Hl. destruct Hl as [_ Hl].
  inversion Hl as [|? ? He _]; subst.
  inversion He; subst. now apply csv_facts.translate_fix.
Qed.

(** X9. [add_entry] keeps the identifiers sound.  When the ids of the
    store are pairwise distinct and each is a number that the counter has
    reached, [add_entry] returns normally and the same holds afterwards,
    with one record more and the counter one higher: the new id is
    fresh. *)
Theorem add_entry_keeps_consistent w es n d t a c ds :
  loads w es -> load_last_id w = (Ok n, w) -> consistent es n ->
  exists w' es',
    add_entry str_list d t a c ds w = (Ok tt, w')
    /\ loads w' es'
    /\ length es' = S (length es)
    /\ load_last_id w' = (Ok (n + 1)%Z, w')
    /\ consistent es' (n + 1).
Proof.
  intros Hl Hc [Hnd Hle].
  destruct (add_entry_step str_list w es n d t a c ds Hl Hc)
    as (w' & Hrun & _ & _ & _ & Hl' & Hc').
  exists w', (es ++ [nl_entry (added (n + 1) d t a c ds)])%list.
  split; [exact Hrun|]. split; [exact Hl'|].
  split; [rewrite length_app; simpl; lia|]. split; [exact Hc'|].
  rewrite nl_added. split.
  - rewrite map_app. apply NoDup_app; [exact Hnd|repeat constructor; auto|].
    simpl. intros i Hi [Hn|[]]. subst i.
    apply in_map_iff in Hi. destruct Hi as (e & He & Hin).
    rewrite Forall_forall in Hle. destruct (Hle e Hin) as (k & Hk & Hkn).
    rewrite Hk in He. apply str_inj in He. lia.
  - apply Forall_app. split.
    + eapply Forall_impl; [|exact Hle]. intros e (k & Hk & Hkn).
      exists k. split; [exact Hk|lia].
    + repeat constructor. exists (n + 1)%Z. split; [reflexivity|lia].
Qed.


(** ** Looking up what was saved *)

(** X11. A record that was added is found under its id: when no record
    of the store has the id that [add_entry] is about to hand out,
    [search_by_id] with that id afterwards returns the new record, with
    the answers as its fields (read through universal newlines). *)
Theorem add_then_search w es n d t a c ds :
  loads w es -> load_last_id w = (Ok n, w) ->
  Forall (fun x => e_id x <> str (n + 1)) es ->
  exists w',
    add_entry str_list d t a c ds w = (Ok tt, w')
    /\ search_by_id (str (n + 1)) w' =
       (Ok (Some (entry_of {| e_id := str (n + 1); e_date := nl d;
                              e_type := nl t; e_amount := nl a;
                              e_category := nl c;
                              e_description := nl ds |})), w').
Proof.
  intros Hl Hc Hes.
  destruct (add_entry_step str_list w es n d t a c ds Hl Hc)
    as (w' & Hrun & _ & _ & _ & Hl' & _).
  exists w'. split; [exact Hrun|]. rewrite nl_added in Hl'.
  rewrite (search_by_id_run _ _ (str (n + 1)) Hl').
  erewrite find_first; [reflexivity|exact Hes|reflexivity].
Qed.

(** X12. The counter is trusted blindly.  When it has fallen behind and a
    record [e] of the store already has the id that [add_entry] hands
    out, [add_entry] still appends a record with that id: the store then
    holds the id twice, and [search_by_id] with it returns the old record
    [e], never the one just added. *)
Theorem add_entry_collision w pre e post n d t a c ds :
  loads w (pre ++ e :: post) -> load_last_id w = (Ok n, w) ->
  Forall (fun x => e_id x <> str (n + 1)) pre -> e_id e = str (n + 1) ->
  exists w' new,
    add_entry str_list d t a c ds w = (Ok tt, w')
    /\ loads w' (pre ++ e :: post ++ [new])
    /\ e_id new = e_id e
    /\ ~ NoDup (map e_id (pre ++ e :: post ++ [new]))
    /\ search_by_id (str (n + 1)) w' = (Ok (Some (entry_of e)), w').
Proof.
  intros Hl Hc Hpre He.
  destruct (add_entry_step str_list w _ n d t a c ds Hl Hc)
    as (w' & Hrun & _ & _ & _ & Hl' & _).
  rewrite nl_added, <- List.app_assoc in Hl'. simpl app in Hl'.
  eexists w', _. split; [exact Hrun|]. split; [exact Hl'|].
  split; [now rewrite He|]. split.
  - rewrite map_app. intros Hnd. apply NoDup_app_remove_l in Hnd.
    simpl in Hnd. inversion Hnd as [|? ? Hnotin _]; subst.
    apply Hnotin. rewrite map_app, He. apply in_or_app. right. now left.
  - rewrite (search_by_id_run _ _ (str (n + 1)) Hl').
    now rewrite (find_first _ _ _ _ Hpre He).
Qed.

(** X13. What [edit_entry] stored is what [search_by_id] returns: after an
    edit of the id [q], looking [q] up gives the record with the answered
    fields replaced (read through universal newlines) and the others as
    they were. *)
Theorem edit_then_search w pre e post q nd nt na nc nds :
  loads w (pre ++ e :: post) ->
  Forall (fun x => e_id x <> q) pre -> e_id e = q ->
  exists w',
    edit_entry str_list q nd nt na nc nds w = (Ok tt, w')
    /\ search_by_id q w' =
       (Ok (Some (entry_of (nl_entry (edited e nd nt na nc nds)))), w').
Proof.
  intros Hl Hpre He.
  destruct (edit_entry_step str_list w pre e post q nd nt na nc nds
              Hl Hpre He) as (w' & Hrun & _ & _ & Hl').
  exists w'. split; [exact Hrun|].
  rewrite (search_by_id_run _ _ q Hl').
  rewrite (find_first _ _ _ _ Hpre); [reflexivity|].
  simpl. now rewrite (nl_id_loaded w pre e post Hl).
Qed.

Lemma choose_nl_choose a old :
  nl old = old -> choose a (nl (choose a old)) = choose a old.
Proof. unfold choose. destruct a; simpl; congruence. Qed.

(** X14. Editing twice with the same answers is editing once: the second
    [edit_entry] returns normally and leaves both files exactly as the
    first one left them. *)
Theorem edit_entry_twice w pre e post q nd nt na nc nds :
  loads w (pre ++ e :: post) ->
  Forall (fun x => e_id x <> q) pre -> e_id e = q ->
  exists w1 w2,
    edit_entry str_list q nd nt na nc nds w = (Ok tt, w1)
    /\ edit_entry str_list q nd nt na nc nds w1 = (Ok tt, w2)
    /\ same_files w1 w2.
Proof.
  intros Hl Hpre He.
  destruct (edit_entry_step str_list w pre e post q nd nt na nc nds
              Hl Hpre He) as (w1 & Hrun1 & Hf1 & Hid1 & Hl1).
  assert (He1 : e_id (nl_entry (edited e nd nt na nc nds)) = q)
    by (simpl; now rewrite (nl_id_loaded w pre e post Hl)).
  destruct (edit_entry_step str_list w1 pre _ post q nd nt na nc nds
              Hl1 Hpre He1) as (w2 & Hrun2 & Hf2 & Hid2 & _).
  exists w1, w2. split; [exact Hrun1|]. split; [exact Hrun2|].
  split; [|exact Hid2]. rewrite Hf2, Hf1. do 3 f_equal.
  pose proof (loads_no_CR _ _ Hl) as Hclean.
  apply Forall_app in Hclean. destruct Hclean as [_ Hclean].
  inversion Hclean as [|? ? Hce _]; subst.
  unfold entry_no_CR, values in Hce.
  repeat match goal with
         | H : Forall _ (_ :: _) |- _ => inversion H; clear H; subst
         end.
  unfold edited. cbn [nl_entry e_id e_date e_type e_amount e_category
                      e_description].
  f_equal.
  f_equal; try (apply choose_nl_choose);
    now apply csv_facts.translate_fix.
Qed.

(** ** Stores of another shape *)

(** X15. A store without an id column cannot be searched: when the first
    record loaded has no key "id", [search_by_id] and [edit_entry] raise
    [KeyError] and change nothing, and [show_all_ids] raises it after
    printing its heading; no file is changed. *)
Theorem missing_id_column w d0 ds q nd nt na nc nds :
  read_data w = (Ok (d0 :: ds), w) ->
  dict_get d0 (Some "id") = None ->
  search_by_id q w = (Raise KeyError, w)
  /\ edit_entry str_list q nd nt na nc nds w = (Raise KeyError, w)
  /\ exists w',
       show_all_ids w = (Raise KeyError, w')
       /\ stdout w' = (stdout w ++ [AllIds])%list
       /\ same_files w w'.
Proof.
  intros Hr Hd.
  assert (Hs : search_by_id q w = (Raise KeyError, w)).
  { unfold search_by_id. rewrite (bind_ok _ _ _ _ _ Hr).
    unfold lift. cbn [search_loop]. unfold getitem. now rewrite Hd. }
  split; [exact Hs|]. split.
  - unfold edit_entry. rewrite (bind_ok _ _ _ _ _ Hr).
    now rewrite (bind_raise _ _ _ _ _ Hs).
  - eexists. split.
    + unfold show_all_ids. rewrite (bind_ok _ _ _ _ _ Hr).
      rewrite (bind_ok _ _ _ _ _ (print_run _ _)).
      cbn [print_ids]. unfold bind, lift, getitem. rewrite Hd. reflexivity.
    + split; [reflexivity|split; reflexivity].
Qed.

(** X16. [add_entry] on a store that has records but lacks one of the six
    columns fails: [DictWriter] raises [ValueError] at the new record.  By
    then the file has been rewritten from the records that were loaded
    (header of the first one, one row each), the new record is not in it,
    and the counter is not advanced. *)
Theorem add_entry_missing_column w d0 ds n d t a c dsc :
  read_data w = (Ok (d0 :: ds), w) ->
  load_last_id w = (Ok n, w) ->
  forallb (fits (keys d0)) ds = true ->
  forallb (fun k => existsb (key_eqb k) (keys d0)) (map Some headers)
  = false ->
  exists w',
    add_entry str_list d t a c dsc w = (Raise ValueError, w')
    /\ finances_csv w' =
       Some (header str_list (keys d0)
             ++ writerows_text (map (row_of str_list (keys d0)) (d0 :: ds)))
    /\ last_id_txt w' = last_id_txt w
    /\ stdout w' = stdout w.
Proof.
  intros Hr Hc Hfit Hmiss. eexists. split.
  - unfold add_entry.
    rewrite (bind_ok _ _ _ _ _ (get_next_id_run _ _ Hc)).
    rewrite (bind_ok _ _ _ _ _ Hr).
    set (new := (Some "id", VStr _) :: _).
    change ((d0 :: ds) ++ [new])%list with (d0 :: ds ++ new :: [])%list.
    rewrite (bind_raise _ _ _ _ _
               (write_data_stops d0 ds new [] w Hfit Hmiss)).
    reflexivity.
  - split; [reflexivity|split; reflexivity].
Qed.

(** ** No CR is ever loaded *)

Lemma value_in_set r d k0 v0 :
  (forall k v, In (k, v) d -> value_in r v) -> value_in r v0 ->
  forall k v, In (k, v) (dict_set d k0 v0) -> value_in r v.
Proof.
  intros Hd Hv k v H. apply csv_facts.dict_set_In in H.
  destruct H as [H|H]; [inversion H; now subst|now apply (Hd k)].
Qed.

Lemma value_in_fold_str r kvs : forall d,
  (forall k v, In (k, v) d -> value_in r v) ->
  (forall kv, In kv kvs -> In (snd kv) r) ->
  forall k v,
    In (k, v)
       (fold_left (fun d kv => dict_set d (Some (fst kv)) (VStr (snd kv)))
                  kvs d) ->
    value_in r v.
Proof.
  induction kvs as [|kv kvs IH]; intros d Hd Hk; simpl; [exact Hd|].
  apply IH.
  - apply value_in_set; [exact Hd|]. simpl. apply Hk. now left.
  - intros kv' H. apply Hk. now right.
Qed.

Lemma value_in_fold_none r ks : forall d,
  (forall k v, In (k, v) d -> value_in r v) ->
  forall k v,
    In (k, v) (fold_left (fun d k => dict_set d (Some k) VNone) ks d) ->
    value_in r v.
Proof.
  induction ks as [|k0 ks IH]; intros d Hd; simpl; [exact Hd|].
  apply IH. apply value_in_set; [exact Hd|exact I].
Qed.

Lemma incl_skipn {A} n (l : list A) : incl (skipn n l) l.
Proof.
  revert n. induction l as [|x l IH]; intros [|n]; simpl;
    try apply incl_refl.
  apply incl_tl, IH.
Qed.

Lemma DictReader_next_value_in fieldnames r :
  forall k v, In (k, v) (DictReader_next fieldnames r) -> value_in r v.
Proof.
  unfold DictReader_next.
  assert (H0 : forall k v,
             In (k, v)
                (fold_left
                   (fun d kv => dict_set d (Some (fst kv)) (VStr (snd kv)))
                   (combine fieldnames r) []) -> value_in r v).
  { apply value_in_fold_str; [intros k v []|].
    intros [x y] H. simpl. now apply in_combine_r in H. }
  destruct (_ <? _)%nat.
  - apply value_in_set; [exact H0|]. simpl. apply incl_skipn.
  - now apply value_in_fold_none.
Qed.

(** X17. Whatever [finances.csv] holds, no value that [read_data] returns
    holds a carriage return: the file is read with universal newlines, so
    every CR in it has become LF before the fields are cut. *)
Theorem read_data_no_CR w ds w' :
  read_data w = (Ok ds, w') -> Forall dict_no_CR ds.
Proof.
  unfold read_data, bind, read_text, lift, ret. cbn [content].
  destruct (finances_csv w) as [s|]; [|discriminate].
  destruct (reader (readlines (universal_newlines s))) as [rows|] eqn:E;
    [|discriminate].
  intros H. inversion H; subst. clear H.
  apply csv_facts.reader_no_CR in E.
  destruct rows as [|fn rest]; [constructor|].
  inversion E as [|? ? _ Hrest]; subst. simpl.
  apply Forall_forall. intros d Hd. apply in_map_iff in Hd.
  destruct Hd as (r & <- & Hin). apply filter_In in Hin.
  destruct Hin as [Hin _].
  rewrite Forall_forall in Hrest. specialize (Hrest r Hin).
  rewrite Forall_forall in Hrest.
  intros k v Hkv. apply DictReader_next_value_in in Hkv.
  destruct v as [x| |l]; simpl in Hkv; [now apply Hrest|exact I|].
  apply Forall_forall. intros x Hx. now apply Hrest, Hkv.
Qed.

End Extras.

(** * The session *)
Section session_facts.

Variable str_list : list string -> string.

(** ** Stepping *)

Lemma sbind_ok {A B} (m : session.S A) (f : A -> session.S B) st a st' :
  m st = Some (session.SOk a, st') -> session.sbind m f st = f a st'.
Proof. unfold session.sbind. now intros ->. Qed.

Lemma sbind_raise {A B} (m : session.S A) (f : A -> session.S B) st e st' :
  m st = Some (session.SRaise e, st') ->
  session.sbind m f st = Some (session.SRaise e, st').
Proof. unfold session.sbind. now intros ->. Qed.

Lemma call_ok {A} (m : M A) w inp out a w' :
  m w = (Ok a, w') ->
  session.call m {| session.world := w; session.stdin := inp;
                    session.main_out := out |} =
  Some (session.SOk a,
        {| session.world := w'; session.stdin := inp;
           session.main_out := out |}).
Proof. unfold session.call. simpl. now intros ->. Qed.

Lemma call_raise {A} (m : M A) w inp out e w' :
  m w = (Raise e, w') ->
  session.call (A:=A) m {| session.world := w; session.stdin := inp;
                           session.main_out := out |} =
  Some (session.SRaise (session.Py e),
        {| session.world := w'; session.stdin := inp;
           session.main_out := out |}).
Proof. unfold session.call. simpl. now intros ->. Qed.

(** Calling one function after another is calling their sequence. *)
Lemma call_bind {A B} (m : M A) (f : A -> M B) st :
  session.sbind (session.call m) (fun a => session.call (f a)) st =
  session.call (bind m f) st.
Proof.
  unfold session.sbind, session.call, bind.
  destruct (m (session.world st)) as [[a|e] w']; reflexivity.
Qed.

Lemma input_line w l rest out :
  session.input {| session.world := w; session.stdin := l :: rest;
                   session.main_out := out |} =
  Some (session.SOk l,
        {| session.world := w; session.stdin := rest;
           session.main_out := out |}).
Proof. reflexivity. Qed.

(** ** [add_entry] at the keyboard *)

Lemma add_entry_at_keyboard st d t a c ds rest :
  session.stdin st = d :: t :: a :: c :: ds :: rest ->
  match main.add_entry str_list d t a c ds (session.world st) with
  | (Ok _, w') =>
      session.add_entry str_list st =
      Some (session.SOk tt,
            {| session.world := w'; session.stdin := rest;
               session.main_out := session.main_out st |})
  | (Raise e, w') =>
      exists st',
        session.add_entry str_list st =
        Some (session.SRaise (session.Py e), st')
        /\ session.world st' = w'
  end.
Proof.
  intros Hin. destruct st as [w inp out]. simpl in Hin. subst inp.
  cbn [session.world session.main_out].
  unfold main.add_entry, session.add_entry.
  destruct (get_next_id_cases w) as [[n Hn]|Hn].
  - rewrite (bind_ok _ _ _ _ _ Hn).
    rewrite (sbind_ok _ _ _ _ _ (call_ok get_next_id _ _ _ _ _ Hn)).
    do 5 (rewrite (sbind_ok _ _ _ _ _ (input_line _ _ _ _))).
    set (new := (Some "id", VStr _) :: _).
    destruct (read_data w) as [[fin|e] w1] eqn:Hr.
    + rewrite (bind_ok _ _ _ _ _ Hr).
      rewrite (sbind_ok _ _ _ _ _ (call_ok read_data _ _ _ _ _ Hr)).
      destruct (write_data str_list (fin ++ [new])%list w1)
        as [[u|e] w2] eqn:Hw.
      * destruct u. rewrite (bind_ok _ _ _ _ _ Hw).
        rewrite (sbind_ok _ _ _ _ _ (call_ok _ _ _ _ _ _ Hw)).
        rewrite (bind_ok _ _ _ _ _ (save_last_id_run _ _)).
        rewrite (sbind_ok _ _ _ _ _
                   (call_ok _ _ _ _ _ _ (save_last_id_run _ _))).
        rewrite print_run.
        now rewrite (call_ok _ _ _ _ _ _ (print_run _ _)).
      * rewrite (bind_raise _ _ _ _ _ Hw).
        rewrite (sbind_raise _ _ _ _ _ (call_raise _ _ _ _ _ _ Hw)).
        eexists; split; reflexivity.
    + rewrite (bind_raise _ _ _ _ _ Hr).
      rewrite (sbind_raise _ _ _ _ _ (call_raise read_data _ _ _ _ _ Hr)).
      eexists; split; reflexivity.
  - rewrite (bind_raise _ _ _ _ _ Hn).
    eexists. split.
    + apply sbind_raise. apply (call_raise get_next_id _ _ _ _ _ Hn).
    + reflexivity.
Qed.

(** X18. [add_entry] with five lines to read is [add_entry] on these five
    answers: the same result, the same files and console, and when it
    returns normally exactly these five lines have been read.  So every
    property of the function on given answers holds for the function at
    the keyboard. *)
Theorem add_entry_reads_answers st d t a c ds rest :
  session.stdin st = d :: t :: a :: c :: ds :: rest ->
  match main.add_entry str_list d t a c ds (session.world st) with
  | (Ok _, w') =>
      session.add_entry str_list st =
      Some (session.SOk tt,
            {| session.world := w'; session.stdin := rest;
               session.main_out := session.main_out st |})
  | (Raise e, w') =>
      exists st',
        session.add_entry str_list st =
        Some (session.SRaise (session.Py e), st')
        /\ session.world st' = w'
  end.
Proof. apply add_entry_at_keyboard. Qed.

Lemma input_none w out :
  session.input {| session.world := w; session.stdin := [];
                   session.main_out := out |} =
  Some (session.SRaise session.EOFError,
        {| session.world := w; session.stdin := [];
           session.main_out := out |}).
Proof. reflexivity. Qed.

(** X19. [add_entry] asks all its questions before it touches a file:
    when the input ends before the five answers are in, it raises
    ([EOFError], or [ValueError] when the counter file made [get_next_id]
    fail before the first question) and the files and the console are as
    they were; no identifier is used up. *)
Theorem add_entry_input_ends st :
  (length (session.stdin st) < 5)%nat ->
  exists e st',
    session.add_entry str_list st = Some (session.SRaise e, st')
    /\ session.world st' = session.world st
    /\ (e = session.EOFError \/ e = session.Py ValueError).
Proof.
  destruct st as [w inp out]. cbn [session.stdin session.world].
  intros Hlen. unfold session.add_entry.
  destruct (get_next_id_cases w) as [[n Hn]|Hn].
  - rewrite (sbind_ok _ _ _ _ _ (call_ok get_next_id _ _ _ _ _ Hn)).
    do 5 (destruct inp as [|? inp];
          [ rewrite (sbind_raise _ _ _ _ _ (input_none _ _));
            eexists _, _; split; [reflexivity|split; [reflexivity|now left]]
          | rewrite (sbind_ok _ _ _ _ _ (input_line _ _ _ _)) ]).
    simpl in Hlen. lia.
  - rewrite (sbind_raise _ _ _ _ _ (call_raise get_next_id _ _ _ _ _ Hn)).
    eexists _, _. split; [reflexivity|split; [reflexivity|now right]].
Qed.

(** ** [edit_entry] at the keyboard *)

Lemma lift_run {A} (r : result A) w : lift r w = (r, w).
Proof. reflexivity. Qed.

Lemma edit_entry_at_keyboard w out pre e post q nd nt na nc nds rest :
  loads w (pre ++ e :: post) ->
  Forall (fun x => e_id x <> q) pre -> e_id e = q ->
  exists w',
    main.edit_entry str_list q nd nt na nc nds w = (Ok tt, w')
    /\ session.edit_entry str_list q
         {| session.world := w;
            session.stdin := nd :: nt :: na :: nc :: nds :: rest;
            session.main_out := out |} =
       Some (session.SOk tt,
             {| session.world := w'; session.stdin := rest;
                session.main_out := out |}).
Proof.
  intros Hl Hpre He. eexists.
  split; [exact (edit_entry_found str_list w pre e post q nd nt na nc nds
                   Hl Hpre He)|].
  unfold session.edit_entry.
  rewrite (sbind_ok _ _ _ _ _ (call_ok read_data _ _ _ _ _ Hl)).
  rewrite (sbind_ok _ _ _ _ _
             (call_ok _ _ _ _ _ _ (search_by_id_run _ _ q Hl))).
  rewrite (find_first _ _ _ _ Hpre He).
  change (option_map entry_of (Some e)) with (Some (entry_of e)).
  change (truthy (Some (entry_of e))) with true. cbv iota.
  rewrite (sbind_ok _ _ _ _ _ (call_ok _ _ _ _ _ _ (print_run _ _))).
  rewrite (sbind_ok _ _ _ _ _ (input_line _ _ _ _)).
  rewrite (sbind_ok _ _ _ _ _ (call_ok _ _ _ _ _ _ (assign_date _ _ _))).
  rewrite (sbind_ok _ _ _ _ _ (input_line _ _ _ _)).
  rewrite (sbind_ok _ _ _ _ _ (call_ok _ _ _ _ _ _ (assign_type _ _ _))).
  rewrite (sbind_ok _ _ _ _ _ (input_line _ _ _ _)).
  rewrite (sbind_ok _ _ _ _ _ (call_ok _ _ _ _ _ _ (assign_amount _ _ _))).
  rewrite (sbind_ok _ _ _ _ _ (input_line _ _ _ _)).
  rewrite (sbind_ok _ _ _ _ _ (call_ok _ _ _ _ _ _ (assign_category _ _ _))).
  rewrite (sbind_ok _ _ _ _ _ (input_line _ _ _ _)).
  rewrite (sbind_ok _ _ _ _ _
             (call_ok _ _ _ _ _ _ (assign_description _ _ _))).
  cbn [e_id e_date e_type e_amount e_category e_description].
  fold (edited e nd nt na nc nds).
  rewrite (replace_loop_entries _ _ _ _ _ Hpre He).
  rewrite (sbind_ok _ _ _ _ _ (call_ok _ _ _ _ _ _ (lift_run _ _))).
  change (entry_of (edited e nd nt na nc nds) :: map entry_of post)
    with (map entry_of (edited e nd nt na nc nds :: post)).
  rewrite <- map_app.
  assert (Hne : (pre ++ edited e nd nt na nc nds :: post)%list <> [])
    by (destruct pre; discriminate).
  rewrite (sbind_ok _ _ _ _ _
             (call_ok _ _ _ _ _ _ (write_data_nonempty str_list _ _ Hne))).
  rewrite (call_ok _ _ _ _ _ _ (print_run _ _)).
  cbn [set_content finances_csv last_id_txt stdout].
  rewrite <- List.app_assoc. reflexivity.
Qed.

(** X20. [edit_entry] asks its questions only when the id is there.  On
    a store that holds the id, with five lines to read, it is
    [edit_entry] on these five answers and reads exactly these lines. *)
Theorem edit_entry_reads_answers st pre e post q nd nt na nc nds rest :
  loads (session.world st) (pre ++ e :: post) ->
  Forall (fun x => e_id x <> q) pre -> e_id e = q ->
  session.stdin st = nd :: nt :: na :: nc :: nds :: rest ->
  exists w',
    main.edit_entry str_list q nd nt na nc nds (session.world st)
    = (Ok tt, w')
    /\ session.edit_entry str_list q st =
       Some (session.SOk tt,
             {| session.world := w'; session.stdin := rest;
                session.main_out := session.main_out st |}).
Proof.
  destruct st as [w inp out].
  cbn [session.stdin session.world session.main_out].
  intros Hl Hpre He ->.
  exact (edit_entry_at_keyboard w out pre e post q nd nt na nc nds rest
           Hl Hpre He).
Qed.

Lemma edit_entry_absent_at_keyboard w inp out es q :
  loads w es -> Forall (fun x => e_id x <> q) es ->
  exists w',
    session.edit_entry str_list q
      {| session.world := w; session.stdin := inp;
         session.main_out := out |} =
    Some (session.SOk tt,
          {| session.world := w'; session.stdin := inp;
             session.main_out := out |})
    /\ same_files w w'
    /\ stdout w' =
       (stdout w ++ EntryNotFound :: AllIds
        :: map (fun e => IdLine (VStr (e_id e))) es)%list.
Proof.
  intros Hl Hes. eexists. split.
  - unfold session.edit_entry.
    rewrite (sbind_ok _ _ _ _ _ (call_ok read_data _ _ _ _ _ Hl)).
    rewrite (sbind_ok _ _ _ _ _
               (call_ok _ _ _ _ _ _ (search_by_id_run _ _ q Hl))).
    rewrite (find_none _ _ Hes).
    change (option_map entry_of None) with (@None dict). cbv iota.
    rewrite (sbind_ok _ _ _ _ _ (call_ok _ _ _ _ _ _ (print_run _ _))).
    rewrite (call_ok _ _ _ _ _ _
               (show_all_ids_run _ es (loads_print _ _ _ Hl))).
    reflexivity.
  - split; [split; reflexivity|].
    simpl. now rewrite <- List.app_assoc.
Qed.

(** X21. When the id is not in the store, [edit_entry] reads no line at
    all, also when none is left: it reports and returns, and the lines
    the user typed ahead stay for [main] to read as choices. *)
Theorem edit_entry_asks_nothing st es q :
  loads (session.world st) es -> Forall (fun x => e_id x <> q) es ->
  exists w',
    session.edit_entry str_list q st =
    Some (session.SOk tt,
          {| session.world := w'; session.stdin := session.stdin st;
             session.main_out := session.main_out st |})
    /\ same_files (session.world st) w'
    /\ stdout w' =
       (stdout (session.world st) ++ EntryNotFound :: AllIds
        :: map (fun e => IdLine (VStr (e_id e))) es)%list.
Proof.
  destruct st as [w inp out].
  cbn [session.stdin session.world session.main_out].
  apply edit_entry_absent_at_keyboard.
Qed.

(** ** What the functions never raise *)

Lemma keeps_ret {A} (a : A) : keeps_store (ret a).
Proof. intros w Hw. split; [exact Hw|discriminate]. Qed.

Lemma keeps_bind {A B} (m : M A) (f : A -> M B) :
  keeps_store m -> (forall a, keeps_store (f a)) -> keeps_store (bind m f).
Proof.
  intros Hm Hf w Hw. unfold bind. specialize (Hm w Hw).
  destruct (m w) as [[a|e] w1]; simpl in Hm; destruct Hm as [Hs Hr].
  - now apply Hf.
  - simpl. split; [exact Hs|]. intros H. apply Hr. now inversion H.
Qed.

Lemma keeps_lift {A} (r : result A) :
  r <> Raise FileNotFoundError -> keeps_store (lift r).
Proof. intros Hr w Hw. split; assumption. Qed.

Lemma keeps_print l : keeps_store (print l).
Proof. intros w Hw. split; [exact Hw|discriminate]. Qed.

Lemma keeps_open_w p : keeps_store (open_w p).
Proof.
  intros w Hw. split; [|discriminate]. destruct p; simpl;
    [discriminate|exact Hw].
Qed.

Lemma keeps_write p s0 : keeps_store (write p s0).
Proof.
  intros w Hw. unfold write.
  destruct (content p w); (split; [|discriminate]); destruct p; simpl;
    try discriminate; exact Hw.
Qed.

Lemma parse_process_char_raises self i e :
  parse_process_char self i = Raise e -> e = csv_Error.
Proof.
  unfold parse_process_char, start_field.
  destruct (state self); destruct i as [c|];
    repeat match goal with
           | |- context [if ?b then _ else _] => destruct b
           end;
    intros H; inversion H; reflexivity.
Qed.

Lemma parse_line_raises line : forall self e,
  parse_line self line = Raise e -> e = csv_Error.
Proof.
  induction line as [|c line IH]; intros self e; simpl.
  - apply parse_process_char_raises.
  - destruct (parse_process_char self (Char c)) as [s1|e1] eqn:E.
    + apply IH.
    + intros H. inversion H; subst.
      now apply parse_process_char_raises in E.
Qed.

Lemma reader_from_raises lines : forall self e,
  reader_from self lines = Raise e -> e = csv_Error.
Proof.
  induction lines as [|l lines IH]; intros self e; simpl.
  - destruct (_ || _); discriminate.
  - destruct (parse_line self l) as [s1|e1] eqn:E.
    + destruct (ParserState_eqb (state s1) START_RECORD).
      * destruct (reader_from parse_reset lines) as [rows|e2] eqn:Er;
          [discriminate|].
        intros H. inversion H; subst. now apply IH in Er.
      * apply IH.
    + intros H. inversion H; subst. now apply parse_line_raises in E.
Qed.

Lemma keeps_read_data : keeps_store read_data.
Proof.
  intros w Hw. unfold read_data, bind, read_text, lift, ret.
  cbn [content]. unfold store_exists in Hw.
  destruct (finances_csv w) as [s0|] eqn:Hf; [|congruence].
  destruct (reader (readlines (universal_newlines s0))) as [rows|e] eqn:E;
    simpl; (split; [unfold store_exists; congruence|]); [discriminate|].
  apply reader_from_raises in E. subst. discriminate.
Qed.

Lemma keeps_writerows fieldnames ds :
  keeps_store (writerows str_list fieldnames ds).
Proof.
  induction ds as [|d ds IH]; cbn [writerows]; [apply keeps_ret|].
  apply keeps_bind.
  - apply keeps_lift. unfold _dict_to_list. destruct (forallb _ _);
      discriminate.
  - intros vs. apply keeps_bind; [apply keeps_write|intros _; exact IH].
Qed.

Lemma keeps_write_data ds : keeps_store (write_data str_list ds).
Proof.
  unfold write_data. apply keeps_bind; [apply keeps_open_w|intros _].
  apply keeps_bind; [apply keeps_lift; destruct ds; discriminate|intros d].
  apply keeps_bind; [apply keeps_write|intros _; apply keeps_writerows].
Qed.

Lemma keeps_save_last_id n : keeps_store (save_last_id n).
Proof.
  unfold save_last_id. apply keeps_bind; [apply keeps_open_w|intros _].
  apply keeps_write.
Qed.

Lemma keeps_get_next_id : keeps_store get_next_id.
Proof.
  intros w Hw. destruct (get_next_id_cases w) as [[n H]|H]; rewrite H;
    (split; [exact Hw|discriminate]).
Qed.

Lemma search_loop_raises ds q e :
  search_loop ds q = Raise e -> e = KeyError.
Proof.
  induction ds as [|d ds IH]; simpl; [discriminate|].
  unfold getitem. destruct (dict_get d (Some "id")) as [v|].
  - destruct (eq_str v q); [discriminate|exact IH].
  - intros H. now inversion H.
Qed.

Lemma replace_loop_raises ds q d e :
  replace_loop ds q d = Raise e -> e = KeyError.
Proof.
  induction ds as [|d0 ds IH]; simpl; [discriminate|].
  unfold getitem. destruct (dict_get d0 (Some "id")) as [v|].
  - destruct (eq_str v q); [discriminate|].
    destruct (replace_loop ds q d) as [r|e1]; [discriminate|].
    intros H. inversion H; subst. now apply IH.
  - intros H. now inversion H.
Qed.

Lemma keeps_getitem d k : keeps_store (lift (getitem d k)).
Proof.
  apply keeps_lift. unfold getitem. destruct (dict_get d (Some k));
    discriminate.
Qed.

Lemma keeps_search_by_id q : keeps_store (search_by_id q).
Proof.
  unfold search_by_id. apply keeps_bind; [apply keeps_read_data|intros ds].
  apply keeps_lift. intros H. apply search_loop_raises in H. discriminate.
Qed.

Lemma keeps_print_ids ds : keeps_store (print_ids ds).
Proof.
  induction ds as [|d ds IH]; cbn [print_ids]; [apply keeps_ret|].
  apply keeps_bind; [apply keeps_getitem|intros v].
  apply keeps_bind; [apply keeps_print|intros _; exact IH].
Qed.

Lemma keeps_show_all_ids : keeps_store show_all_ids.
Proof.
  unfold show_all_ids. apply keeps_bind; [apply keeps_read_data|intros ds].
  apply keeps_bind; [apply keeps_print|intros _; apply keeps_print_ids].
Qed.

Lemma keeps_assign d k new : keeps_store (assign d k new).
Proof.
  unfold assign. destruct (negb (is_empty new)); [apply keeps_ret|].
  apply keeps_bind; [apply keeps_getitem|intros v; apply keeps_ret].
Qed.

(** ** What the session never raises *)

Lemma runs_ret {A} (a : A) : runs (session.sret a).
Proof.
  intros st. exists (session.SOk a), st. split; [reflexivity|].
  split; [lia|]. intros H. split; [exact H|discriminate].
Qed.

Lemma runs_bind {A B} (m : session.S A) (f : A -> session.S B) :
  runs m -> (forall a, runs (f a)) -> runs (session.sbind m f).
Proof.
  intros Hm Hf st. destruct (Hm st) as (r & st1 & Hrun & Hlen & Hs).
  unfold session.sbind. rewrite Hrun. destruct r as [a|e].
  - destruct (Hf a st1) as (r2 & st2 & Hrun2 & Hlen2 & Hs2).
    exists r2, st2. split; [exact Hrun2|]. split; [lia|].
    intros H. apply Hs2. now apply Hs.
  - exists (session.SRaise e), st1. split; [reflexivity|].
    split; [exact Hlen|]. intros H. destruct (Hs H) as [Hs1 Hr].
    split; [exact Hs1|]. intros Heq. apply Hr. now inversion Heq.
Qed.

Lemma runs_call {A} (m : M A) : keeps_store m -> runs (session.call m).
Proof.
  intros Hm st. unfold session.call.
  pose proof (Hm (session.world st)) as H.
  destruct (m (session.world st)) as [r w'] eqn:E. simpl in H.
  eexists _, _. split; [reflexivity|]. split; [simpl; lia|].
  intros Hw. destruct (H Hw) as [Hs Hr]. split; [exact Hs|].
  destruct r; [discriminate|]. intros Heq. inversion Heq. congruence.
Qed.

Lemma runs_input : runs session.input.
Proof.
  intros st. unfold session.input.
  destruct (session.stdin st) as [|l rest] eqn:E.
  - eexists _, _. split; [reflexivity|]. split; [rewrite E; simpl; lia|].
    intros H. split; [exact H|discriminate].
  - eexists _, _. split; [reflexivity|]. split; [simpl; lia|].
    intros H. split; [exact H|discriminate].
Qed.

Lemma runs_say l : runs (session.say l).
Proof.
  intros st. eexists _, _. split; [reflexivity|]. split; [simpl; lia|].
  intros H. split; [exact H|discriminate].
Qed.

Lemma runs_add_entry : runs (session.add_entry str_list).
Proof.
  unfold session.add_entry.
  apply runs_bind; [apply runs_call, keeps_get_next_id|intros n].
  do 5 (apply runs_bind; [apply runs_input|intros ?]).
  apply runs_bind; [apply runs_call, keeps_read_data|intros ds].
  apply runs_bind; [apply runs_call, keeps_write_data|intros _].
  apply runs_bind; [apply runs_call, keeps_save_last_id|intros _].
  apply runs_call, keeps_print.
Qed.

Lemma runs_not_found :
  runs (session.sbind (session.call (print EntryNotFound))
          (fun _ => session.call show_all_ids)).
Proof.
  apply runs_bind; [apply runs_call, keeps_print|intros _].
  apply runs_call, keeps_show_all_ids.
Qed.

Lemma runs_edit_entry q : runs (session.edit_entry str_list q).
Proof.
  unfold session.edit_entry.
  apply runs_bind; [apply runs_call, keeps_read_data|intros ds].
  apply runs_bind; [apply runs_call, keeps_search_by_id|intros found].
  destruct found as [entry|]; [|apply runs_not_found].
  destruct (truthy (Some entry)); [|apply runs_not_found].
  apply runs_bind; [apply runs_call, keeps_print|intros _].
  do 5 (apply runs_bind; [apply runs_input|intros ?];
        apply runs_bind; [apply runs_call, keeps_assign|intros ?]).
  apply runs_bind.
  - apply runs_call, keeps_lift. intros H.
    apply replace_loop_raises in H. discriminate.
  - intros fin. apply runs_bind; [apply runs_call, keeps_write_data|].
    intros _. apply runs_call, keeps_print.
Qed.

Lemma runs_find :
  runs (session.sbind session.input
          (fun entry_id =>
             session.sbind (session.call (search_by_id entry_id))
               (fun entry =>
                  match entry with
                  | Some e =>
                      if truthy entry then session.say (session.FoundEntry e)
                      else session.sbind (session.say session.NotFound)
                             (fun _ => session.call show_all_ids)
                  | None =>
                      session.sbind (session.say session.NotFound)
                        (fun _ => session.call show_all_ids)
                  end))).
Proof.
  apply runs_bind; [apply runs_input|intros q].
  apply runs_bind; [apply runs_call, keeps_search_by_id|intros entry].
  assert (H : runs (session.sbind (session.say session.NotFound)
                      (fun _ => session.call show_all_ids))).
  { apply runs_bind; [apply runs_say|intros _].
    apply runs_call, keeps_show_all_ids. }
  destruct entry as [e|]; [|exact H].
  destruct (truthy (Some e)); [apply runs_say|exact H].
Qed.

(** ** [main] *)

Lemma ends_within_bind {A B} b (m : session.S A) (f : A -> session.S B) :
  runs m -> (forall a, ends_within b (f a)) ->
  ends_within b (session.sbind m f).
Proof.
  intros Hm Hf st Hlen. destruct (Hm st) as (r & st1 & Hrun & Hlen1 & Hs).
  unfold ends, session.sbind. rewrite Hrun. destruct r as [a|e].
  - destruct (Hf a st1) as (r2 & st2 & Hrun2 & Hs2); [lia|].
    exists r2, st2. split; [exact Hrun2|]. intros H. apply Hs2. now apply Hs.
  - eexists _, _. split; [reflexivity|]. intros H.
    destruct (Hs H) as [_ Hr]. intros Heq. apply Hr. now inversion Heq.
Qed.

(** A line that is read leaves one line less. *)
Lemma ends_within_input {B} b (f : string -> session.S B) :
  (forall l b', b = Datatypes.S b' -> ends_within b' (f l)) ->
  ends_within b (session.sbind session.input f).
Proof.
  intros Hf [w inp out] Hlen. unfold ends, session.sbind, session.input.
  cbn [session.stdin session.world] in *.
  destruct inp as [|l rest].
  - eexists _, _. split; [reflexivity|]. discriminate.
  - destruct b as [|b']; [simpl in Hlen; lia|].
    destruct (Hf l b' eq_refl
                {| session.world := w; session.stdin := rest;
                   session.main_out := out |})
      as (r & st' & Hrun & Hs); [simpl in *; lia|].
    exists r, st'. split; [exact Hrun|exact Hs].
Qed.

Lemma loop_ends fuel : forall b,
  (b < fuel)%nat -> ends_within b (session.loop str_list fuel).
Proof.
  induction fuel as [|fuel IH]; intros b Hb; [lia|].
  cbn [session.loop].
  do 5 (apply ends_within_bind; [apply runs_say|intros _]).
  apply ends_within_input. intros choice b' ->.
  assert (Hloop : ends_within b' (session.loop str_list fuel))
    by (apply IH; lia).
  destruct (choice =? "1")%string.
  { apply ends_within_bind; [apply runs_add_entry|intros _; exact Hloop]. }
  destruct (choice =? "2")%string.
  { apply ends_within_bind; [apply runs_input|intros q].
    apply ends_within_bind;
      [apply runs_call, keeps_search_by_id|intros entry].
    apply ends_within_bind; [|intros _; exact Hloop].
    assert (H : runs (session.sbind (session.say session.NotFound)
                        (fun _ => session.call show_all_ids))).
    { apply runs_bind; [apply runs_say|intros _].
      apply runs_call, keeps_show_all_ids. }
    destruct entry as [e|]; [|exact H].
    destruct (truthy (Some e)); [apply runs_say|exact H]. }
  destruct (choice =? "3")%string.
  { apply ends_within_bind; [apply runs_input|intros q].
    apply ends_within_bind; [apply runs_edit_entry|intros _; exact Hloop]. }
  destruct (choice =? "4")%string.
  { intros st _. eexists _, _. split; [reflexivity|discriminate]. }
  apply ends_within_bind; [apply runs_say|intros _; exact Hloop].
Qed.

(** [check_and_create_file] always returns, and leaves a store. *)
Lemma check_and_create_file_ensures w :
  exists w1,
    check_and_create_file w = (Ok tt, w1) /\ store_exists w1
    /\ last_id_txt w1 = last_id_txt w
    /\ (forall s, finances_csv w = Some s -> finances_csv w1 = Some s)
    /\ (finances_csv w = None ->
        finances_csv w1 = Some (writerow headers) /\ loads w1 []).
Proof.
  destruct (finances_csv w) as [s|] eqn:Hf.
  - eexists. split; [exact (check_and_create_file_exists w s Hf)|].
    unfold store_exists. simpl. rewrite Hf.
    repeat split; try discriminate. auto.
  - destruct (check_and_create_file_missing w Hf)
      as (w1 & H1 & Hf1 & Hc1 & _ & Hl1).
    exists w1. split; [exact H1|]. unfold store_exists. rewrite Hf1.
    repeat split; try discriminate; assumption.
Qed.

(** X22. [main] ends on every finite input and never with
    [FileNotFoundError], whatever the files hold or lack at the start and
    whatever is typed: it makes sure of the store first, and nothing it
    calls removes it.  (It ends by the choice 4, by another exception, or
    by [EOFError] when the input runs out.) *)
Theorem main_never_misses_the_store (st : session.Session) :
  exists r st',
    session.main str_list st = Some (r, st')
    /\ r <> session.SRaise (session.Py FileNotFoundError).
Proof.
  destruct st as [w inp out]. unfold session.main.
  cbn [session.stdin].
  destruct (check_and_create_file_ensures w) as (w1 & Hrun & Hs & _).
  rewrite (sbind_ok _ _ _ _ _ (call_ok _ _ _ _ _ _ Hrun)).
  destruct (loop_ends (Datatypes.S (length inp)) (length inp)
              (Nat.lt_succ_diag_r _)
              {| session.world := w1; session.stdin := inp;
                 session.main_out := out |} (Nat.le_refl _))
    as (r & st' & Hloop & Hr).
  exists r, st'. split; [exact Hloop|]. now apply Hr.
Qed.

Lemma say_run {B} l (f : unit -> session.S B) w inp out :
  session.sbind (session.say l) f
    {| session.world := w; session.stdin := inp; session.main_out := out |} =
  f tt {| session.world := w; session.stdin := inp;
          session.main_out := (out ++ [(length (stdout w), l)])%list |}.
Proof. reflexivity. Qed.

(** The five prints of the menu and the reading of the choice. *)
Lemma loop_choice fuel w c rest out :
  session.loop str_list (Datatypes.S fuel)
    {| session.world := w; session.stdin := c :: rest;
       session.main_out := out |} =
  (if (c =? "1")%string then
     session.sbind (session.add_entry str_list)
       (fun _ => session.loop str_list fuel)
   else if (c =? "2")%string then
     session.sbind session.input
       (fun entry_id =>
          session.sbind (session.call (search_by_id entry_id))
            (fun entry =>
               session.sbind
                 match entry with
                 | Some e =>
                     if truthy entry then session.say (session.FoundEntry e)
                     else session.sbind (session.say session.NotFound)
                            (fun _ => session.call show_all_ids)
                 | None =>
                     session.sbind (session.say session.NotFound)
                       (fun _ => session.call show_all_ids)
                 end
                 (fun _ => session.loop str_list fuel)))
   else if (c =? "3")%string then
     session.sbind session.input
       (fun entry_id =>
          session.sbind (session.edit_entry str_list entry_id)
            (fun _ => session.loop str_list fuel))
   else if (c =? "4")%string then session.sret tt
   else session.sbind (session.say session.InvalidChoice)
          (fun _ => session.loop str_list fuel))
    {| session.world := w; session.stdin := rest;
       session.main_out := (out ++ menu (length (stdout w)))%list |}.
Proof.
  cbn [session.loop]. rewrite !say_run.
  rewrite (sbind_ok _ _ _ _ _ (input_line _ _ _ _)).
  unfold menu. rewrite <- !List.app_assoc. reflexivity.
Qed.

Lemma sbind_assoc {A B C} (m : session.S A) (f : A -> session.S B)
    (g : B -> session.S C) st :
  session.sbind (session.sbind m f) g st =
  session.sbind m (fun a => session.sbind (f a) g) st.
Proof.
  unfold session.sbind. destruct (m st) as [[[a|e] st']|]; reflexivity.
Qed.

Lemma loop_choice_add fuel w rest out :
  session.loop str_list (Datatypes.S fuel)
    {| session.world := w; session.stdin := "1" :: rest;
       session.main_out := out |} =
  session.sbind (session.add_entry str_list)
    (fun _ => session.loop str_list fuel)
    {| session.world := w; session.stdin := rest;
       session.main_out := (out ++ menu (length (stdout w)))%list |}.
Proof. rewrite loop_choice. reflexivity. Qed.

Lemma loop_choice_find fuel w q rest out :
  session.loop str_list (Datatypes.S fuel)
    {| session.world := w; session.stdin := "2" :: q :: rest;
       session.main_out := out |} =
  session.sbind (session.call (search_by_id q))
    (fun entry =>
       session.sbind
         match entry with
         | Some e =>
             if truthy entry then session.say (session.FoundEntry e)
             else session.sbind (session.say session.NotFound)
                    (fun _ => session.call show_all_ids)
         | None =>
             session.sbind (session.say session.NotFound)
               (fun _ => session.call show_all_ids)
         end
         (fun _ => session.loop str_list fuel))
    {| session.world := w; session.stdin := rest;
       session.main_out := (out ++ menu (length (stdout w)))%list |}.
Proof. rewrite loop_choice. reflexivity. Qed.

Lemma loop_choice_exit fuel w rest out :
  session.loop str_list (Datatypes.S fuel)
    {| session.world := w; session.stdin := "4" :: rest;
       session.main_out := out |} =
  Some (session.SOk tt,
        {| session.world := w; session.stdin := rest;
           session.main_out := (out ++ menu (length (stdout w)))%list |}).
Proof. rewrite loop_choice. reflexivity. Qed.

Lemma unknown_choice_eqb c :
  unknown_choice c = true ->
  (c =? "1")%string = false /\ (c =? "2")%string = false
  /\ (c =? "3")%string = false /\ (c =? "4")%string = false.
Proof.
  unfold unknown_choice. simpl. rewrite negb_true_iff, !orb_false_iff.
  tauto.
Qed.

Lemma loop_skips junk : forall fuel w out rest,
  (length junk < fuel)%nat ->
  forallb unknown_choice junk = true ->
  exists out',
    session.loop str_list fuel
      {| session.world := w; session.stdin := (junk ++ "4" :: rest)%list;
         session.main_out := out |} =
    Some (session.SOk tt,
          {| session.world := w; session.stdin := rest;
             session.main_out := out' |})
    /\ map snd (filter (fun p => match snd p with
                                 | session.InvalidChoice => true
                                 | _ => false
                                 end) out') =
       (map snd (filter (fun p => match snd p with
                                  | session.InvalidChoice => true
                                  | _ => false
                                  end) out)
        ++ map (fun _ => session.InvalidChoice) junk)%list.
Proof.
  induction junk as [|c junk IH]; intros fuel w out rest Hlen Hj.
  - destruct fuel as [|fuel]; [simpl in Hlen; lia|].
    simpl app. rewrite loop_choice_exit.
    eexists. split; [reflexivity|].
    rewrite filter_app. simpl. now rewrite !List.app_nil_r.
  - destruct fuel as [|fuel]; [simpl in Hlen; lia|].
    simpl in Hj. apply andb_true_iff in Hj. destruct Hj as [Hc Hj].
    apply unknown_choice_eqb in Hc. destruct Hc as (H1 & H2 & H3 & H4).
    simpl app. rewrite loop_choice, H1, H2, H3, H4. rewrite say_run.
    assert (Hlen' : (length junk < fuel)%nat) by (simpl in Hlen; lia).
    match goal with
    | |- context [session.loop str_list fuel
                    {| session.world := _; session.stdin := _;
                       session.main_out := ?o |}] =>
        destruct (IH fuel w o rest Hlen' Hj) as (out' & Hrun & Hout)
    end.
    exists out'. split; [exact Hrun|]. rewrite Hout.
    rewrite !filter_app. simpl. rewrite !map_app. simpl.
    rewrite List.app_nil_r, <- !List.app_assoc. reflexivity.
Qed.

(** X23. Lines that are none of the four choices are skipped, one
    "invalid choice" for each, and the choice 4 ends the session: [main]
    then returns normally, having read up to the 4 and no further, and
    has done to the files what [check_and_create_file] does and nothing
    more. *)
Theorem main_skips_to_exit st junk rest :
  session.stdin st = (junk ++ "4" :: rest)%list ->
  forallb unknown_choice junk = true ->
  exists w1 st',
    check_and_create_file (session.world st) = (Ok tt, w1)
    /\ session.main str_list st = Some (session.SOk tt, st')
    /\ session.world st' = w1
    /\ session.stdin st' = rest
    /\ length (filter (fun p => match snd p with
                                | session.InvalidChoice => true
                                | _ => false
                                end) (session.main_out st')) =
       (length (filter (fun p => match snd p with
                                 | session.InvalidChoice => true
                                 | _ => false
                                 end) (session.main_out st))
        + length junk)%nat.
Proof.
  destruct st as [w inp out]. cbn [session.stdin session.world
                                   session.main_out].
  intros -> Hj. unfold session.main. cbn [session.stdin].
  destruct (check_and_create_file_ensures w) as (w1 & Hrun & _).
  rewrite (sbind_ok _ _ _ _ _ (call_ok _ _ _ _ _ _ Hrun)).
  destruct (loop_skips junk
              (Datatypes.S (length (junk ++ "4" :: rest)%list))
              w1 out rest) as (out' & Hloop & Hout);
    [rewrite length_app; simpl; lia|exact Hj|].
  eexists w1, _. split; [exact Hrun|]. split; [exact Hloop|].
  cbn [session.stdin session.world session.main_out].
  split; [reflexivity|]. split; [reflexivity|].
  apply (f_equal (@length _)) in Hout.
  rewrite !length_map, length_app, !length_map in Hout. exact Hout.
Qed.

Lemma add_script_length inputs :
  length (add_script inputs) = (6 * length inputs)%nat.
Proof.
  induction inputs as [|i inputs IH]; [reflexivity|].
  unfold add_script in *. simpl flat_map. simpl length. rewrite IH. lia.
Qed.

Lemma loop_adds inputs : forall fuel w out es n rest,
  (length inputs < fuel)%nat ->
  loads w es -> load_last_id w = (Ok n, w) ->
  exists w' out',
    session.loop str_list fuel
      {| session.world := w;
         session.stdin := (add_script inputs ++ "4" :: rest)%list;
         session.main_out := out |} =
    Some (session.SOk tt,
          {| session.world := w'; session.stdin := rest;
             session.main_out := out' |})
    /\ loads w' (es ++ numbered (n + 1) inputs)
    /\ load_last_id w' = (Ok (n + Z.of_nat (length inputs))%Z, w').
Proof.
  induction inputs as [|i inputs IH]; intros fuel w out es n rest Hlen Hl Hc.
  - destruct fuel as [|fuel]; [simpl in Hlen; lia|].
    change (add_script [] ++ "4" :: rest)%list with ("4" :: rest).
    rewrite loop_choice_exit.
    eexists w, _. split; [reflexivity|].
    simpl. rewrite List.app_nil_r, Z.add_0_r. split; assumption.
  - destruct fuel as [|fuel]; [simpl in Hlen; lia|].
    change (add_script (i :: inputs) ++ "4" :: rest)%list
      with ("1" :: a_date i :: a_type i :: a_amount i :: a_category i
            :: a_description i :: (add_script inputs ++ "4" :: rest))%list.
    rewrite loop_choice_add.
    destruct (add_entry_step str_list w es n (a_date i) (a_type i)
                (a_amount i) (a_category i) (a_description i) Hl Hc)
      as (w1 & Hrun & _ & _ & _ & Hl1 & Hc1).
    match goal with
    | |- context [session.sbind _ _ ?st] =>
        pose proof (add_entry_at_keyboard st _ _ _ _ _ _ eq_refl) as Hb
    end.
    cbn [session.world session.main_out] in Hb. rewrite Hrun in Hb.
    rewrite (sbind_ok _ _ _ _ _ Hb).
    assert (Hlen' : (length inputs < fuel)%nat) by (simpl in Hlen; lia).
    match goal with
    | |- context [session.loop str_list fuel
                    {| session.world := _; session.stdin := _;
                       session.main_out := ?o |}] =>
        destruct (IH fuel w1 o _ _ rest Hlen' Hl1 Hc1)
          as (w' & out' & Hloop & Hl' & Hc')
    end.
    exists w', out'. split; [exact Hloop|]. split.
    + rewrite <- List.app_assoc, nl_added in Hl'. exact Hl'.
    + rewrite Hc'. do 2 f_equal. simpl length. lia.
Qed.

(** X24. A whole session.  In a directory without the two files, typing
    the choice 1 and five answers, N times over, and then the choice 4
    makes [main] return normally: the store then loads as N records, the
    k-th holding the k-th answers (read through universal newlines), with
    the ids "2" to "N+1" in this order, the counter reads N+1, and nothing
    typed after the 4 has been read. *)
Theorem main_adds_records st inputs rest :
  finances_csv (session.world st) = None ->
  last_id_txt (session.world st) = None ->
  session.stdin st = (add_script inputs ++ "4" :: rest)%list ->
  exists st',
    session.main str_list st = Some (session.SOk tt, st')
    /\ session.stdin st' = rest
    /\ loads (session.world st') (numbered 2 inputs)
    /\ map e_id (numbered 2 inputs) =
       map (fun k => str (Z.of_nat k)) (seq 2 (length inputs))
    /\ load_last_id (session.world st')
       = (Ok (Z.of_nat (length inputs) + 1)%Z, session.world st').
Proof.
  destruct st as [w inp out].
  cbn [session.stdin session.world]. intros Hf Hc ->.
  unfold session.main. cbn [session.stdin].
  destruct (check_and_create_file_ensures w)
    as (w1 & Hrun & _ & Hc1 & _ & Hnew).
  destruct (Hnew Hf) as [_ Hl1].
  rewrite (sbind_ok _ _ _ _ _ (call_ok _ _ _ _ _ _ Hrun)).
  assert (Hload : load_last_id w1 = (Ok 1%Z, w1))
    by (apply load_last_id_absent; congruence).
  destruct (loop_adds inputs
              (Datatypes.S (length (add_script inputs ++ "4" :: rest)%list))
              w1 out [] 1%Z rest) as (w' & out' & Hloop & Hl' & Hc');
    [rewrite length_app, add_script_length; simpl; lia
    |exact Hl1|exact Hload|].
  eexists. split; [exact Hloop|].
  cbn [session.stdin session.world]. split; [reflexivity|].
  split; [exact Hl'|]. split; [apply (numbered_ids inputs 2)|].
  rewrite Hc'. do 2 f_equal. lia.
Qed.

Lemma loads_files w w' es :
  finances_csv w' = finances_csv w -> loads w es -> loads w' es.
Proof.
  unfold loads, read_data, bind, read_text, lift, ret. cbn [content].
  intros ->. destruct (finances_csv w); [|discriminate].
  destruct (reader _); [|discriminate].
  intros H. inversion H as [Hd]. now rewrite Hd.
Qed.

Lemma loop_finds qs : forall fuel w out es rest,
  (length qs < fuel)%nat -> loads w es ->
  exists w' out',
    session.loop str_list fuel
      {| session.world := w;
         session.stdin := (find_script qs ++ "4" :: rest)%list;
         session.main_out := out |} =
    Some (session.SOk tt,
          {| session.world := w'; session.stdin := rest;
             session.main_out := out' |})
    /\ same_files w w'.
Proof.
  induction qs as [|q qs IH]; intros fuel w out es rest Hlen Hl.
  - destruct fuel as [|fuel]; [simpl in Hlen; lia|].
    change (find_script [] ++ "4" :: rest)%list with ("4" :: rest).
    rewrite loop_choice_exit.
    eexists w, _. split; [reflexivity|apply same_files_refl].
  - destruct fuel as [|fuel]; [simpl in Hlen; lia|].
    change (find_script (q :: qs) ++ "4" :: rest)%list
      with ("2" :: q :: (find_script qs ++ "4" :: rest))%list.
    rewrite loop_choice_find.
    rewrite (sbind_ok _ _ _ _ _
               (call_ok _ _ _ _ _ _ (search_by_id_run _ _ q Hl))).
    assert (Hlen' : (length qs < fuel)%nat) by (simpl in Hlen; lia).
    destruct (find (has_id q) es) as [e|].
    + change (option_map entry_of (Some e)) with (Some (entry_of e)).
      change (truthy (Some (entry_of e))) with true. cbv iota.
      rewrite say_run.
      match goal with
      | |- context [session.loop str_list fuel
                      {| session.world := _; session.stdin := _;
                         session.main_out := ?o |}] =>
          destruct (IH fuel w o es rest Hlen' Hl)
            as (w' & out' & Hloop & Hs)
      end.
      exists w', out'. split; assumption.
    + change (option_map entry_of None) with (@None dict). cbv iota.
      rewrite sbind_assoc, say_run.
      rewrite (sbind_ok _ _ _ _ _
                 (call_ok _ _ _ _ _ _ (show_all_ids_run _ es Hl))).
      match goal with
      | |- context [session.loop str_list fuel
                      {| session.world := ?w1; session.stdin := _;
                         session.main_out := ?o |}] =>
          destruct (IH fuel w1 o es rest Hlen'
                      (loads_files w w1 es eq_refl Hl))
            as (w' & out' & Hloop & Hs)
      end.
      exists w', out'. split; [exact Hloop|].
      eapply same_files_trans; [|exact Hs]. split; reflexivity.
Qed.

(** X25. Looking up never changes a file.  On a store that loads as
    records, a session of any number of lookups (the choice 2 and an id,
    found or not) ended by the choice 4 returns normally, reads exactly
    these lines, and leaves both files as they were. *)
Theorem main_finds_only st es qs rest :
  loads (session.world st) es ->
  session.stdin st = (find_script qs ++ "4" :: rest)%list ->
  exists st',
    session.main str_list st = Some (session.SOk tt, st')
    /\ session.stdin st' = rest
    /\ same_files (session.world st) (session.world st').
Proof.
  destruct st as [w inp out].
  cbn [session.stdin session.world]. intros Hl ->.
  unfold session.main. cbn [session.stdin].
  assert (Hf : exists s0, finances_csv w = Some s0).
  { unfold loads, read_data, bind, read_text in Hl. cbn [content] in Hl.
    destruct (finances_csv w) as [s0|]; [now exists s0|discriminate]. }
  destruct Hf as [s0 Hf].
  pose proof (check_and_create_file_exists w s0 Hf) as Hrun.
  rewrite (sbind_ok _ _ _ _ _ (call_ok _ _ _ _ _ _ Hrun)).
  assert (Hlen : (length qs
                  < Datatypes.S (length (find_script qs ++ "4" :: rest)))%nat).
  { rewrite length_app. simpl.
    assert (length qs <= length (find_script qs))%nat; [|lia].
    clear. induction qs; simpl; lia. }
  match goal with
  | |- context [session.loop str_list _
                  {| session.world := ?w1; session.stdin := _;
                     session.main_out := ?o |}] =>
      destruct (loop_finds qs _ w1 o es rest Hlen
                  (loads_files w w1 es eq_refl Hl))
        as (w' & out' & Hloop & Hs)
  end.
  eexists. split; [exact Hloop|].
  cbn [session.stdin session.world]. split; [reflexivity|].
  eapply same_files_trans; [|exact Hs]. split; reflexivity.
Qed.

Lemma loop_choice_edit fuel w q rest out :
  session.loop str_list (Datatypes.S fuel)
    {| session.world := w; session.stdin := "3" :: q :: rest;
       session.main_out := out |} =
  session.sbind (session.edit_entry str_list q)
    (fun _ => session.loop str_list fuel)
    {| session.world := w; session.stdin := rest;
       session.main_out := (out ++ menu (length (stdout w)))%list |}.
Proof. rewrite loop_choice. reflexivity. Qed.

Lemma loads_exists w es : loads w es -> exists s, finances_csv w = Some s.
Proof.
  unfold loads, read_data, bind, read_text. cbn [content].
  destruct (finances_csv w) as [s0|]; [now exists s0|discriminate].
Qed.

(** X26. A session that edits.  On a store where [e] is the first record
    with the id [q], typing the choice 3, the id, five answers and the
    choice 4 makes [main] return normally: the store then loads with [e]
    replaced, at its place, by the record with the answered fields (read
    through universal newlines) and the others kept, every other record
    is as it was, the counter file is not touched, and nothing typed after
    the 4 has been read. *)
Theorem main_edits_record st pre e post q nd nt na nc nds rest :
  loads (session.world st) (pre ++ e :: post) ->
  Forall (fun x => e_id x <> q) pre -> e_id e = q ->
  session.stdin st =
    "3" :: q :: nd :: nt :: na :: nc :: nds :: "4" :: rest ->
  exists st',
    session.main str_list st = Some (session.SOk tt, st')
    /\ session.stdin st' = rest
    /\ loads (session.world st')
         (pre ++ nl_entry (edited e nd nt na nc nds) :: post)
    /\ last_id_txt (session.world st') = last_id_txt (session.world st).
Proof.
  destruct st as [w inp out].
  cbn [session.stdin session.world]. intros Hl Hpre He ->.
  unfold session.main. cbn [session.stdin length].
  destruct (loads_exists _ _ Hl) as [s0 Hf].
  pose proof (check_and_create_file_exists w s0 Hf) as Hrun.
  rewrite (sbind_ok _ _ _ _ _ (call_ok _ _ _ _ _ _ Hrun)).
  rewrite loop_choice_edit.
  match goal with
  | |- context [session.sbind _ _
                  {| session.world := ?w1; session.stdin := _;
                     session.main_out := ?o |}] =>
      pose proof (loads_files w w1 _ eq_refl Hl) as Hl1;
      destruct (edit_entry_at_keyboard w1 o pre e post q nd nt na nc nds
                  ("4" :: rest) Hl1 Hpre He) as (w' & Hm & Hs);
      destruct (edit_entry_step str_list w1 pre e post q nd nt na nc nds
                  Hl1 Hpre He) as (w'' & Hm' & _ & Hid & Hl')
  end.
  rewrite Hm in Hm'. inversion Hm'; subst w''.
  rewrite (sbind_ok _ _ _ _ _ Hs). rewrite loop_choice_exit.
  eexists. split; [reflexivity|].
  cbn [session.stdin session.world]. split; [reflexivity|].
  split; [exact Hl'|exact Hid].
Qed.

(** X27. A session that asks for an edit of an id that the store does not
    hold: after the choice 3 and the id, [main] asks no further question
    and reads the next line as a choice.  With the choice 4 there, it
    returns normally and both files are as they were. *)
Theorem main_edit_absent st es q rest :
  loads (session.world st) es -> Forall (fun x => e_id x <> q) es ->
  session.stdin st = "3" :: q :: "4" :: rest ->
  exists st',
    session.main str_list st = Some (session.SOk tt, st')
    /\ session.stdin st' = rest
    /\ same_files (session.world st) (session.world st').
Proof.
  destruct st as [w inp out].
  cbn [session.stdin session.world]. intros Hl Hes ->.
  unfold session.main. cbn [session.stdin length].
  destruct (loads_exists _ _ Hl) as [s0 Hf].
  pose proof (check_and_create_file_exists w s0 Hf) as Hrun.
  rewrite (sbind_ok _ _ _ _ _ (call_ok _ _ _ _ _ _ Hrun)).
  rewrite loop_choice_edit.
  match goal with
  | |- context [session.sbind _ _
                  {| session.world := ?w1; session.stdin := _;
                     session.main_out := ?o |}] =>
      destruct (edit_entry_absent_at_keyboard w1 ("4" :: rest) o es q
                  (loads_files w w1 _ eq_refl Hl) Hes) as (w' & Hs & Hsame & _)
  end.
  rewrite (sbind_ok _ _ _ _ _ Hs). rewrite loop_choice_exit.
  eexists. split; [reflexivity|].
  cbn [session.stdin session.world]. split; [reflexivity|].
  eapply same_files_trans; [|exact Hsame]. split; reflexivity.
Qed.

End session_facts.

(** * The further properties at concrete inputs *)

Lemma check_and_create_file_creates_witness :
  exists w',
    check_and_create_file no_files = (Ok tt, w')
    /\ loads w' [].
Proof.
  destruct (check_and_create_file_creates no_files eq_refl)
    as (w' & H1 & _ & _ & _ & H2).
  exists w'. split; assumption.
Defined.

Lemma store_missing_witness :
  search_by_id "2" no_files = (Raise FileNotFoundError, no_files)
  /\ show_all_ids no_files = (Raise FileNotFoundError, no_files).
Proof.
  destruct (store_missing plain_str_list no_files "2" "2024-04-01" "expense"
              "12" "food" "Apr" eq_refl) as (_ & H1 & H2 & _).
  split; assumption.
Defined.

Lemma show_all_ids_prints_witness :
  exists w',
    show_all_ids example_world = (Ok tt, w')
    /\ stdout w' =
       [AllIds; IdLine (VStr "2"); IdLine (VStr "3"); IdLine (VStr "2")].
Proof.
  destruct (show_all_ids_prints example_world [jan; feb; mar] loads_example)
    as (w' & H1 & H2 & _).
  exists w'. split; assumption.
Defined.

Lemma write_data_fits_witness :
  exists w',
    write_data plain_str_list [entry_of jan; short_dict] no_files = (Ok tt, w')
    /\ finances_csv w' =
       Some (writerow headers ++ writerow (values jan)
             ++ writerow ["3"; EmptyString; EmptyString; EmptyString;
                          EmptyString; EmptyString]).
Proof.
  eexists. split.
  - exact (write_data_fits plain_str_list (entry_of jan) [short_dict]
             no_files eq_refl).
  - reflexivity.
Defined.

Lemma write_data_misfit_witness :
  exists w',
    write_data plain_str_list
      [entry_of jan; entry_of feb; wide_dict; entry_of mar] example_world
    = (Raise ValueError, w')
    /\ finances_csv w' = Some (store_text [jan; feb]).
Proof.
  eexists. split.
  - exact (write_data_misfit plain_str_list (entry_of jan) [entry_of feb]
             wide_dict [entry_of mar] example_world eq_refl eq_refl).
  - reflexivity.
Defined.

Lemma loads_sound : loads sound_world [jan; feb].
Proof. vm_compute. reflexivity. Defined.

Lemma load_sound : load_last_id sound_world = (Ok 3%Z, sound_world).
Proof. reflexivity. Defined.

Lemma consistent_sound : consistent [jan; feb] 3.
Proof.
  split.
  - repeat constructor; simpl; intuition discriminate.
  - repeat constructor; [exists 2%Z|exists 3%Z]; split;
      solve [reflexivity | lia].
Defined.

Lemma loads_drifted : loads drifted_world [jan; feb].
Proof. vm_compute. reflexivity. Defined.

Lemma load_drifted : load_last_id drifted_world = (Ok 1%Z, drifted_world).
Proof. reflexivity. Defined.

Lemma read_no_id : read_data no_id_world = (Ok [no_id_dict], no_id_world).
Proof. vm_compute. reflexivity. Defined.

Lemma not_4 : Forall (fun x => e_id x <> str (3 + 1)) [jan; feb; mar].
Proof. repeat constructor; discriminate. Defined.

Lemma add_entry_keeps_consistent_witness :
  exists w' es',
    add_entry plain_str_list "2024-04-01" "expense" "12" "food" "Apr"
      sound_world = (Ok tt, w')
    /\ loads w' es' /\ length es' = 3%nat /\ consistent es' 4.
Proof.
  destruct (add_entry_keeps_consistent plain_str_list sound_world [jan; feb]
              3 "2024-04-01" "expense" "12" "food" "Apr"
              loads_sound load_sound consistent_sound)
    as (w' & es' & H1 & H2 & H3 & _ & H4).
  exists w', es'. repeat split; try assumption; apply H4.
Defined.

Lemma jan_not_3 : Forall (fun x => e_id x <> "3") [jan].
Proof. repeat constructor; discriminate. Defined.


Lemma add_then_search_witness :
  exists w',
    add_entry plain_str_list "2024-04-01" "expense" "12" "food" "Apr"
      example_world = (Ok tt, w')
    /\ search_by_id "4" w' =
       (Ok (Some (entry_of {| e_id := "4"; e_date := "2024-04-01";
                              e_type := "expense"; e_amount := "12";
                              e_category := "food";
                              e_description := "Apr" |})), w').
Proof.
  exact (add_then_search plain_str_list example_world [jan; feb; mar] 3
           "2024-04-01" "expense" "12" "food" "Apr"
           loads_example load_example not_4).
Defined.

Lemma add_entry_collision_witness :
  exists w' new,
    add_entry plain_str_list "2024-04-01" "expense" "12" "food" "Apr"
      drifted_world = (Ok tt, w')
    /\ loads w' [jan; feb; new]
    /\ e_id new = "2"
    /\ search_by_id "2" w' = (Ok (Some (entry_of jan)), w').
Proof.
  destruct (add_entry_collision plain_str_list drifted_world [] jan [feb] 1
              "2024-04-01" "expense" "12" "food" "Apr"
              loads_drifted load_drifted (Forall_nil _) eq_refl)
    as (w' & new & H1 & H2 & H3 & _ & H4).
  exists w', new. repeat split; assumption.
Defined.

Lemma edit_then_search_witness :
  exists w',
    edit_entry plain_str_list "2" EmptyString EmptyString "150" EmptyString
      EmptyString example_world = (Ok tt, w')
    /\ search_by_id "2" w' =
       (Ok (Some (entry_of
                    {| e_id := "2"; e_date := "2024-01-01";
                       e_type := "income"; e_amount := "150";
                       e_category := "salary"; e_description := "Jan" |})),
        w').
Proof.
  exact (edit_then_search plain_str_list example_world [] jan [feb; mar] "2"
           EmptyString EmptyString "150" EmptyString EmptyString
           loads_example (Forall_nil _) eq_refl).
Defined.

Lemma edit_entry_twice_witness :
  exists w1 w2,
    edit_entry plain_str_list "2" EmptyString EmptyString "150" EmptyString
      EmptyString example_world = (Ok tt, w1)
    /\ edit_entry plain_str_list "2" EmptyString EmptyString "150"
         EmptyString EmptyString w1 = (Ok tt, w2)
    /\ same_files w1 w2.
Proof.
  exact (edit_entry_twice plain_str_list example_world [] jan [feb; mar] "2"
           EmptyString EmptyString "150" EmptyString EmptyString
           loads_example (Forall_nil _) eq_refl).
Defined.

Lemma missing_id_column_witness :
  search_by_id "1" no_id_world = (Raise KeyError, no_id_world)
  /\ edit_entry plain_str_list "1" EmptyString EmptyString "150" EmptyString
       EmptyString no_id_world = (Raise KeyError, no_id_world).
Proof.
  destruct (missing_id_column plain_str_list no_id_world no_id_dict [] "1"
              EmptyString EmptyString "150" EmptyString EmptyString
              read_no_id eq_refl) as (H1 & H2 & _).
  split; assumption.
Defined.

Lemma add_entry_missing_column_witness :
  exists w',
    add_entry plain_str_list "2024-04-01" "expense" "12" "food" "Apr"
      no_id_world = (Raise ValueError, w')
    /\ finances_csv w' =
       Some ("date,amount" ++ cr ++ eol ++ "1,2" ++ cr ++ eol)
    /\ last_id_txt w' = None.
Proof.
  destruct (add_entry_missing_column plain_str_list no_id_world no_id_dict []
              1 "2024-04-01" "expense" "12" "food" "Apr"
              read_no_id eq_refl eq_refl eq_refl)
    as (w' & H1 & H2 & H3 & _).
  exists w'. repeat split; assumption.
Defined.

Lemma read_data_no_CR_witness :
  read_data cr_world = (Ok [entry_of (nl_entry cr_entry)], cr_world)
  /\ Forall dict_no_CR [entry_of (nl_entry cr_entry)].
Proof.
  assert (H : read_data cr_world
              = (Ok [entry_of (nl_entry cr_entry)], cr_world))
    by (vm_compute; reflexivity).
  split; [exact H|exact (read_data_no_CR cr_world _ _ H)].
Defined.

Lemma add_entry_reads_answers_witness :
  exists w',
    main.add_entry plain_str_list "2024-04-01" "expense" "12" "food" "Apr"
      example_world = (Ok tt, w')
    /\ session.add_entry plain_str_list example_session =
       Some (session.SOk tt,
             {| session.world := w'; session.stdin := ["4"];
                session.main_out := [] |}).
Proof.
  pose proof (add_entry_reads_answers plain_str_list example_session
                "2024-04-01" "expense" "12" "food" "Apr" ["4"] eq_refl) as H.
  destruct (main.add_entry plain_str_list "2024-04-01" "expense" "12" "food"
              "Apr" (session.world example_session)) as [[[]|e] w'] eqn:E.
  - exists w'. split; [exact E|exact H].
  - exfalso. vm_compute in E. discriminate E.
Defined.

Lemma add_entry_input_ends_witness :
  exists st',
    session.add_entry plain_str_list short_session =
    Some (session.SRaise session.EOFError, st')
    /\ session.world st' = example_world.
Proof.
  destruct (add_entry_input_ends plain_str_list short_session
              ltac:(simpl; lia)) as (e & st' & H1 & H2 & H3).
  exists st'. split; [|exact H2].
  rewrite H1. destruct H3 as [->| ->]; [reflexivity|].
  exfalso. vm_compute in H1. discriminate H1.
Defined.

Lemma edit_entry_reads_answers_witness :
  exists w',
    main.edit_entry plain_str_list "2" "2024-04-01" "expense" "12" "food"
      "Apr" example_world = (Ok tt, w')
    /\ session.edit_entry plain_str_list "2" example_session =
       Some (session.SOk tt,
             {| session.world := w'; session.stdin := ["4"];
                session.main_out := [] |}).
Proof.
  exact (edit_entry_reads_answers plain_str_list example_session [] jan
           [feb; mar] "2" "2024-04-01" "expense" "12" "food" "Apr" ["4"]
           loads_example (Forall_nil _) eq_refl eq_refl).
Defined.

Lemma edit_entry_asks_nothing_witness :
  exists w',
    session.edit_entry plain_str_list "99" example_session =
    Some (session.SOk tt,
          {| session.world := w';
             session.stdin :=
               ["2024-04-01"; "expense"; "12"; "food"; "Apr"; "4"];
             session.main_out := [] |})
    /\ same_files example_world w'.
Proof.
  destruct (edit_entry_asks_nothing plain_str_list example_session
              [jan; feb; mar] "99" loads_example not_99)
    as (w' & H1 & H2 & _).
  exists w'. split; assumption.
Defined.

Lemma main_skips_to_exit_witness :
  exists st',
    session.main plain_str_list (first_run ["x"; "5"; " 1"; "4"; "1"]) =
    Some (session.SOk tt, st')
    /\ session.world st' = fresh_world
    /\ session.stdin st' = ["1"].
Proof.
  destruct (main_skips_to_exit plain_str_list
              (first_run ["x"; "5"; " 1"; "4"; "1"]) ["x"; "5"; " 1"] ["1"]
              eq_refl eq_refl) as (w1 & st' & H0 & H1 & H2 & H3 & _).
  exists st'. split; [exact H1|]. split; [|exact H3].
  rewrite H2. change (check_and_create_file no_files = (Ok tt, w1)) in H0.
  rewrite check_and_create_file_fresh in H0. now inversion H0.
Defined.

Lemma main_adds_records_witness :
  exists st',
    session.main plain_str_list
      (first_run (add_script example_inputs ++ ["4"; "1"])) =
    Some (session.SOk tt, st')
    /\ session.stdin st' = ["1"]
    /\ loads (session.world st') (numbered 2 example_inputs)
    /\ load_last_id (session.world st') = (Ok 3%Z, session.world st').
Proof.
  destruct (main_adds_records plain_str_list
              (first_run (add_script example_inputs ++ ["4"; "1"]))
              example_inputs ["1"] eq_refl eq_refl eq_refl)
    as (st' & H1 & H2 & H3 & _ & H4).
  exists st'. repeat split; assumption.
Defined.

Lemma main_finds_only_witness :
  exists st',
    session.main plain_str_list (later_run ["2"; "3"; "2"; "99"; "4"]) =
    Some (session.SOk tt, st')
    /\ session.stdin st' = []
    /\ same_files example_world (session.world st').
Proof.
  exact (main_finds_only plain_str_list
           (later_run ["2"; "3"; "2"; "99"; "4"]) [jan; feb; mar]
           ["3"; "99"] [] loads_example eq_refl).
Defined.

Lemma main_edits_record_witness :
  exists st',
    session.main plain_str_list
      (later_run ["3"; "3"; EmptyString; EmptyString; "41"; EmptyString;
                  EmptyString; "4"; "1"]) =
    Some (session.SOk tt, st')
    /\ session.stdin st' = ["1"]
    /\ loads (session.world st')
         [jan;
          {| e_id := "3"; e_date := "2024-02-01"; e_type := "expense";
             e_amount := "41"; e_category := "food";
             e_description := "Feb" |};
          mar]
    /\ last_id_txt (session.world st') = Some "3".
Proof.
  exact (main_edits_record plain_str_list
           (later_run ["3"; "3"; EmptyString; EmptyString; "41"; EmptyString;
                       EmptyString; "4"; "1"])
           [jan] feb [mar] "3" EmptyString EmptyString "41" EmptyString
           EmptyString ["1"] loads_example
           jan_not_3
           eq_refl eq_refl).
Defined.

Lemma main_edit_absent_witness :
  exists st',
    session.main plain_str_list (later_run ["3"; "99"; "4"; "150"]) =
    Some (session.SOk tt, st')
    /\ session.stdin st' = ["150"]
    /\ same_files example_world (session.world st').
Proof.
  exact (main_edit_absent plain_str_list
           (later_run ["3"; "99"; "4"; "150"]) [jan; feb; mar] "99" ["150"]
           loads_example not_99 eq_refl).
Defined.
